(** * Daily: drawing-snapshot autosave and its owner-scoped write path

    A shallow embedding of the Convex functions in [convex/todos.ts] and
    [convex/documents.ts] (module [Convex]) and of the React drawing
    session in [src/App.tsx] / [src/components/DocumentEditor.tsx]
    (module [Autosave]), with the properties of the autosave subsystem. *)

From Stdlib Require Import ZArith Lia.
From stdpp Require Import gmap strings list.

Open Scope string_scope.
Open Scope list_scope.

(** ** Backend: the Convex queries and mutations *)

Module Convex.

(** Convex document ids are opaque; an id is never the empty string, so
    the source's [if (!userId)] is exactly the test for [null]. *)
Definition Id := nat.

(** [convex/schema.ts]: the two application tables. *)
Record Todo := mkTodo {
  text : string;
  description : option string;
  completed : bool;
  userId : Id;
  hidden : bool;
  dueDate : Z;
  drawing : option string
}.

Record Document := mkDocument {
  title : string;
  content : option string;
  doc_userId : Id;
  createdAt : Z;
  updatedAt : Z;
  emoji : option string;
  doc_drawing : option string
}.

(** The database: the [users] table of the auth tables (only the ids
    matter here) and the two application tables. *)
Record Db := mkDb {
  users : gset Id;
  todos : gmap Id Todo;
  documents : gmap Id Document
}.

(** What a handler gets besides its arguments: the identity resolved by
    [getAuthUserId(ctx)] ([None] is [null]), the clock ([Date.now()]),
    local midnight of the current day ([today.setHours(0,0,0,0)]) and the
    calendar step of [setDate(getDate() + 1)]. *)
Record Ctx := mkCtx {
  auth : option Id;
  now : Z;
  today : Z;
  next_day : Z -> Z
}.

Inductive Table := Users | Todos | Documents.

(** Every call on [ctx.db], in the order it is made. *)
Inductive DbOp :=
| DbGet (t : Table) (id : Id)
| DbQuery (t : Table)
| DbInsert (t : Table) (id : Id)
| DbPatch (t : Table) (id : Id)
| DbDelete (t : Table) (id : Id).

(** A handler run: it threads the database and the access log, and either
    returns a value or throws [new Error(msg)]. *)
Inductive Result (A : Type) :=
| Ok (a : A)
| Throw (msg : string).
Arguments Ok {A} a.
Arguments Throw {A} msg.

Definition Handler (A : Type) : Type := Db -> list DbOp -> Result A * Db * list DbOp.

Definition ret {A} (a : A) : Handler A := fun db log => (Ok a, db, log).
Definition throw {A} (msg : string) : Handler A := fun db log => (Throw msg, db, log).
Definition bind {A B} (m : Handler A) (k : A -> Handler B) : Handler B :=
  fun db log =>
    match m db log with
    | (Ok a, db', log') => k a db' log'
    | (Throw msg, db', log') => (Throw msg, db', log')
    end.

Notation "'let*' x ':=' m 'in' k" := (bind m (fun x => k))
  (at level 10, x name, m at level 100, k at level 200).
Notation "'do' m 'then' k" := (bind m (fun _ => k))
  (at level 10, m at level 100, k at level 200).

(** [ctx.db.get(id)] on each table. *)
Definition get_user (id : Id) : Handler (option Id) := fun db log =>
  (Ok (if decide (id ∈ users db) then Some id else None), db, log ++ [DbGet Users id]).
Definition get_todo (id : Id) : Handler (option Todo) := fun db log =>
  (Ok (todos db !! id), db, log ++ [DbGet Todos id]).
Definition get_document (id : Id) : Handler (option Document) := fun db log =>
  (Ok (documents db !! id), db, log ++ [DbGet Documents id]).

(** [ctx.db.query(table).withIndex("by_user", q => q.eq("userId", u))],
    followed for todos by the [dueDate] filter. The order of the rows is
    the order of the map's listing. *)
Definition query_todos (u : Id) (since : Z) : Handler (list (Id * Todo)) := fun db log =>
  (Ok (filter (fun p => userId p.2 = u ∧ (since <= dueDate p.2)%Z) (map_to_list (todos db))),
   db, log ++ [DbQuery Todos]).
Definition query_documents (u : Id) : Handler (list (Id * Document)) := fun db log =>
  (Ok (filter (fun p => doc_userId p.2 = u) (map_to_list (documents db))),
   db, log ++ [DbQuery Documents]).

(** [ctx.db.insert]: the row gets an id that is not in the table. *)
Definition insert_todo (t : Todo) : Handler Id := fun db log =>
  let id := fresh (dom (todos db)) in
  (Ok id, mkDb (users db) (<[id := t]> (todos db)) (documents db), log ++ [DbInsert Todos id]).
Definition insert_document (d : Document) : Handler Id := fun db log =>
  let id := fresh (dom (documents db)) in
  (Ok id, mkDb (users db) (todos db) (<[id := d]> (documents db)), log ++ [DbInsert Documents id]).

(** [ctx.db.patch(id, fields)]: the fields given are replaced. Every
    handler patches a row it has just read, so the row is there. *)
Definition patch_todo (id : Id) (f : Todo -> Todo) : Handler unit := fun db log =>
  (Ok tt, mkDb (users db) (alter f id (todos db)) (documents db), log ++ [DbPatch Todos id]).
Definition patch_document (id : Id) (f : Document -> Document) : Handler unit := fun db log =>
  (Ok tt, mkDb (users db) (todos db) (alter f id (documents db)), log ++ [DbPatch Documents id]).

Definition delete_todo (id : Id) : Handler unit := fun db log =>
  (Ok tt, mkDb (users db) (delete id (todos db)) (documents db), log ++ [DbDelete Todos id]).
Definition delete_document (id : Id) : Handler unit := fun db log =>
  (Ok tt, mkDb (users db) (todos db) (delete id (documents db)), log ++ [DbDelete Documents id]).

(** Field updates used by the patches. *)
Definition set_drawing (s : string) (t : Todo) : Todo :=
  mkTodo (text t) (description t) (completed t) (userId t) (hidden t) (dueDate t) (Some s).
Definition set_completed (b : bool) (t : Todo) : Todo :=
  mkTodo (text t) (description t) b (userId t) (hidden t) (dueDate t) (drawing t).
Definition set_text (s : string) (t : Todo) : Todo :=
  mkTodo s (description t) (completed t) (userId t) (hidden t) (dueDate t) (drawing t).
Definition set_description (s : string) (t : Todo) : Todo :=
  mkTodo (text t) (Some s) (completed t) (userId t) (hidden t) (dueDate t) (drawing t).
Definition set_dueDate (z : Z) (t : Todo) : Todo :=
  mkTodo (text t) (description t) (completed t) (userId t) (hidden t) z (drawing t).

Definition set_doc_drawing (s : string) (z : Z) (d : Document) : Document :=
  mkDocument (title d) (content d) (doc_userId d) (createdAt d) z (emoji d) (Some s).
(** [{...rest, updatedAt}]: an argument that is absent leaves its field. *)
Definition set_doc_fields (t c e : option string) (z : Z) (d : Document) : Document :=
  mkDocument (default (title d) t)
             (match c with Some _ => c | None => content d end)
             (doc_userId d) (createdAt d) z
             (match e with Some _ => e | None => emoji d end)
             (doc_drawing d).

(** *** [convex/todos.ts] *)
Module todos_ts.

Definition list (ctx : Ctx) : Handler (list (Id * Todo)) :=
  match auth ctx with
  | None => ret []
  | Some uid => query_todos uid (today ctx)
  end.

Definition add (ctx : Ctx) (text : string) : Handler unit :=
  match auth ctx with
  | None => throw "Not authenticated"
  | Some uid =>
      do insert_todo (mkTodo text (Some "") false uid false (today ctx) None) then
      ret tt
  end.

(** The guard shared by the mutations on one todo:
    [if (!todo || todo.userId !== userId) throw new Error("Todo not found")]. *)
Definition owned_todo (uid : Id) (id : Id) : Handler Todo :=
  let* todo := get_todo id in
  match todo with
  | Some t => if decide (userId t = uid) then ret t else throw "Todo not found"
  | None => throw "Todo not found"
  end.

Definition updateDrawing (ctx : Ctx) (id : Id) (drawing : string) : Handler unit :=
  match auth ctx with
  | None => throw "Not authenticated"
  | Some uid =>
      do owned_todo uid id then
      patch_todo id (set_drawing drawing)
  end.

Definition toggleComplete (ctx : Ctx) (id : Id) : Handler unit :=
  match auth ctx with
  | None => throw "Not authenticated"
  | Some uid =>
      let* todo := owned_todo uid id in
      patch_todo id (set_completed (negb (completed todo)))
  end.

Definition updateText (ctx : Ctx) (id : Id) (text : string) : Handler unit :=
  match auth ctx with
  | None => throw "Not authenticated"
  | Some uid =>
      do owned_todo uid id then
      patch_todo id (set_text text)
  end.

Definition updateDescription (ctx : Ctx) (id : Id) (description : string) : Handler unit :=
  match auth ctx with
  | None => throw "Not authenticated"
  | Some uid =>
      do owned_todo uid id then
      patch_todo id (set_description description)
  end.

Definition remove (ctx : Ctx) (id : Id) : Handler unit :=
  match auth ctx with
  | None => throw "Not authenticated"
  | Some uid =>
      do owned_todo uid id then
      delete_todo id
  end.

Definition moveToNextDay (ctx : Ctx) (id : Id) : Handler unit :=
  match auth ctx with
  | None => throw "Not authenticated"
  | Some uid =>
      let* todo := owned_todo uid id in
      patch_todo id (set_dueDate (next_day ctx (dueDate todo)))
  end.

End todos_ts.

(** *** [convex/documents.ts] *)
Module documents_ts.

(** [const user = await ctx.db.get(userId); if (!user) throw ...]. *)
Definition the_user (uid : Id) : Handler Id :=
  let* user := get_user uid in
  match user with
  | Some u => ret u
  | None => throw "User not found"
  end.

Definition list (ctx : Ctx) : Handler (list (Id * Document)) :=
  match auth ctx with
  | None => throw "Not authenticated"
  | Some uid =>
      let* user := the_user uid in
      query_documents user
  end.

(** The guard shared by the operations on one document: the document is
    fetched first, then the user, and
    [if (!user || document.userId !== user._id) throw new Error("Unauthorized")]. *)
Definition owned_document (uid : Id) (id : Id) : Handler Document :=
  let* document := get_document id in
  match document with
  | None => throw "Document not found"
  | Some d =>
      let* user := get_user uid in
      match user with
      | Some u => if decide (doc_userId d = u) then ret d else throw "Unauthorized"
      | None => throw "Unauthorized"
      end
  end.

Definition get (ctx : Ctx) (id : Id) : Handler Document :=
  match auth ctx with
  | None => throw "Not authenticated"
  | Some uid => owned_document uid id
  end.

Definition create (ctx : Ctx) : Handler Id :=
  match auth ctx with
  | None => throw "Not authenticated"
  | Some uid =>
      let* user := the_user uid in
      insert_document
        (mkDocument "Untitled Document" (Some "") user (now ctx) (now ctx) None None)
  end.

Definition update (ctx : Ctx) (id : Id) (title content emoji : option string) : Handler unit :=
  match auth ctx with
  | None => throw "Not authenticated"
  | Some uid =>
      do owned_document uid id then
      patch_document id (set_doc_fields title content emoji (now ctx))
  end.

Definition remove (ctx : Ctx) (id : Id) : Handler unit :=
  match auth ctx with
  | None => throw "Not authenticated"
  | Some uid =>
      do owned_document uid id then
      delete_document id
  end.

Definition updateDrawing (ctx : Ctx) (id : Id) (drawing : string) : Handler unit :=
  match auth ctx with
  | None => throw "Not authenticated"
  | Some uid =>
      do owned_document uid id then
      patch_document id (set_doc_drawing drawing (now ctx))
  end.

End documents_ts.

(** *** The API as one dispatch *)

(** One constructor per exported function, with its arguments. *)
Inductive Op :=
| TodosList
| TodosAdd (text : string)
| TodosUpdateDrawing (id : Id) (drawing : string)
| TodosToggleComplete (id : Id)
| TodosUpdateText (id : Id) (text : string)
| TodosUpdateDescription (id : Id) (description : string)
| TodosRemove (id : Id)
| TodosMoveToNextDay (id : Id)
| DocumentsList
| DocumentsGet (id : Id)
| DocumentsCreate
| DocumentsUpdate (id : Id) (title content emoji : option string)
| DocumentsRemove (id : Id)
| DocumentsUpdateDrawing (id : Id) (drawing : string).

Inductive Value :=
| VUnit
| VId (id : Id)
| VTodos (l : list (Id * Todo))
| VDocuments (l : list (Id * Document))
| VDocument (d : Document).

Definition fmap_h {A B} (f : A -> B) (m : Handler A) : Handler B :=
  let* a := m in ret (f a).

Definition call (op : Op) (ctx : Ctx) : Handler Value :=
  match op with
  | TodosList => fmap_h VTodos (todos_ts.list ctx)
  | TodosAdd t => fmap_h (fun _ => VUnit) (todos_ts.add ctx t)
  | TodosUpdateDrawing id d => fmap_h (fun _ => VUnit) (todos_ts.updateDrawing ctx id d)
  | TodosToggleComplete id => fmap_h (fun _ => VUnit) (todos_ts.toggleComplete ctx id)
  | TodosUpdateText id t => fmap_h (fun _ => VUnit) (todos_ts.updateText ctx id t)
  | TodosUpdateDescription id d => fmap_h (fun _ => VUnit) (todos_ts.updateDescription ctx id d)
  | TodosRemove id => fmap_h (fun _ => VUnit) (todos_ts.remove ctx id)
  | TodosMoveToNextDay id => fmap_h (fun _ => VUnit) (todos_ts.moveToNextDay ctx id)
  | DocumentsList => fmap_h VDocuments (documents_ts.list ctx)
  | DocumentsGet id => fmap_h VDocument (documents_ts.get ctx id)
  | DocumentsCreate => fmap_h VId (documents_ts.create ctx)
  | DocumentsUpdate id t c e => fmap_h (fun _ => VUnit) (documents_ts.update ctx id t c e)
  | DocumentsRemove id => fmap_h (fun _ => VUnit) (documents_ts.remove ctx id)
  | DocumentsUpdateDrawing id d => fmap_h (fun _ => VUnit) (documents_ts.updateDrawing ctx id d)
  end.

(** Run a handler on a database with an empty access log. *)
Definition run {A} (m : Handler A) (db : Db) : Result A * Db * list DbOp := m db [].

End Convex.

(** ** Client: the drawing session of [DrawingEditor] / [DocumentDrawingEditor] *)

Module Autosave.

(** How a call that may throw ends: the value it leaves behind either way. *)
Inductive Completion (A : Type) :=
| Returns (a : A)
| Throws (a : A).
Arguments Returns {A} a.
Arguments Throws {A} a.

(** The collaborators the component only calls: the tldraw store and JSON.
    [stringify e] is [JSON.stringify(editor.store.getSnapshot())] on a store
    in state [e] ([None] when it throws); [JSON_parse] is [JSON.parse]
    ([None] when it throws); [loadSnapshot j e] is
    [editor.store.loadSnapshot(j)] on a store in state [e], with the state
    it leaves. *)
Class EditorApi := {
  EditorState : Type;
  Json : Type;
  stringify : EditorState -> option string;
  JSON_parse : string -> option Json;
  loadSnapshot : Json -> EditorState -> Completion EditorState
}.

(** The two components differ in the mutation they call
    ([api.todos.updateDrawing] or [api.documents.updateDrawing]) and in
    the name of the id prop. *)
Inductive EntityKind := TodoEntity | DocumentEntity.

(** What starts a task of the event loop. *)
Inductive Cause :=
| ByChange                      (* editor 'change' *)
| ByBlur                        (* window 'blur' *)
| ByTimeout (h : positive)      (* a window.setTimeout callback *)
| ByInterval (h : positive)     (* a window.setInterval callback *)
| ByRender                      (* the load effect re-runs *)
| ByUnmount.                    (* the effect cleanups *)

Section Session.
Context `{EditorApi}.

(** Everything observable the session does, in order. [Task] entries are
    written by the event loop when a task starts, the others by the
    component's code. *)
Inductive Effect :=
| Task (c : Cause) (at_ms : nat)
| ConsoleLog (msg : string)
| ConsoleError (msg : string)
| Serialize (e : EditorState) (r : option string)
| UpdateDrawing (k : EntityKind) (id : nat) (drawing : string)
| Parse (s : string) (ok : bool)
| LoadSnapshot (j : Json) (ok : bool)
| SetTimeout (h : positive) (ms : nat)
| ClearTimeout (h : positive)
| SetInterval (h : positive) (ms : nat)
| ClearInterval (h : positive).

(** A pending browser timer. Handles are positive (a timer handle is an
    integer greater than zero, so the source's [if (debounceTimerRef.current)]
    is exactly the test for [null]); [every] is the period of an interval
    timer. The component passes one callback to [setTimeout] (the debounced
    save) and one to [setInterval] (the periodic save), so the kind of the
    timer tells which callback it runs. *)
Record Timer := mkTimer {
  handle : positive;
  due : nat;
  every : option nat
}.

Record World := mkWorld {
  (* props *)
  kind : EntityKind;
  entityId : nat;
  (* useEditor(), the refs and the interval effect's local *)
  editor : option EditorState;
  debounceTimerRef : option positive;
  initialLoadRef : bool;
  snapshotRef : option string;
  intervalId : option positive;
  (* the browser *)
  listening : bool;
  clock : nat;
  timers : list Timer;
  next_handle : positive;
  (* the record of what happened *)
  trace : list Effect
}.

Definition set_editor (e : option EditorState) (w : World) : World :=
  mkWorld (kind w) (entityId w) e (debounceTimerRef w) (initialLoadRef w) (snapshotRef w)
          (intervalId w) (listening w) (clock w) (timers w) (next_handle w) (trace w).
Definition set_debounceTimerRef (r : option positive) (w : World) : World :=
  mkWorld (kind w) (entityId w) (editor w) r (initialLoadRef w) (snapshotRef w)
          (intervalId w) (listening w) (clock w) (timers w) (next_handle w) (trace w).
Definition set_initialLoadRef (b : bool) (w : World) : World :=
  mkWorld (kind w) (entityId w) (editor w) (debounceTimerRef w) b (snapshotRef w)
          (intervalId w) (listening w) (clock w) (timers w) (next_handle w) (trace w).
Definition set_snapshotRef (s : option string) (w : World) : World :=
  mkWorld (kind w) (entityId w) (editor w) (debounceTimerRef w) (initialLoadRef w) s
          (intervalId w) (listening w) (clock w) (timers w) (next_handle w) (trace w).
Definition set_intervalId (i : option positive) (w : World) : World :=
  mkWorld (kind w) (entityId w) (editor w) (debounceTimerRef w) (initialLoadRef w) (snapshotRef w)
          i (listening w) (clock w) (timers w) (next_handle w) (trace w).
Definition set_listening (b : bool) (w : World) : World :=
  mkWorld (kind w) (entityId w) (editor w) (debounceTimerRef w) (initialLoadRef w) (snapshotRef w)
          (intervalId w) b (clock w) (timers w) (next_handle w) (trace w).
Definition set_clock (c : nat) (w : World) : World :=
  mkWorld (kind w) (entityId w) (editor w) (debounceTimerRef w) (initialLoadRef w) (snapshotRef w)
          (intervalId w) (listening w) c (timers w) (next_handle w) (trace w).
Definition set_timers (ts : list Timer) (w : World) : World :=
  mkWorld (kind w) (entityId w) (editor w) (debounceTimerRef w) (initialLoadRef w) (snapshotRef w)
          (intervalId w) (listening w) (clock w) ts (next_handle w) (trace w).
Definition set_next_handle (h : positive) (w : World) : World :=
  mkWorld (kind w) (entityId w) (editor w) (debounceTimerRef w) (initialLoadRef w) (snapshotRef w)
          (intervalId w) (listening w) (clock w) (timers w) h (trace w).
Definition emit (x : Effect) (w : World) : World :=
  mkWorld (kind w) (entityId w) (editor w) (debounceTimerRef w) (initialLoadRef w) (snapshotRef w)
          (intervalId w) (listening w) (clock w) (timers w) (next_handle w) (trace w ++ [x]).

(** *** The browser's timers *)

Definition drop_timer (h : positive) (ts : list Timer) : list Timer :=
  filter (fun t => handle t ≠ h) ts.

(** [window.setTimeout(cb, ms)] and [window.setInterval(cb, ms)]: a new
    handle, the timer due [ms] from now. *)
Definition setTimeout (ms : nat) (w : World) : positive * World :=
  let h := next_handle w in
  (h, emit (SetTimeout h ms)
        (set_next_handle (Pos.succ h)
           (set_timers (timers w ++ [mkTimer h (clock w + ms) None]) w))).
Definition setInterval (ms : nat) (w : World) : positive * World :=
  let h := next_handle w in
  (h, emit (SetInterval h ms)
        (set_next_handle (Pos.succ h)
           (set_timers (timers w ++ [mkTimer h (clock w + ms) (Some ms)]) w))).

(** [window.clearTimeout(h)] and [window.clearInterval(h)]: the timer, if
    still pending, is dropped; a handle that is not pending is ignored. *)
Definition clearTimeout (h : positive) (w : World) : World :=
  emit (ClearTimeout h) (set_timers (drop_timer h (timers w)) w).
Definition clearInterval (h : positive) (w : World) : World :=
  emit (ClearInterval h) (set_timers (drop_timer h (timers w)) w).

(** *** The component *)

(** The load effect, [useEffect(..., [editor, drawingData])]. The guard
    [editor && drawingData && !initialLoadRef.current] fails on a missing and
    on an empty string alike. *)
Definition loadEffect (drawingData : option string) (w : World) : World :=
  match editor w, drawingData with
  | Some e, Some s =>
      if decide (s = "") then w
      else if initialLoadRef w then w
      else
        let w := emit (ConsoleLog "Loading drawing data") w in
        match JSON_parse s with
        | None =>
            emit (ConsoleError "Failed to load drawing:") (emit (Parse s false) w)
        | Some snapshot =>
            let w := emit (Parse s true) w in
            match loadSnapshot snapshot e with
            | Returns e' =>
                set_initialLoadRef true
                  (emit (LoadSnapshot snapshot true) (set_editor (Some e') w))
            | Throws e' =>
                emit (ConsoleError "Failed to load drawing:")
                  (emit (LoadSnapshot snapshot false) (set_editor (Some e') w))
            end
        end
  | _, _ => w
  end.

(** [saveDrawing]: the save path of all four triggers. *)
Definition saveDrawing (w : World) : World :=
  match editor w with
  | None => w
  | Some e =>
      match stringify e with
      | Some snapshot =>
          let w := emit (Serialize e (Some snapshot)) w in
          if decide (snapshotRef w = Some snapshot) then w
          else
            set_snapshotRef (Some snapshot)
              (emit (UpdateDrawing (kind w) (entityId w) snapshot)
                 (emit (ConsoleLog "Saving drawing") w))
      | None =>
          emit (ConsoleError "Failed to save drawing:") (emit (Serialize e None) w)
      end
  end.

(** [handleChange]: drop the pending debounce timer, arm a new one. *)
Definition handleChange (w : World) : World :=
  let w := match debounceTimerRef w with
           | Some h => clearTimeout h w
           | None => w
           end in
  let (h, w) := setTimeout 300 w in
  set_debounceTimerRef (Some h) w.

(** The callback given to [setTimeout] by [handleChange]. *)
Definition debounceCallback (w : World) : World :=
  set_debounceTimerRef None (saveDrawing w).

(** [handleBlur]: drop the pending debounce timer, save now. *)
Definition handleBlur (w : World) : World :=
  let w := match debounceTimerRef w with
           | Some h => set_debounceTimerRef None (clearTimeout h w)
           | None => w
           end in
  saveDrawing w.

(** The second effect: with an editor, register the two listeners. *)
Definition listenerEffect (w : World) : World :=
  match editor w with
  | None => w
  | Some _ => set_listening true w
  end.

(** Its cleanup: listeners off, one last save, then the pending debounce
    timer is cleared (the ref keeps the stale handle). *)
Definition listenerCleanup (w : World) : World :=
  match editor w with
  | None => w
  | Some _ =>
      let w := set_listening false w in
      let w := saveDrawing w in
      match debounceTimerRef w with
      | Some h => clearTimeout h w
      | None => w
      end
  end.

(** The third effect and its cleanup: the periodic save every 3000 ms. *)
Definition intervalEffect (w : World) : World :=
  match editor w with
  | None => w
  | Some _ =>
      let (h, w) := setInterval 3000 w in
      set_intervalId (Some h) w
  end.

Definition intervalCleanup (w : World) : World :=
  match intervalId w with
  | Some h => clearInterval h w
  | None => w
  end.

(** Mounting the component on a fresh [Tldraw] whose store is in state
    [e0]: the refs start at [null]/[false]/[null], then the three effects
    run in the order they are declared. *)
Definition fresh_world (k : EntityKind) (id : nat) (ed : option EditorState) : World :=
  mkWorld k id ed None false None None false 0 [] 1%positive [].

Definition mount (k : EntityKind) (id : nat) (drawingData : option string)
    (ed : option EditorState) : World :=
  intervalEffect (listenerEffect (loadEffect drawingData (fresh_world k id ed))).

(** Unmounting runs the cleanups in the order of the effects. *)
Definition unmount (w : World) : World :=
  intervalCleanup (listenerCleanup w).

(** *** The event loop *)

(** A timer that is due runs its callback, unless it was cleared in the
    meantime. A timeout is spent; an interval is due again one period later. *)
Definition fire (t : Timer) (w : World) : World :=
  if decide (handle t ∈ handle <$> timers w) then
    match every t with
    | None =>
        debounceCallback
          (emit (Task (ByTimeout (handle t)) (clock w))
             (set_timers (drop_timer (handle t) (timers w)) w))
    | Some p =>
        saveDrawing
          (emit (Task (ByInterval (handle t)) (clock w))
             (set_timers (drop_timer (handle t) (timers w)
                            ++ [mkTimer (handle t) (due t + p) (Some p)]) w))
    end
  else w.

(** One millisecond passes: the timers now due fire, in the order of the
    table, which is the order in which they were set or set again. *)
Definition tick (w : World) : World :=
  let w := set_clock (S (clock w)) w in
  foldl (fun w t => fire t w) w (filter (fun t => (due t <= clock w)%nat) (timers w)).

Fixpoint elapse (ms : nat) (w : World) : World :=
  match ms with
  | O => w
  | S n => elapse n (tick w)
  end.

(** What reaches the session from outside. [Change e]: the store moves to
    state [e] and the editor emits 'change'. *)
Inductive Event :=
| Change (e : EditorState)
| Blur
| Render (drawingData : option string)
| Unmount.

Definition dispatch (ev : Event) (w : World) : World :=
  match ev with
  | Change e =>
      match editor w with
      | None => w
      | Some _ =>
          let w := set_editor (Some e) w in
          if listening w then handleChange (emit (Task ByChange (clock w)) w) else w
      end
  | Blur =>
      if listening w then handleBlur (emit (Task ByBlur (clock w)) w) else w
  | Render drawingData => loadEffect drawingData (emit (Task ByRender (clock w)) w)
  | Unmount => unmount (emit (Task ByUnmount (clock w)) w)
  end.

(** A script: each event with the milliseconds that pass before it. *)
Definition play (script : list (nat * Event)) (w : World) : World :=
  foldl (fun w '(d, ev) => dispatch ev (elapse d w)) w script.

(** *** Reading the trace *)

(** The writes dispatched to storage. *)
Definition writes (tr : list Effect) : list (EntityKind * nat * string) :=
  omap (fun x => match x with
                 | UpdateDrawing k id s => Some (k, id, s)
                 | _ => None
                 end) tr.

(** The save attempts (calls of the serializer) with the task they ran in:
    the cause of the task, its time, the store state serialized. *)
Fixpoint attempts_in (cur : option (Cause * nat)) (tr : list Effect)
    : list (Cause * nat * EditorState) :=
  match tr with
  | [] => []
  | Task c t :: tr => attempts_in (Some (c, t)) tr
  | Serialize e _ :: tr =>
      match cur with
      | Some (c, t) => (c, t, e) :: attempts_in cur tr
      | None => attempts_in cur tr
      end
  | _ :: tr => attempts_in cur tr
  end.

Definition is_timeout (c : Cause) : bool :=
  match c with ByTimeout _ => true | _ => false end.

(** The save attempts made by debounce timers: time and state serialized. *)
Definition debounce_saves (tr : list Effect) : list (nat * EditorState) :=
  omap (fun a => match a with
                 | (c, t, e) => if is_timeout c then Some (t, e) else None
                 end) (attempts_in None tr).

(** The serializations that succeeded, the parse attempts of the load path
    and the snapshots it loaded. *)
Definition serialized (tr : list Effect) : list string :=
  omap (fun x => match x with Serialize _ (Some s) => Some s | _ => None end) tr.
Definition parse_attempts (tr : list Effect) : list string :=
  omap (fun x => match x with Parse s _ => Some s | _ => None end) tr.
Definition hydrations (tr : list Effect) : list Json :=
  omap (fun x => match x with LoadSnapshot j true => Some j | _ => None end) tr.

(** *** Invariants of a session *)

(** The pending timers set by [setTimeout]. *)
Definition timeouts (ts : list Timer) : list Timer :=
  filter (fun t => every t = None) ts.

(** The pending timers set by [setInterval]. *)
Definition intervals (ts : list Timer) : list Timer :=
  filter (fun t => every t <> None) ts.

(** An open session between two tasks: the listeners are registered, every
    handle in the timer table was handed out already, every pending interval
    is the one the third effect set, and at most one timeout is pending,
    namely the one [debounceTimerRef] holds, not yet due, its handle shared
    with no interval timer. *)
Definition steady (w : World) : Prop :=
  listening w = true /\
  Forall (fun t => (handle t < next_handle w)%positive) (timers w) /\
  Forall (fun t => intervalId w = Some (handle t)) (intervals (timers w)) /\
  match timeouts (timers w) with
  | [] => True
  | [t] =>
      debounceTimerRef w = Some (handle t) /\
      (clock w < due t)%nat /\
      Forall (fun iv => handle iv <> handle t) (intervals (timers w))
  | _ => False
  end.

(** A debounced save is pending: the session is steady, the store is in
    state [e], and the one pending timeout is due at [D]. *)
Definition armed (w : World) (e : EditorState) (D : nat) : Prop :=
  steady w /\ editor w = Some e /\
  exists h, timeouts (timers w) = [mkTimer h D None].

(** What [saveDrawing] adds to the trace. *)
Definition save_effects (w : World) : list Effect :=
  match editor w with
  | None => []
  | Some e =>
      match stringify e with
      | Some s =>
          Serialize e (Some s) ::
          (if decide (snapshotRef w = Some s) then []
           else [ConsoleLog "Saving drawing"; UpdateDrawing (kind w) (entityId w) s])
      | None => [Serialize e None; ConsoleError "Failed to save drawing:"]
      end
  end.

(** [w'] is [w] after tasks that were not debounced saves and touched
    neither the store nor the debounce timer. *)
Definition undisturbed (w w' : World) : Prop :=
  editor w' = editor w /\
  debounceTimerRef w' = debounceTimerRef w /\
  intervalId w' = intervalId w /\
  listening w' = listening w /\
  clock w' = clock w /\
  next_handle w' = next_handle w /\
  timeouts (timers w') = timeouts (timers w) /\
  (handle <$> intervals (timers w')) ⊆ (handle <$> intervals (timers w)) /\
  debounce_saves (trace w') = debounce_saves (trace w).

(** The effects that are neither a successful serialization nor a
    successful load. *)
Definition neutral (x : Effect) : Prop :=
  match x with
  | Serialize _ (Some _) => False
  | LoadSnapshot _ true => False
  | _ => True
  end.

(** [w'] is [w] after steps that leave the props, the load flag and the
    remembered snapshot alone and add only neutral effects to the trace. *)
Definition quiet_step (w w' : World) : Prop :=
  kind w' = kind w /\ entityId w' = entityId w /\
  initialLoadRef w' = initialLoadRef w /\
  snapshotRef w' = snapshotRef w /\
  exists effs, trace w' = trace w ++ effs /\ Forall neutral effs.

(** What the load flag promises about the past: nothing was loaded while
    it is unset, and a snapshot was loaded at most once. *)
Definition load_inv (w : World) : Prop :=
  (initialLoadRef w = false -> hydrations (trace w) = []) /\
  (length (hydrations (trace w)) <= 1)%nat.

(** The first successful serialization in a trace: the string and the
    rest of the trace after it. *)
Fixpoint first_success (tr : list Effect) : option (string * list Effect) :=
  match tr with
  | [] => None
  | Serialize _ (Some s) :: rest => Some (s, rest)
  | _ :: rest => first_success rest
  end.

(** What the remembered snapshot promises about the past, in a session on
    entity [id] of kind [k]: while nothing is remembered no serialization
    has succeeded, and the first one that did was written. *)
Definition save_inv (k : EntityKind) (id : nat) (w : World) : Prop :=
  kind w = k /\ entityId w = id /\
  match first_success (trace w) with
  | None => snapshotRef w = None
  | Some (s, rest) =>
      exists rest', rest = ConsoleLog "Saving drawing" :: UpdateDrawing k id s :: rest'
  end.

(** A script that does not unmount, and the session it leads to from the
    mount on an editor, [ms] milliseconds after its last event. *)
Definition stays_open (script : list (nat * Event)) : Prop :=
  Forall (fun p => match p.2 with Unmount => False | _ => True end) script.
Definition reached (k : EntityKind) (id : nat) (drawingData : option string)
    (e0 : EditorState) (script : list (nat * Event)) (ms : nat) : World :=
  elapse ms (play script (mount k id drawingData (Some e0))).


End Session.

End Autosave.

(** ** The pages that host a drawing session *)

Module Pages.
Import Autosave.

Section Views.
Context `{EditorApi}.

(** [DocumentEditor] in [components/DocumentEditor.tsx], after its effects
    have run: [Loading...] until the query answers; then the title input
    (the [title] state, set from [document.title]), the drawing panel when
    [showDrawing] (a [DocumentDrawingEditor] mounted on a fresh [Tldraw]
    whose store is in state [e0], with [drawingData = document.drawing]) and
    the markdown editor on [document.content ?? ""]. *)
Inductive DocumentPage :=
| Loading
| Page (title_input : string) (drawing_panel : option World) (markdown : string).

Definition DocumentEditor (documentId : nat) (document : option Convex.Document)
    (showDrawing : bool) (e0 : EditorState) : DocumentPage :=
  match document with
  | None => Loading
  | Some d =>
      Page (Convex.title d)
           (if showDrawing
            then Some (mount DocumentEntity documentId (Convex.doc_drawing d) (Some e0))
            else None)
           (default "" (Convex.content d))
  end.

(** One [<li>] of [TodoContent] in [App.tsx]: the checkbox and the text are
    always there; the description editor shows when the todo is the expanded
    one, the drawing panel when it is the one whose drawing is shown. *)
Record TodoItem := mkTodoItem {
  item_checked : bool;
  item_text : string;
  item_description : option string;
  item_drawing : option World
}.

Definition TodoContent_item (id : nat) (todo : Convex.Todo)
    (expandedTodo showDrawing : option nat) (e0 : EditorState) : TodoItem :=
  mkTodoItem (Convex.completed todo) (Convex.text todo)
    (if decide (expandedTodo = Some id)
     then Some (default "" (Convex.description todo)) else None)
    (if decide (showDrawing = Some id)
     then Some (mount TodoEntity id (Convex.drawing todo) (Some e0)) else None).

End Views.
End Pages.

(** ** A concrete editor, to run the model on

    The store is a string; it serializes to itself, except that the state
    ["cyclic"] cannot be serialized. A stored string parses when it starts
    with a brace, and only ["{bad}"] is refused by the store. *)

Module Demo.
Import Autosave.

Definition demo_stringify (e : string) : option string :=
  if decide (e = "cyclic") then None else Some e.
Definition demo_parse (s : string) : option string :=
  if String.prefix "{" s then Some s else None.
Definition demo_load (j e : string) : Completion string :=
  if decide (j = "{bad}") then Throws e else Returns j.

#[export] Instance demo_api : EditorApi := {|
  EditorState := string;
  Json := string;
  stringify := demo_stringify;
  JSON_parse := demo_parse;
  loadSnapshot := demo_load
|}.

(** The events of this editor. *)
Definition edit (e : string) : @Event demo_api := @Change demo_api e.
Definition render (drawingData : option string) : @Event demo_api :=
  @Render demo_api drawingData.

(** A session of this editor, mounted on a store in state [e0]. *)
Definition session (k : EntityKind) (id : nat) (drawingData : option string)
    (e0 : string) : @World demo_api :=
  @mount demo_api k id drawingData (Some e0).

(** A session on todo 7, mounted with nothing stored, on an empty store. *)
Definition session0 : World := session TodoEntity 7 None "{}".

(** The session 3100 ms after its mount: an edit at 2900 ms, the periodic
    save at 3000 ms, the debounce timer of the edit still pending. *)
Definition session_after_periodic_save : World :=
  reached TodoEntity 7 None "{}" [(2900, edit "{a}")] 200.

(** A session mounted on a stored snapshot and hydrated from it, up to a
    re-render at 3000 ms. *)
Definition hydrated_run : World :=
  play [(3000, render (Some "{a}"))] (session TodoEntity 7 (Some "{a}") "{}").

(** A database with two users; todo 1 and document 1 belong to user 10. *)
Definition db0 : Convex.Db :=
  Convex.mkDb {[10; 20]}
    {[1 := Convex.mkTodo "buy milk" (Some "") false 10 false 0%Z None]}
    {[1 := Convex.mkDocument "Notes" (Some "hello") 10 5%Z 5%Z None None]}.

Definition ctx_of (who : option nat) : Convex.Ctx :=
  Convex.mkCtx who 1000%Z 0%Z (fun z => (z + 86400000)%Z).

End Demo.

(** ** What the properties below speak of *)

(** *** The backend: targets and kinds of the operations *)

Module ConvexOps.
Import Convex.

(** The todo a mutation of [todos.ts] works on. *)
Definition todo_target (op : Op) : option Id :=
  match op with
  | TodosUpdateDrawing id _ | TodosToggleComplete id | TodosUpdateText id _
  | TodosUpdateDescription id _ | TodosRemove id | TodosMoveToNextDay id => Some id
  | _ => None
  end.

(** The document an operation of [documents.ts] works on. *)
Definition document_target (op : Op) : option Id :=
  match op with
  | DocumentsGet id | DocumentsUpdate id _ _ _ | DocumentsRemove id
  | DocumentsUpdateDrawing id _ => Some id
  | _ => None
  end.

(** The operations exported from [documents.ts]. *)
Definition on_documents (op : Op) : bool :=
  match op with
  | DocumentsList | DocumentsGet _ | DocumentsCreate | DocumentsUpdate _ _ _ _
  | DocumentsRemove _ | DocumentsUpdateDrawing _ _ => true
  | _ => false
  end.

(** The two drawing writes. *)
Definition writes_drawing (op : Op) : bool :=
  match op with
  | TodosUpdateDrawing _ _ | DocumentsUpdateDrawing _ _ => true
  | _ => false
  end.

(** The calls on [ctx.db] that change a table. *)
Definition is_write (o : DbOp) : bool :=
  match o with
  | DbInsert _ _ | DbPatch _ _ | DbDelete _ _ => true
  | _ => false
  end.

(** The calls on [ctx.db] that touch the [users] table. *)
Definition on_users (o : DbOp) : bool :=
  match o with
  | DbGet Users _ | DbQuery Users | DbInsert Users _ | DbPatch Users _
  | DbDelete Users _ => true
  | _ => false
  end.

End ConvexOps.

(** *** The session: calm steps, the writes and what the backend makes of them *)

Module AutosaveOps.
Import Autosave.
Section Ops.
Context `{EditorApi}.

(** The effects of the event loop and of the timer calls. *)
Definition calm (x : Effect) : Prop :=
  match x with
  | Task _ _ | SetTimeout _ _ | ClearTimeout _ | SetInterval _ _ | ClearInterval _ => True
  | _ => False
  end.

(** [w'] is [w] after steps that leave the props, the load flag and the
    remembered snapshot alone and add only calm effects to the trace. *)
Definition calm_step (w w' : World) : Prop :=
  kind w' = kind w /\ entityId w' = entityId w /\
  initialLoadRef w' = initialLoadRef w /\
  snapshotRef w' = snapshotRef w /\
  exists effs, trace w' = trace w ++ effs /\ Forall calm effs.

(** No two neighbours of the list are equal. *)
Definition no_repeat {A} (l : list A) : Prop :=
  forall i a b, l !! i = Some a -> l !! S i = Some b -> a <> b.

(** What the remembered snapshot says about the writes, in a session on
    entity [id] of kind [k]: every write is for that entity, the remembered
    snapshot is the payload of the last write, and no write repeats the one
    before it. *)
Definition write_inv (k : EntityKind) (id : nat) (w : World) : Prop :=
  kind w = k /\ entityId w = id /\
  Forall (fun x => x.1 = (k, id)) (writes (trace w)) /\
  snapshotRef w = last (writes (trace w)).*2 /\
  no_repeat (writes (trace w)).*2.

(** A session that has no editor: nothing is set up, nothing remembered,
    and the trace holds the starts of tasks only. *)
Definition inert (w : World) : Prop :=
  editor w = None /\ timers w = [] /\ listening w = false /\
  debounceTimerRef w = None /\ intervalId w = None /\
  snapshotRef w = None /\ initialLoadRef w = false /\
  Forall (fun x => match x with Task _ _ => True | _ => False end) (trace w).

(** A script of edits and blurs only. *)
Definition only_input (script : list (nat * Event)) : Prop :=
  Forall (fun p => match p.2 with Change _ | Blur => True | _ => False end) script.

End Ops.

(** The backend applies a write dispatched by a session, then a list of
    them in order, for the caller in [ctx]. *)
Definition store_write (ctx : Convex.Ctx) (x : EntityKind * nat * string)
    (db : Convex.Db) : Convex.Db :=
  match x with
  | (TodoEntity, id, s) => (Convex.run (Convex.todos_ts.updateDrawing ctx id s) db).1.2
  | (DocumentEntity, id, s) =>
      (Convex.run (Convex.documents_ts.updateDrawing ctx id s) db).1.2
  end.
Definition store_writes (ctx : Convex.Ctx) (ws : list (EntityKind * nat * string))
    (db : Convex.Db) : Convex.Db :=
  foldl (fun db x => store_write ctx x db) db ws.

(** The drawing stored for an entity. *)
Definition stored_drawing (k : EntityKind) (id : nat) (db : Convex.Db) : option string :=
  match k with
  | TodoEntity => Convex.todos db !! id ≫= Convex.drawing
  | DocumentEntity => Convex.documents db !! id ≫= Convex.doc_drawing
  end.

(** The caller owns the entity. *)
Definition owns (uid : nat) (k : EntityKind) (id : nat) (db : Convex.Db) : Prop :=
  match k with
  | TodoEntity => exists t, Convex.todos db !! id = Some t /\ Convex.userId t = uid
  | DocumentEntity =>
      uid ∈ Convex.users db /\
      exists d, Convex.documents db !! id = Some d /\ Convex.doc_userId d = uid
  end.

End AutosaveOps.

(** *** The periodic saves *)

Module PeriodicOps.
Import Autosave.
Section Ops.
Context `{EditorApi}.

Definition is_interval (c : Cause) : bool :=
  match c with ByInterval _ => true | _ => false end.

(** The save attempts made by the interval timer: time and state serialized. *)
Definition interval_saves (tr : list Effect) : list (nat * EditorState) :=
  omap (fun a => match a with
                 | (c, t, e) => if is_interval c then Some (t, e) else None
                 end) (attempts_in None tr).

(** The effects that do not start a task. *)
Definition taskless (x : Effect) : Prop :=
  match x with
  | Task _ _ => False
  | _ => True
  end.

(** An open session [q] periods after its mount: the one pending interval
    is due at the end of the current period, the periodic saves so far were
    made at the ends of the periods before, and a handle in
    [debounceTimerRef] is the handle of the pending timeout. *)
Definition ticking (p : nat) (w : World) (q : nat) : Prop :=
  steady w /\ is_Some (editor w) /\
  (exists i, intervals (timers w) = [mkTimer i (p * (q + 1)) (Some p)]) /\
  (p * q <= clock w < p * (q + 1))%nat /\
  (interval_saves (trace w)).*1 = (fun j => (p * j)%nat) <$> seq 1 q /\
  (forall h, debounceTimerRef w = Some h ->
             exists D, timeouts (timers w) = [mkTimer h D None]).

(** The time a script takes. *)
Definition duration (script : list (nat * Event)) : nat :=
  foldr (fun p n => (p.1 + n)%nat) 0%nat script.

End Ops.
End PeriodicOps.

(** ** The panels of the two pages *)

(** [TodoContent] in [App.tsx]: the two pieces of state that decide which
    panel of which todo is open, and the two click handlers that set them. *)
Module TodoPanels.

Record Panels := mkPanels {
  expandedTodo : option nat;
  showDrawing : option nat
}.

(** [useState(null)] twice. *)
Definition initial : Panels := mkPanels None None.

Definition toggleExpand (id : nat) (s : Panels) : Panels :=
  mkPanels (if decide (expandedTodo s = Some id) then None else Some id) None.

Definition toggleDrawing (id : nat) (s : Panels) : Panels :=
  mkPanels None (if decide (showDrawing s = Some id) then None else Some id).

Inductive Click :=
| ClickExpand (id : nat)
| ClickDrawing (id : nat).

Definition click (s : Panels) (c : Click) : Panels :=
  match c with
  | ClickExpand id => toggleExpand id s
  | ClickDrawing id => toggleDrawing id s
  end.

Definition after (clicks : list Click) : Panels := foldl click initial clicks.

End TodoPanels.

(** [DocumentEditor] in the version with a markdown panel that can be
    hidden: [showDrawing] starts [false], [showMarkdown] starts [true]. *)
Module DocumentPanels.

Record Panels := mkPanels {
  showDrawing : bool;
  showMarkdown : bool
}.

Definition initial : Panels := mkPanels false true.

Definition setShowDrawing (b : bool) (s : Panels) : Panels := mkPanels b (showMarkdown s).
Definition setShowMarkdown (b : bool) (s : Panels) : Panels := mkPanels (showDrawing s) b.

(** The handlers read the state of the render they were created in, [s],
    and queue their updates on it. *)
Definition toggleDrawing (s : Panels) : Panels :=
  if showDrawing s && showMarkdown s then setShowDrawing false s
  else if showDrawing s && negb (showMarkdown s)
       then setShowDrawing false (setShowMarkdown true s)
       else setShowDrawing true s.

Definition toggleMarkdown (s : Panels) : Panels :=
  if showMarkdown s && showDrawing s then setShowMarkdown false s
  else if showMarkdown s && negb (showDrawing s)
       then setShowMarkdown false (setShowDrawing true s)
       else setShowMarkdown true s.

Inductive Click := ClickDrawing | ClickMarkdown.

Definition click (s : Panels) (c : Click) : Panels :=
  match c with
  | ClickDrawing => toggleDrawing s
  | ClickMarkdown => toggleMarkdown s
  end.

Definition after (clicks : list Click) : Panels := foldl click initial clicks.

End DocumentPanels.

(** ** [SafeTldraw]: the wrapper that keeps tldraw from installing a
    [beforeunload] warning *)

Module SafeTldraw.

Section Window.
(** What the browser keeps of the listeners registered on [window], and
    the [addEventListener] the page found there. *)
Context {Listener Registry : Type}.
Variable native : string -> Listener -> Registry -> Registry.

(** The function values [window.addEventListener] can hold: the browser's
    own, or the closure the effect installs over the function it found. *)
Inductive AddEventListener :=
| Native
| Patched (originalAddEventListener : AddEventListener).

Fixpoint call (f : AddEventListener) (type : string) (l : Listener) (r : Registry)
    : Registry :=
  match f with
  | Native => native type l r
  | Patched originalAddEventListener =>
      if decide (type = "beforeunload") then r
      else call originalAddEventListener type l r
  end.

Record Window := mkWindow {
  onbeforeunload : option Listener;
  addEventListener : AddEventListener;
  registry : Registry
}.

(** What the cleanup closure remembers. *)
Record Saved := mkSaved {
  originalBeforeUnload : option Listener;
  saved_addEventListener : AddEventListener
}.

(** The effect of [SafeTldraw], run once at mount, and its cleanup. *)
Definition effect (w : Window) : Saved * Window :=
  (mkSaved (onbeforeunload w) (addEventListener w),
   mkWindow None (Patched (addEventListener w)) (registry w)).

Definition cleanup (c : Saved) (w : Window) : Window :=
  mkWindow (originalBeforeUnload c) (saved_addEventListener c) (registry w).

(** What the code inside the wrapper can do to the window. *)
Inductive Action :=
| AddListener (type : string) (l : Listener)
| AssignOnBeforeUnload (h : option Listener).

Definition act (w : Window) (a : Action) : Window :=
  match a with
  | AddListener type l =>
      mkWindow (onbeforeunload w) (addEventListener w)
        (call (addEventListener w) type l (registry w))
  | AssignOnBeforeUnload h => mkWindow h (addEventListener w) (registry w)
  end.

(** The wrapper mounted, its children acting on the window, the wrapper
    unmounted. *)
Definition mounted (w : Window) (actions : list Action) : Window :=
  foldl act (effect w).2 actions.
Definition lifetime (w : Window) (actions : list Action) : Window :=
  cleanup (effect w).1 (mounted w actions).

(** The registrations among the actions that are not for [beforeunload]. *)
Definition allowed (actions : list Action) : list (string * Listener) :=
  omap (fun a => match a with
                 | AddListener type l =>
                     if decide (type = "beforeunload") then None else Some (type, l)
                 | AssignOnBeforeUnload _ => None
                 end) actions.

Definition register (f : AddEventListener) (r : Registry) (regs : list (string * Listener))
    : Registry :=
  foldl (fun r p => call f p.1 p.2 r) r regs.

End Window.

Arguments Window : clear implicits.
Arguments Action : clear implicits.

End SafeTldraw.

(** ** Sample data for the runs of the backend and of the window *)

Module Samples.
Import Convex.

(** The two rows of [Demo.db0]. *)
Definition todo1 : Todo := mkTodo "buy milk" (Some "") false 10 false 0%Z None.
Definition document1 : Document := mkDocument "Notes" (Some "hello") 10 5%Z 5%Z None None.

(** The owner of both rows, another user, and a caller who is
    authenticated but has no row in the users table. *)
Definition owner : Ctx := Demo.ctx_of (Some 10).
Definition other : Ctx := Demo.ctx_of (Some 20).
Definition orphan : Ctx := Demo.ctx_of (Some 30).

(** A session of the concrete editor on todo 1 of [Demo.db0]. *)
Definition session1 : @Autosave.World Demo.demo_api :=
  Autosave.reached (H:=Demo.demo_api) Autosave.TodoEntity 1 None "{}"
    [(10, Demo.edit "{a}")] 300.

(** A browser that keeps the registered listeners in a list, and a window
    with a [beforeunload] handler installed. *)
Definition push (type l : string) (r : list (string * string)) : list (string * string) :=
  r ++ [(type, l)].
Definition window0 : SafeTldraw.Window string (list (string * string)) :=
  SafeTldraw.mkWindow (Some "warn") SafeTldraw.Native [].

End Samples.


(** * Properties of the backend *)

Module ConvexSpec.
Import Convex.

(** The guard on the owner of a todo, when the owner is someone else. *)
Lemma owned_todo_other (uid id : Id) (t : Todo) (db : Db) (log : list DbOp) :
  todos db !! id = Some t -> userId t ≠ uid ->
  todos_ts.owned_todo uid id db log = (Throw "Todo not found", db, log ++ [DbGet Todos id]).
Proof.
  intros Hget Hne. unfold todos_ts.owned_todo, bind, get_todo. rewrite Hget.
  destruct (decide (userId t = uid)); [contradiction | reflexivity].
Qed.

(** The guard on the owner of a document, when the owner is someone else. *)
Lemma owned_document_other (uid id : Id) (d : Document) (db : Db) (log : list DbOp) :
  documents db !! id = Some d -> doc_userId d ≠ uid ->
  documents_ts.owned_document uid id db log
  = (Throw "Unauthorized", db, log ++ [DbGet Documents id] ++ [DbGet Users uid]).
Proof.
  intros Hget Hne. unfold documents_ts.owned_document, bind, get_document, get_user.
  rewrite Hget. rewrite <- app_assoc.
  destruct (decide (uid ∈ users db)); [|reflexivity].
  destruct (decide (doc_userId d = uid)); [contradiction | reflexivity].
Qed.

(** C5, as the claim states it, fails: an unauthenticated [todos.list]
    returns the empty list instead of throwing. *)
Lemma C5_todos_list_does_not_throw :
  ~ (forall (op : Op) (ctx : Ctx) (db : Db),
       auth ctx = None ->
       exists msg, (run (call op ctx) db).1.1 = Throw msg).
Proof.
  intros Hall.
  destruct (Hall TodosList (Demo.ctx_of None) Demo.db0 eq_refl) as [msg Hmsg].
  discriminate Hmsg.
Qed.

(** C5 (amended): for an unauthenticated caller every query and mutation
    over todos and documents except [todos.list] throws "Not authenticated"
    before any call on the database, and [todos.list] returns the empty
    list, also without any call on the database; the database is unchanged
    in every case. *)
Theorem C5_unauthenticated_fails_closed (op : Op) (ctx : Ctx) (db : Db) :
  auth ctx = None ->
  run (call op ctx) db
  = (match op with
     | TodosList => Ok (VTodos [])
     | _ => Throw "Not authenticated"
     end, db, []).
Proof.
  intros Hauth.
  destruct op; unfold run, call, fmap_h, bind;
    unfold todos_ts.list, todos_ts.add, todos_ts.updateDrawing, todos_ts.toggleComplete,
      todos_ts.updateText, todos_ts.updateDescription, todos_ts.remove,
      todos_ts.moveToNextDay, documents_ts.list, documents_ts.get, documents_ts.create,
      documents_ts.update, documents_ts.remove, documents_ts.updateDrawing;
    rewrite Hauth; reflexivity.
Qed.

Lemma C5_unauthenticated_fails_closed_witness :
  run (call (DocumentsUpdateDrawing 1 "{}") (Demo.ctx_of None)) Demo.db0
  = (Throw "Not authenticated", Demo.db0, []).
Proof.
  apply (C5_unauthenticated_fails_closed (DocumentsUpdateDrawing 1 "{}") (Demo.ctx_of None)).
  reflexivity.
Defined.

(** C6: a drawing write by an authenticated caller on a todo or a document
    owned by someone else throws, after the reads only, and leaves the
    database (so the entity and its drawing) as it was. *)
Theorem C6_foreign_drawing_write_rejected (ctx : Ctx) (db : Db) (uid id : Id) (s : string) :
  auth ctx = Some uid ->
  (forall t, todos db !! id = Some t -> userId t ≠ uid ->
     run (todos_ts.updateDrawing ctx id s) db
     = (Throw "Todo not found", db, [DbGet Todos id])) /\
  (forall d, documents db !! id = Some d -> doc_userId d ≠ uid ->
     run (documents_ts.updateDrawing ctx id s) db
     = (Throw "Unauthorized", db, [DbGet Documents id; DbGet Users uid])).
Proof.
  intros Hauth. split.
  - intros t Hget Hne. unfold run, todos_ts.updateDrawing. rewrite Hauth.
    unfold bind at 1. rewrite (owned_todo_other uid id t db [] Hget Hne). reflexivity.
  - intros d Hget Hne. unfold run, documents_ts.updateDrawing. rewrite Hauth.
    unfold bind at 1. rewrite (owned_document_other uid id d db [] Hget Hne). reflexivity.
Qed.

Lemma C6_foreign_drawing_write_rejected_witness :
  run (todos_ts.updateDrawing (Demo.ctx_of (Some 20)) 1 "{}") Demo.db0
  = (Throw "Todo not found", Demo.db0, [DbGet Todos 1]) /\
  run (documents_ts.updateDrawing (Demo.ctx_of (Some 20)) 1 "{}") Demo.db0
  = (Throw "Unauthorized", Demo.db0, [DbGet Documents 1; DbGet Users 20]).
Proof.
  destruct (C6_foreign_drawing_write_rejected (Demo.ctx_of (Some 20)) Demo.db0 20 1 "{}" eq_refl)
    as [Ht Hd].
  split.
  - apply (Ht (mkTodo "buy milk" (Some "") false 10 false 0%Z None)); [reflexivity | simpl; lia].
  - apply (Hd (mkDocument "Notes" (Some "hello") 10 5%Z 5%Z None None)); [reflexivity | simpl; lia].
Defined.

End ConvexSpec.

(** * Properties of the drawing session *)

Module AutosaveSpec.
Import Autosave.

Section SavePath.
Context `{EditorApi}.

(** What one save attempt does when the store serializes to [s]. *)
Lemma saveDrawing_serialized (w : World) (e : EditorState) (s : string) :
  editor w = Some e -> stringify e = Some s ->
  saveDrawing w =
    if decide (snapshotRef w = Some s)
    then emit (Serialize e (Some s)) w
    else set_snapshotRef (Some s)
           (emit (UpdateDrawing (kind w) (entityId w) s)
              (emit (ConsoleLog "Saving drawing")
                 (emit (Serialize e (Some s)) w))).
Proof.
  intros He Hs. unfold saveDrawing. rewrite He, Hs. simpl.
  destruct (decide (snapshotRef w = Some s)); reflexivity.
Qed.

Lemma saveDrawing_trace (w : World) : trace (saveDrawing w) = trace w ++ save_effects w.
Proof.
  unfold saveDrawing, save_effects.
  destruct (editor w) as [e|]; [|by rewrite app_nil_r].
  destruct (stringify e) as [s|]; simpl.
  - destruct (decide (snapshotRef w = Some s)); simpl; by rewrite <- ?app_assoc.
  - by rewrite <- app_assoc.
Qed.

(** [saveDrawing] touches the trace and [snapshotRef] only. *)
Lemma saveDrawing_frame (w : World) :
  editor (saveDrawing w) = editor w /\
  debounceTimerRef (saveDrawing w) = debounceTimerRef w /\
  intervalId (saveDrawing w) = intervalId w /\
  listening (saveDrawing w) = listening w /\
  clock (saveDrawing w) = clock w /\
  next_handle (saveDrawing w) = next_handle w /\
  timers (saveDrawing w) = timers w.
Proof.
  unfold saveDrawing.
  destruct (editor w) as [e|] eqn:He; [|by rewrite He].
  destruct (stringify e) as [s|]; simpl.
  - destruct (decide (snapshotRef w = Some s)); simpl; by rewrite He.
  - by rewrite He.
Qed.

(** What [saveDrawing] leaves of the props and of [snapshotRef]. *)
Lemma saveDrawing_props (w : World) :
  kind (saveDrawing w) = kind w /\ entityId (saveDrawing w) = entityId w /\
  snapshotRef (saveDrawing w)
  = match editor w with
    | Some e => match stringify e with Some s => Some s | None => snapshotRef w end
    | None => snapshotRef w
    end.
Proof.
  unfold saveDrawing. destruct (editor w) as [e|]; [|auto].
  destruct (stringify e) as [s|]; simpl; [|auto].
  destruct (decide (snapshotRef w = Some s)); simpl; auto.
Qed.

Lemma writes_app (tr tr' : list Effect) : writes (tr ++ tr') = writes tr ++ writes tr'.
Proof. apply omap_app. Qed.

(** The writes of one save attempt. *)
Lemma saveDrawing_writes (w : World) (e : EditorState) (s : string) :
  editor w = Some e -> stringify e = Some s ->
  writes (trace (saveDrawing w))
  = writes (trace w) ++
    (if decide (snapshotRef w = Some s) then [] else [(kind w, entityId w, s)]) /\
  snapshotRef (saveDrawing w) = Some s.
Proof.
  intros He Hs. rewrite (saveDrawing_serialized w e s He Hs).
  destruct (decide (snapshotRef w = Some s)) as [Heq|Hne]; simpl.
  - rewrite writes_app. simpl. rewrite app_nil_r. auto.
  - rewrite !writes_app. simpl. rewrite !app_nil_r. auto.
Qed.

(** C1 (amended): a save attempt whose serialization succeeds dispatches a
    write exactly when the serialized string differs from the remembered
    last-persisted value, and remembers it; of two consecutive attempts whose
    states serialize to the same string the second never writes, so together
    they produce one write when that string differs from the value
    remembered before the first attempt, and none otherwise. *)
Theorem C1_write_iff_snapshot_differs (w : World) (e e' : EditorState) (s : string) :
  editor w = Some e -> stringify e = Some s -> stringify e' = Some s ->
  let w1 := saveDrawing w in
  let w2 := saveDrawing (set_editor (Some e') w1) in
  writes (trace w1)
  = writes (trace w) ++
    (if decide (snapshotRef w = Some s) then [] else [(kind w, entityId w, s)]) /\
  snapshotRef w1 = Some s /\
  writes (trace w2) = writes (trace w1).
Proof.
  intros He Hs Hs' w1 w2.
  destruct (saveDrawing_writes w e s He Hs) as [Hw1 Hr1].
  repeat split; [exact Hw1 | exact Hr1 |].
  destruct (saveDrawing_writes (set_editor (Some e') w1) e' s eq_refl Hs') as [Hw2 _].
  unfold w2. rewrite Hw2. simpl.
  destruct (decide (snapshotRef w1 = Some s)) as [_|Hne]; [apply app_nil_r | contradiction].
Qed.

(** C7: when serialization throws, the attempt logs the failure and stops:
    the world is the old one with two trace entries more, so no write is
    dispatched, the remembered last-persisted value stays, and the timers,
    the listeners and the store are untouched. *)
Theorem C7_serialization_failure_aborts (w : World) (e : EditorState) :
  editor w = Some e -> stringify e = None ->
  saveDrawing w
  = emit (ConsoleError "Failed to save drawing:") (emit (Serialize e None) w) /\
  writes (trace (saveDrawing w)) = writes (trace w) /\
  snapshotRef (saveDrawing w) = snapshotRef w /\
  listening (saveDrawing w) = listening w /\
  timers (saveDrawing w) = timers w.
Proof.
  intros He Hs. unfold saveDrawing. rewrite He, Hs. simpl.
  repeat split. rewrite !writes_app. simpl. rewrite !app_nil_r. reflexivity.
Qed.

End SavePath.

(** ** Invariants along any run *)

Section Quiet.
Context `{EditorApi}.

Lemma quiet_step_refl (w : World) : quiet_step w w.
Proof. repeat split. exists []. by rewrite app_nil_r. Qed.

Lemma quiet_step_trans (w1 w2 w3 : World) :
  quiet_step w1 w2 -> quiet_step w2 w3 -> quiet_step w1 w3.
Proof.
  intros (A1 & A2 & A3 & A4 & ea & Ha & Fa) (B1 & B2 & B3 & B4 & eb & Hb & Fb).
  repeat split; try congruence.
  exists (ea ++ eb). rewrite Hb, Ha, app_assoc. split; [reflexivity|].
  by apply Forall_app.
Qed.

Lemma quiet_step_emit (x : Effect) (w : World) : neutral x -> quiet_step w (emit x w).
Proof. intros Hx. repeat split. exists [x]. split; [reflexivity | by constructor]. Qed.

(** A step that only moves fields the relation does not read. *)
Lemma quiet_step_fields (w w' : World) :
  kind w' = kind w -> entityId w' = entityId w ->
  initialLoadRef w' = initialLoadRef w -> snapshotRef w' = snapshotRef w ->
  trace w' = trace w -> quiet_step w w'.
Proof.
  intros H1 H2 H3 H4 H5. repeat split; try assumption.
  exists []. by rewrite app_nil_r.
Qed.

Lemma quiet_step_clearTimeout (h : positive) (w : World) : quiet_step w (clearTimeout h w).
Proof.
  unfold clearTimeout.
  eapply quiet_step_trans; [ | apply quiet_step_emit; exact I ].
  by apply quiet_step_fields.
Qed.

Lemma quiet_step_clearInterval (h : positive) (w : World) : quiet_step w (clearInterval h w).
Proof.
  unfold clearInterval.
  eapply quiet_step_trans; [ | apply quiet_step_emit; exact I ].
  by apply quiet_step_fields.
Qed.

Lemma quiet_step_setTimeout (ms : nat) (w : World) : quiet_step w (setTimeout ms w).2.
Proof.
  unfold setTimeout. simpl.
  eapply quiet_step_trans; [ | apply quiet_step_emit; exact I ].
  by apply quiet_step_fields.
Qed.

Lemma quiet_step_setInterval (ms : nat) (w : World) : quiet_step w (setInterval ms w).2.
Proof.
  unfold setInterval. simpl.
  eapply quiet_step_trans; [ | apply quiet_step_emit; exact I ].
  by apply quiet_step_fields.
Qed.

Lemma quiet_step_handleChange (w : World) : quiet_step w (handleChange w).
Proof.
  unfold handleChange.
  set (w1 := match debounceTimerRef w with Some h => clearTimeout h w | None => w end).
  assert (H1 : quiet_step w w1).
  { unfold w1. destruct (debounceTimerRef w);
      [apply quiet_step_clearTimeout | apply quiet_step_refl]. }
  pose proof (quiet_step_setTimeout 300 w1) as H2.
  destruct (setTimeout 300 w1) as [h w2]. simpl in H2.
  eapply quiet_step_trans; [exact H1|].
  eapply quiet_step_trans; [exact H2|]. by apply quiet_step_fields.
Qed.

End Quiet.

(** A property kept by the quiet steps, by a save and by a load is kept by
    everything a session does. *)
Section Along.
Context `{EditorApi}.
Variable P : World -> Prop.
Hypothesis P_quiet : forall w w', quiet_step w w' -> P w -> P w'.
Hypothesis P_save : forall w, P w -> P (saveDrawing w).
Hypothesis P_load : forall dd w, P w -> P (loadEffect dd w).

Lemma along_task (c : Cause) (w : World) : P w -> P (emit (Task c (clock w)) w).
Proof. apply P_quiet, quiet_step_emit. exact I. Qed.

Lemma along_debounceCallback (w : World) : P w -> P (debounceCallback w).
Proof.
  intros Hw. unfold debounceCallback.
  apply (P_quiet (saveDrawing w)); [by apply quiet_step_fields | by apply P_save].
Qed.

Lemma along_handleBlur (w : World) : P w -> P (handleBlur w).
Proof.
  intros Hw. unfold handleBlur. apply P_save.
  destruct (debounceTimerRef w) as [h|]; [|exact Hw].
  apply (P_quiet w); [|exact Hw].
  eapply quiet_step_trans; [apply (quiet_step_clearTimeout h)|].
  by apply quiet_step_fields.
Qed.

Lemma along_unmount (w : World) : P w -> P (unmount w).
Proof.
  intros Hw. unfold unmount, intervalCleanup, listenerCleanup.
  set (w1 := match editor w with
             | Some _ => _
             | None => w
             end).
  assert (H1 : P w1).
  { unfold w1. destruct (editor w) as [e|]; [|exact Hw].
    set (w2 := saveDrawing (set_listening false w)).
    assert (H2 : P w2).
    { apply P_save. apply (P_quiet w); [by apply quiet_step_fields | exact Hw]. }
    destruct (debounceTimerRef w2) as [h|]; [|exact H2].
    apply (P_quiet w2); [apply quiet_step_clearTimeout | exact H2]. }
  destruct (intervalId w1) as [h|]; [|exact H1].
  apply (P_quiet w1); [apply quiet_step_clearInterval | exact H1].
Qed.

Lemma along_fire (t : Timer) (w : World) : P w -> P (fire t w).
Proof.
  intros Hw. unfold fire.
  destruct (decide (handle t ∈ handle <$> timers w)); [|exact Hw].
  destruct (every t) as [p|].
  - apply P_save. apply (P_quiet w); [|exact Hw].
    eapply quiet_step_trans; [ | apply quiet_step_emit; exact I ].
    by apply quiet_step_fields.
  - apply along_debounceCallback. apply (P_quiet w); [|exact Hw].
    eapply quiet_step_trans; [ | apply quiet_step_emit; exact I ].
    by apply quiet_step_fields.
Qed.

Lemma along_fire_all (ts : list Timer) (w : World) :
  P w -> P (foldl (fun w t => fire t w) w ts).
Proof.
  revert w. induction ts as [|t ts IH]; intros w Hw; simpl; [exact Hw|].
  apply IH. by apply along_fire.
Qed.

Lemma along_tick (w : World) : P w -> P (tick w).
Proof.
  intros Hw. unfold tick. apply along_fire_all.
  apply (P_quiet w); [by apply quiet_step_fields | exact Hw].
Qed.

Lemma along_elapse (n : nat) (w : World) : P w -> P (elapse n w).
Proof.
  revert w. induction n as [|n IH]; intros w Hw; simpl; [exact Hw|].
  apply IH. by apply along_tick.
Qed.

Lemma along_dispatch (ev : Event) (w : World) : P w -> P (dispatch ev w).
Proof.
  intros Hw. destruct ev as [e| |dd|]; simpl.
  - destruct (editor w); [|exact Hw].
    destruct (listening w); [|by apply (P_quiet w); [apply quiet_step_fields|]].
    apply (P_quiet w); [|exact Hw].
    eapply quiet_step_trans; [|apply quiet_step_handleChange].
    eapply quiet_step_trans; [ | apply quiet_step_emit; exact I ].
    by apply quiet_step_fields.
  - destruct (listening w); [|exact Hw].
    by apply along_handleBlur, along_task.
  - by apply P_load, along_task.
  - by apply along_unmount, along_task.
Qed.

Lemma along_play (script : list (nat * Event)) (w : World) : P w -> P (play script w).
Proof.
  revert w. unfold play.
  induction script as [|[d ev] script IH]; intros w Hw; simpl; [exact Hw|].
  apply IH. apply along_dispatch. by apply along_elapse.
Qed.

Lemma along_mount (k : EntityKind) (id : nat) (dd : option string)
    (ed : option EditorState) :
  P (fresh_world k id ed) -> P (mount k id dd ed).
Proof.
  intros H0. unfold mount.
  set (w1 := loadEffect dd (fresh_world k id ed)).
  assert (H1 : P w1) by (by apply P_load).
  set (w2 := listenerEffect w1).
  assert (H2 : P w2).
  { unfold w2, listenerEffect. destruct (editor w1); [|exact H1].
    apply (P_quiet w1); [by apply quiet_step_fields | exact H1]. }
  unfold intervalEffect. destruct (editor w2); [|exact H2].
  pose proof (quiet_step_setInterval 3000 w2) as H3.
  destruct (setInterval 3000 w2) as [h w3]. simpl in H3.
  apply (P_quiet w2); [|exact H2].
  eapply quiet_step_trans; [exact H3|]. by apply quiet_step_fields.
Qed.

End Along.

Section Refs.
Context `{EditorApi}.

Lemma hydrations_app (tr tr' : list Effect) :
  hydrations (tr ++ tr') = hydrations tr ++ hydrations tr'.
Proof. apply omap_app. Qed.

Lemma neutral_hydrations (effs : list Effect) : Forall neutral effs -> hydrations effs = [].
Proof.
  induction 1 as [|x effs Hx _ IH]; [reflexivity|].
  change (x :: effs) with ([x] ++ effs). rewrite hydrations_app, IH.
  destruct x as [| | | e [s|] | | | j [|] | | | |]; simpl in *; try contradiction; reflexivity.
Qed.

Lemma neutral_first_success (effs : list Effect) :
  Forall neutral effs -> first_success effs = None.
Proof.
  induction 1 as [|x effs Hx _ IH]; [reflexivity|].
  destruct x as [| | | e [s|] | | | j [|] | | | |]; simpl in *; try contradiction; exact IH.
Qed.

Lemma first_success_app (tr tr' : list Effect) :
  first_success (tr ++ tr')
  = match first_success tr with
    | Some (s, rest) => Some (s, rest ++ tr')
    | None => first_success tr'
    end.
Proof.
  induction tr as [|x tr IH]; [reflexivity|].
  destruct x as [| | | e [s|] | | | j b | | | |]; simpl; try exact IH; reflexivity.
Qed.

(** The first successful serialization, found by splitting the trace. *)
Lemma first_success_split (tr1 tr2 : list Effect) (e : EditorState) (s : string) :
  serialized tr1 = [] ->
  first_success (tr1 ++ Serialize e (Some s) :: tr2) = Some (s, tr2).
Proof.
  induction tr1 as [|x tr1 IH]; intros Hnone; [reflexivity|].
  destruct x as [| | | e' [s'|] | | | j b | | | |]; simpl in *;
    try (apply IH; exact Hnone); discriminate.
Qed.

Lemma load_inv_quiet (w w' : World) : quiet_step w w' -> load_inv w -> load_inv w'.
Proof.
  intros (_ & _ & Hf & _ & effs & Htr & Hn) (I1 & I2).
  unfold load_inv. rewrite Hf, Htr, hydrations_app.
  rewrite (neutral_hydrations effs Hn), app_nil_r. auto.
Qed.

Lemma load_inv_saveDrawing (w : World) : load_inv w -> load_inv (saveDrawing w).
Proof.
  intros Hw. pose proof Hw as (I1 & I2). unfold saveDrawing.
  destruct (editor w) as [e|]; [|exact Hw].
  destruct (stringify e) as [s|]; simpl;
    [destruct (decide (snapshotRef w = Some s))|];
    unfold load_inv, hydrations in *; simpl; rewrite !omap_app; simpl;
    rewrite ?app_nil_r; auto.
Qed.

Lemma load_inv_loadEffect (dd : option string) (w : World) :
  load_inv w -> load_inv (loadEffect dd w).
Proof.
  intros Hw. pose proof Hw as (I1 & I2). unfold loadEffect.
  destruct (editor w) as [e|]; [|exact Hw].
  destruct dd as [s|]; [|exact Hw].
  destruct (decide (s = "")); [exact Hw|].
  destruct (initialLoadRef w) eqn:Hflag; [exact Hw|].
  specialize (I1 eq_refl).
  destruct (JSON_parse s) as [j|]; [destruct (loadSnapshot j e) as [e'|e']|];
    unfold load_inv, hydrations in *; simpl; rewrite !omap_app; simpl;
    rewrite ?app_nil_r, ?I1; simpl; repeat split; auto; try lia; discriminate.
Qed.

Lemma save_inv_quiet (k : EntityKind) (id : nat) (w w' : World) :
  quiet_step w w' -> save_inv k id w -> save_inv k id w'.
Proof.
  intros (Hk & Hi & _ & Hr & effs & Htr & Hn) (I1 & I2 & I3).
  unfold save_inv. rewrite Hk, Hi, Hr, Htr, first_success_app.
  split; [exact I1|]. split; [exact I2|].
  destruct (first_success (trace w)) as [[s rest]|].
  - destruct I3 as [rest' ->]. eexists. reflexivity.
  - by rewrite (neutral_first_success effs Hn).
Qed.

Lemma save_inv_saveDrawing (k : EntityKind) (id : nat) (w : World) :
  save_inv k id w -> save_inv k id (saveDrawing w).
Proof.
  intros (I1 & I2 & I3).
  destruct (saveDrawing_props w) as (P1 & P2 & P3).
  unfold save_inv. rewrite P1, P2, P3, saveDrawing_trace, first_success_app.
  split; [exact I1|]. split; [exact I2|].
  destruct (first_success (trace w)) as [[s0 rest]|].
  - destruct I3 as [rest' ->]. eexists. reflexivity.
  - unfold save_effects. destruct (editor w) as [e|]; [|exact I3].
    destruct (stringify e) as [s|]; simpl; [|exact I3].
    rewrite I3, I1, I2. rewrite decide_False by discriminate.
    eexists. reflexivity.
Qed.

Lemma save_inv_loadEffect (k : EntityKind) (id : nat) (dd : option string) (w : World) :
  save_inv k id w -> save_inv k id (loadEffect dd w).
Proof.
  intros Hw. unfold loadEffect.
  destruct (editor w) as [e|]; [|exact Hw].
  destruct dd as [s|]; [|exact Hw].
  destruct (decide (s = "")); [exact Hw|].
  destruct (initialLoadRef w); [exact Hw|].
  destruct Hw as (I1 & I2 & I3).
  destruct (JSON_parse s) as [j|]; [destruct (loadSnapshot j e) as [e'|e']|];
    unfold save_inv; simpl; rewrite <- ?app_assoc; simpl;
    rewrite first_success_app; simpl;
    (split; [exact I1|]); (split; [exact I2|]);
    (destruct (first_success (trace w)) as [[s0 rest]|];
     [destruct I3 as [rest' ->]; eexists; reflexivity | exact I3]).
Qed.

(** Both invariants hold along any run of a session from its mount. *)
Lemma load_inv_run (k : EntityKind) (id : nat) (dd : option string)
    (ed : option EditorState) (script : list (nat * Event)) :
  load_inv (play script (mount k id dd ed)).
Proof.
  apply (along_play load_inv load_inv_quiet load_inv_saveDrawing load_inv_loadEffect).
  apply (along_mount load_inv load_inv_quiet load_inv_loadEffect).
  split; simpl; auto.
Qed.

Lemma save_inv_run (k : EntityKind) (id : nat) (dd : option string)
    (ed : option EditorState) (script : list (nat * Event)) :
  save_inv k id (play script (mount k id dd ed)).
Proof.
  apply (along_play (save_inv k id) (save_inv_quiet k id) (save_inv_saveDrawing k id)
           (save_inv_loadEffect k id)).
  apply (along_mount (save_inv k id) (save_inv_quiet k id) (save_inv_loadEffect k id)).
  repeat split.
Qed.

End Refs.

(** ** The scheduler *)

Section Scheduler.
Context `{EditorApi}.

Lemma attempts_in_app (cur : option (Cause * nat)) (tr : list Effect) (c : Cause)
    (t : nat) (effs : list Effect) :
  attempts_in cur (tr ++ Task c t :: effs)
  = attempts_in cur tr ++ attempts_in (Some (c, t)) effs.
Proof.
  revert cur. induction tr as [|x tr IH]; intros cur; simpl; [reflexivity|].
  destruct x; simpl; try apply IH.
  destruct cur as [[c0 t0]|]; simpl; [f_equal|]; apply IH.
Qed.

Lemma attempts_save_effects (c : Cause) (t : nat) (w : World) :
  attempts_in (Some (c, t)) (save_effects w)
  = match editor w with Some e => [(c, t, e)] | None => [] end.
Proof.
  unfold save_effects. destruct (editor w) as [e|]; [|reflexivity].
  destruct (stringify e) as [s|]; simpl; [|reflexivity].
  destruct (decide (snapshotRef w = Some s)); reflexivity.
Qed.

(** The debounced saves after a task that only saved. *)
Lemma debounce_saves_task (tr : list Effect) (c : Cause) (t : nat) (w : World) :
  debounce_saves (tr ++ Task c t :: save_effects w)
  = debounce_saves tr ++
    match editor w with
    | Some e => if is_timeout c then [(t, e)] else []
    | None => []
    end.
Proof.
  unfold debounce_saves. rewrite attempts_in_app, omap_app, attempts_save_effects.
  destruct (editor w); simpl; [|reflexivity]. by destruct (is_timeout c).
Qed.

Lemma debounce_saves_quiet (tr : list Effect) (c : Cause) (t : nat) (effs : list Effect) :
  attempts_in (Some (c, t)) effs = [] ->
  debounce_saves (tr ++ Task c t :: effs) = debounce_saves tr.
Proof.
  intros Hq. unfold debounce_saves. rewrite attempts_in_app, Hq. by rewrite app_nil_r.
Qed.

(** *** The timer table *)

Lemma timer_kind_cases (t : Timer) (ts : list Timer) :
  t ∈ ts -> t ∈ timeouts ts \/ t ∈ intervals ts.
Proof.
  intros Hin. unfold timeouts, intervals.
  destruct (decide (every t = None)); [left | right];
    apply list_elem_of_filter; auto.
Qed.

Lemma timeouts_app (ts ts' : list Timer) : timeouts (ts ++ ts') = timeouts ts ++ timeouts ts'.
Proof. apply filter_app. Qed.

Lemma intervals_app (ts ts' : list Timer) :
  intervals (ts ++ ts') = intervals ts ++ intervals ts'.
Proof. apply filter_app. Qed.

Lemma timeouts_drop (h : positive) (ts : list Timer) :
  timeouts (drop_timer h ts) = filter (fun t => handle t ≠ h) (timeouts ts).
Proof.
  unfold timeouts, drop_timer. rewrite !list_filter_filter.
  apply list_filter_iff. intros t. tauto.
Qed.

Lemma timeouts_drop_other (h : positive) (ts : list Timer) :
  Forall (fun t => handle t ≠ h) (timeouts ts) ->
  timeouts (drop_timer h ts) = timeouts ts.
Proof.
  intros Hall. rewrite timeouts_drop.
  induction Hall as [|t l Ht Hl IH]; [reflexivity|].
  rewrite filter_cons_True by exact Ht. by rewrite IH.
Qed.

Lemma intervals_drop (h : positive) (ts : list Timer) :
  intervals (drop_timer h ts) ⊆ intervals ts.
Proof.
  intros t Ht. unfold intervals, drop_timer in *.
  rewrite !list_elem_of_filter in Ht. rewrite list_elem_of_filter. tauto.
Qed.

Lemma intervals_drop_other (h : positive) (ts : list Timer) :
  Forall (fun t => handle t ≠ h) (intervals ts) ->
  intervals (drop_timer h ts) = intervals ts.
Proof.
  intros Hall.
  assert (Heq : intervals (drop_timer h ts) = filter (fun t => handle t ≠ h) (intervals ts)).
  { unfold intervals, drop_timer. rewrite !list_filter_filter.
    apply list_filter_iff. intros t. tauto. }
  rewrite Heq. clear Heq.
  induction Hall as [|t l Ht Hl IH]; [reflexivity|].
  rewrite filter_cons_True by exact Ht. by rewrite IH.
Qed.

Lemma drop_timer_subseteq (h : positive) (ts : list Timer) : drop_timer h ts ⊆ ts.
Proof. apply list_subseteq_filter. Qed.

Lemma fmap_subseteq (l1 l2 : list Timer) :
  l1 ⊆ l2 -> (handle <$> l1) ⊆ (handle <$> l2).
Proof.
  intros Hsub h Hh. apply list_elem_of_fmap in Hh as (t & -> & Ht).
  apply list_elem_of_fmap_2. by apply Hsub.
Qed.

(** A filter that keeps exactly one element splits the list around it. *)
Lemma filter_singleton_split {A} (P : A -> Prop) `{!forall x, Decision (P x)}
    (l : list A) (x : A) :
  filter P l = [x] ->
  exists l1 l2, l = l1 ++ x :: l2 /\ Forall (fun y => ~ P y) l1 /\ Forall (fun y => ~ P y) l2.
Proof.
  induction l as [|a l IH]; intros Hf; [discriminate|].
  rewrite filter_cons in Hf. destruct (decide (P a)) as [Ha|Ha].
  - injection Hf as -> Hnil. exists [], l. split; [reflexivity|]. split; [constructor|].
    apply Forall_forall. intros y Hy HPy.
    by apply (filter_nil_not_elem_of P l y Hnil HPy).
  - destruct (IH Hf) as (l1 & l2 & -> & H1 & H2).
    exists (a :: l1), l2. split; [reflexivity|]. split; [by constructor | exact H2].
Qed.

Lemma undisturbed_refl (w : World) : undisturbed w w.
Proof. unfold undisturbed. repeat split; auto. Qed.

Lemma undisturbed_trans (w1 w2 w3 : World) :
  undisturbed w1 w2 -> undisturbed w2 w3 -> undisturbed w1 w3.
Proof.
  intros (A1 & A2 & A3 & A4 & A5 & A6 & A7 & A8 & A9)
         (B1 & B2 & B3 & B4 & B5 & B6 & B7 & B8 & B9).
  repeat split; try congruence.
  intros h Hh. apply A8, B8, Hh.
Qed.

(** *** One timer fires *)

(** An interval timer that fires leaves the store and the debounce timer
    alone, provided no pending timeout shares its handle. *)
Lemma fire_interval (t : Timer) (p : nat) (w : World) :
  every t = Some p ->
  Forall (fun t' => handle t' ≠ handle t) (timeouts (timers w)) ->
  undisturbed w (fire t w).
Proof.
  intros Hp Hother. unfold fire.
  destruct (decide (handle t ∈ handle <$> timers w)) as [Hpend|]; [|apply undisturbed_refl].
  rewrite Hp.
  set (w1 := emit _ _).
  destruct (saveDrawing_frame w1) as (F1 & F2 & F3 & F4 & F5 & F6 & F7).
  unfold undisturbed. rewrite F1, F2, F3, F4, F5, F6, F7, saveDrawing_trace.
  subst w1. simpl. repeat split.
  - rewrite timeouts_app, timeouts_drop_other by exact Hother.
    unfold timeouts at 2. rewrite filter_cons_False by (simpl; congruence).
    apply app_nil_r.
  - rewrite intervals_app, fmap_app. intros h Hh.
    apply elem_of_app in Hh as [Hh|Hh].
    + revert h Hh. apply fmap_subseteq, intervals_drop.
    + unfold intervals in Hh. rewrite filter_cons_True in Hh by (simpl; congruence).
      simpl in Hh. apply list_elem_of_singleton in Hh as ->.
      apply list_elem_of_fmap in Hpend as (t0 & Heq & Ht0).
      destruct (timer_kind_cases t0 _ Ht0) as [Hto|Hiv].
      * rewrite Forall_forall in Hother. by destruct (Hother t0 Hto).
      * rewrite Heq. by apply list_elem_of_fmap_2.
  - rewrite <- app_assoc. simpl.
    rewrite (debounce_saves_task (trace w) (ByInterval (handle t)) (clock w)).
    simpl. destruct (editor w); apply app_nil_r.
Qed.

Lemma fire_intervals (l : list Timer) (w : World) :
  Forall (fun t => every t ≠ None) l ->
  Forall (fun t => Forall (fun t' => handle t' ≠ handle t) (timeouts (timers w))) l ->
  undisturbed w (foldl (fun w t => fire t w) w l).
Proof.
  revert w. induction l as [|t l IH]; intros w Hiv Hother; simpl; [apply undisturbed_refl|].
  apply Forall_cons in Hiv as [Ht Hiv]. apply Forall_cons in Hother as [Hot Hother].
  destruct (every t) as [p|] eqn:Hp; [|contradiction].
  pose proof (fire_interval t p w Hp Hot) as Hstep.
  eapply undisturbed_trans; [exact Hstep|].
  apply IH; [exact Hiv|].
  destruct Hstep as (_ & _ & _ & _ & _ & _ & -> & _). exact Hother.
Qed.

(** The pending timeout fires: one debounced save of the store as it is,
    the ref back to [null], no timeout left. *)
Lemma fire_timeout (t : Timer) (e : EditorState) (w : World) :
  timeouts (timers w) = [t] ->
  Forall (fun iv => handle iv ≠ handle t) (intervals (timers w)) ->
  editor w = Some e ->
  let w' := fire t w in
  editor w' = Some e /\ debounceTimerRef w' = None /\
  intervalId w' = intervalId w /\ listening w' = listening w /\
  clock w' = clock w /\ next_handle w' = next_handle w /\
  timeouts (timers w') = [] /\
  intervals (timers w') = intervals (timers w) /\
  debounce_saves (trace w') = debounce_saves (trace w) ++ [(clock w, e)].
Proof.
  intros Hto Hiv He w'. subst w'. unfold fire.
  assert (Ht : t ∈ timeouts (timers w)) by (rewrite Hto; apply list_elem_of_singleton; reflexivity).
  apply list_elem_of_filter in Ht as [Hkind Hin].
  rewrite decide_True by (by apply list_elem_of_fmap_2).
  rewrite Hkind. unfold debounceCallback.
  set (w1 := emit _ _).
  destruct (saveDrawing_frame w1) as (F1 & F2 & F3 & F4 & F5 & F6 & F7).
  simpl. rewrite F1, F3, F4, F5, F6, F7, saveDrawing_trace. subst w1. simpl.
  repeat split; try assumption.
  - rewrite timeouts_drop, Hto. rewrite filter_cons_False by (intros Hne; by apply Hne).
    reflexivity.
  - by rewrite intervals_drop_other.
  - rewrite <- app_assoc. simpl.
    rewrite (debounce_saves_task (trace w) (ByTimeout (handle t)) (clock w)).
    simpl. by rewrite He.
Qed.

(** *** One millisecond *)

(** How [steady] carries over to a later world. *)
Lemma steady_intro (w w' : World) :
  steady w ->
  listening w' = true ->
  next_handle w' = next_handle w ->
  intervalId w' = intervalId w ->
  (handle <$> intervals (timers w')) ⊆ (handle <$> intervals (timers w)) ->
  (timeouts (timers w') = [] \/
   (timeouts (timers w') = timeouts (timers w) /\
    debounceTimerRef w' = debounceTimerRef w /\
    Forall (fun t => (clock w' < due t)%nat) (timeouts (timers w)))) ->
  steady w'.
Proof.
  intros (S1 & S2 & S3 & S4) Hl Hn Hi Hsub Hto.
  rewrite Forall_forall in S2, S3.
  assert (Hiv : forall t, t ∈ intervals (timers w') ->
                 exists t0, t0 ∈ intervals (timers w) /\ handle t0 = handle t).
  { intros t Ht. apply (list_elem_of_fmap_2 handle) in Ht. apply Hsub in Ht.
    apply list_elem_of_fmap in Ht as (t0 & Heq & Ht0). eauto. }
  assert (Hfresh : forall t, t ∈ timeouts (timers w') -> (handle t < next_handle w)%positive).
  { intros t Ht. destruct Hto as [Hnil|(Heq & _)].
    - rewrite Hnil in Ht. by apply elem_of_nil in Ht.
    - rewrite Heq in Ht. apply list_elem_of_filter in Ht as [_ Ht]. by apply S2. }
  unfold steady. rewrite Hn, Hi. split; [exact Hl|]. split; [|split].
  - apply Forall_forall. intros t Ht.
    destruct (timer_kind_cases t _ Ht) as [Hk|Hk]; [by apply Hfresh|].
    destruct (Hiv t Hk) as (t0 & Ht0 & <-).
    apply S2. apply list_elem_of_filter in Ht0 as [_ Ht0]. exact Ht0.
  - apply Forall_forall. intros t Ht.
    destruct (Hiv t Ht) as (t0 & Ht0 & <-). by apply S3.
  - destruct Hto as [->|(-> & -> & Hdue)]; [exact I|].
    destruct (timeouts (timers w)) as [|th [|]]; [exact I| |exact S4].
    destruct S4 as (R & _ & Hne). split; [exact R|]. split.
    + exact (Forall_inv Hdue).
    + rewrite Forall_forall in Hne. apply Forall_forall. intros iv Hiv'.
      destruct (Hiv iv Hiv') as (t0 & Ht0 & <-). by apply Hne.
Qed.

(** The timers due at a tick when no timeout is: all intervals, none
    sharing a handle with a pending timeout. *)
Lemma due_are_intervals (w : World) (c : nat) :
  steady w ->
  Forall (fun t => (c < due t)%nat) (timeouts (timers w)) ->
  let l := filter (fun t => (due t <= c)%nat) (timers w) in
  Forall (fun t => every t ≠ None) l /\
  Forall (fun t => Forall (fun t' => handle t' ≠ handle t) (timeouts (timers w))) l.
Proof.
  intros (S1 & S2 & S3 & S4) Hdue l.
  rewrite Forall_forall in Hdue.
  assert (Hk : forall t, t ∈ l -> t ∈ intervals (timers w)).
  { intros t Ht. apply list_elem_of_filter in Ht as [Hle Hin].
    destruct (timer_kind_cases t _ Hin) as [Hto|Hiv]; [|exact Hiv].
    specialize (Hdue t Hto). lia. }
  split; apply Forall_forall; intros t Ht; specialize (Hk t Ht).
  - by apply list_elem_of_filter in Hk as [Hk _].
  - destruct (timeouts (timers w)) as [|th [|]]; [constructor| |contradiction].
    destruct S4 as (_ & _ & Hne). rewrite Forall_forall in Hne.
    apply Forall_singleton. intros Heq. by apply (Hne t Hk).
Qed.

Lemma tick_quiet (w : World) :
  steady w ->
  Forall (fun t => (S (clock w) < due t)%nat) (timeouts (timers w)) ->
  undisturbed (set_clock (S (clock w)) w) (tick w).
Proof.
  intros Hs Hdue. unfold tick.
  destruct (due_are_intervals w (S (clock w)) Hs Hdue) as [H1 H2].
  apply fire_intervals; assumption.
Qed.

Lemma tick_quiet_steady (w : World) :
  steady w ->
  Forall (fun t => (S (clock w) < due t)%nat) (timeouts (timers w)) ->
  steady (tick w).
Proof.
  intros Hs Hdue.
  destruct (tick_quiet w Hs Hdue) as (U1 & U2 & U3 & U4 & U5 & U6 & U7 & U8 & U9).
  simpl in *. apply (steady_intro w); try assumption.
  - rewrite U4. apply Hs.
  - right. rewrite U5. auto.
Qed.

(** The tick at which the pending timeout is due. *)
Lemma tick_fire (w : World) (e : EditorState) :
  armed w e (S (clock w)) ->
  steady (tick w) /\ editor (tick w) = Some e /\ timeouts (timers (tick w)) = [] /\
  clock (tick w) = S (clock w) /\
  debounce_saves (trace (tick w)) = debounce_saves (trace w) ++ [(S (clock w), e)].
Proof.
  intros (Hs & He & h & Hto).
  pose proof Hs as (S1 & S2 & S3 & S4). rewrite Hto in S4. destruct S4 as (R & _ & Hne).
  set (th := mkTimer h (S (clock w)) None) in *.
  unfold tick. set (w1 := set_clock (S (clock w)) w).
  set (l := filter (fun t => (due t <= clock w1)%nat) (timers w1)).
  assert (Hl : filter (fun t => every t = None) l = [th]).
  { unfold l. rewrite list_filter_filter.
    rewrite (list_filter_iff _ (fun t => (due t <= clock w1)%nat /\ every t = None))
      by (intros t; tauto).
    rewrite <- list_filter_filter. simpl. fold (timeouts (timers w)). rewrite Hto.
    rewrite filter_cons_True by (simpl; lia). reflexivity. }
  destruct (filter_singleton_split _ l th Hl) as (l1 & l2 & Hsplit & Hl1 & Hl2).
  assert (Hsub : forall t, t ∈ l -> every t ≠ None -> t ∈ intervals (timers w)).
  { intros t Ht Hk. apply list_elem_of_filter in Ht as [_ Ht].
    apply list_elem_of_filter. auto. }
  rewrite Hsplit, foldl_app. simpl.
  set (wa := foldl (fun w t => fire t w) w1 l1).
  assert (Ua : undisturbed w1 wa).
  { apply fire_intervals; [exact Hl1|].
    apply Forall_forall. intros t Ht. simpl. rewrite Hto. apply Forall_singleton.
    rewrite Forall_forall in Hl1, Hne. intros Heq. apply (Hne t); [|by symmetry].
    apply Hsub; [|by apply Hl1]. rewrite Hsplit. apply elem_of_app. by left. }
  destruct Ua as (A1 & A2 & A3 & A4 & A5 & A6 & A7 & A8 & A9). simpl in *.
  assert (Hnea : Forall (fun iv => handle iv ≠ handle th) (intervals (timers wa))).
  { apply Forall_forall. intros iv Hiv.
    apply (list_elem_of_fmap_2 handle) in Hiv. apply A8 in Hiv.
    apply list_elem_of_fmap in Hiv as (t0 & -> & Ht0).
    rewrite Forall_forall in Hne. by apply Hne. }
  assert (Htoa : timeouts (timers wa) = [th]) by (by rewrite A7).
  assert (Hea : editor wa = Some e) by (by rewrite A1).
  destruct (fire_timeout th e wa Htoa Hnea Hea)
    as (B1 & B2 & B3 & B4 & B5 & B6 & B7 & B8 & B9).
  set (wb := fire th wa) in *.
  assert (Uc : undisturbed wb (foldl (fun w t => fire t w) wb l2)).
  { apply fire_intervals; [exact Hl2|].
    apply Forall_forall. intros t _. rewrite B7. constructor. }
  set (wc := foldl (fun w t => fire t w) wb l2) in *.
  destruct Uc as (C1 & C2 & C3 & C4 & C5 & C6 & C7 & C8 & C9).
  split; [|repeat split].
  - apply (steady_intro w); try congruence.
    + intros x Hx. apply A8. rewrite <- B8. by apply C8.
    + left. congruence.
  - congruence.
  - congruence.
  - congruence.
  - rewrite C9, B9, A9, A5. reflexivity.
Qed.

(** *** Time passing *)



(** With no timeout pending, none appears and nothing debounced happens. *)
Lemma elapse_idle (n : nat) (w : World) :
  steady w -> timeouts (timers w) = [] ->
  steady (elapse n w) /\ timeouts (timers (elapse n w)) = [] /\
  editor (elapse n w) = editor w /\ clock (elapse n w) = (clock w + n)%nat /\
  debounce_saves (trace (elapse n w)) = debounce_saves (trace w).
Proof.
  revert w. induction n as [|n IH]; intros w Hs Hto; simpl.
  - split; [exact Hs|]. split; [exact Hto|]. split; [reflexivity|].
    split; [lia | reflexivity].
  - assert (Hdue : Forall (fun t => (S (clock w) < due t)%nat) (timeouts (timers w))).
    { rewrite Hto. constructor. }
    destruct (tick_quiet w Hs Hdue) as (U1 & U2 & U3 & U4 & U5 & U6 & U7 & U8 & U9).
    simpl in *.
    destruct (IH (tick w)) as (I1 & I2 & I3 & I4 & I5);
      [by apply tick_quiet_steady | congruence |].
    split; [exact I1|]. split; [exact I2|]. split; [congruence|].
    split; [lia | congruence].
Qed.


(** *** An edit *)

(** A 'change' in an open session: whatever timeout was pending is gone,
    and the one pending now is due 300 ms from now. *)
Lemma change_arms (w : World) (e0 e : EditorState) :
  steady w -> editor w = Some e0 ->
  let w' := dispatch (Change e) w in
  armed w' e (clock w + 300) /\ clock w' = clock w /\
  timeouts (timers w') = [mkTimer (next_handle w) (clock w + 300) None] /\
  debounceTimerRef w' = Some (next_handle w) /\
  debounce_saves (trace w') = debounce_saves (trace w).
Proof.
  intros Hs He0 w'. subst w'. pose proof Hs as (S1 & S2 & S3 & S4).
  simpl. rewrite He0. simpl. rewrite S1. unfold handleChange. simpl.
  set (w0 := emit (Task ByChange (clock w)) (set_editor (Some e) w)).
  set (w1 := match debounceTimerRef w with
             | Some h => clearTimeout h w0
             | None => w0
             end).
  assert (H1 : timeouts (timers w1) = [] /\ timers w1 ⊆ timers w /\
               next_handle w1 = next_handle w /\ clock w1 = clock w /\
               intervalId w1 = intervalId w /\ listening w1 = true /\
               editor w1 = Some e /\
               exists effs, trace w1 = trace w ++ Task ByChange (clock w) :: effs /\
                            (effs = [] \/ exists h, effs = [ClearTimeout h])).
  { unfold w1. destruct (debounceTimerRef w) as [h|] eqn:Hr.
    - simpl. split; [|repeat split; auto].
      + rewrite timeouts_drop.
        destruct (timeouts (timers w)) as [|th [|]]; [reflexivity| |contradiction].
        destruct S4 as (R & _). injection R as ->.
        rewrite filter_cons_False by (intros Hne; by apply Hne). reflexivity.
      + apply drop_timer_subseteq.
      + exists [ClearTimeout h]. rewrite <- app_assoc. eauto.
    - simpl. split; [|repeat split; auto].
      + destruct (timeouts (timers w)) as [|th [|]]; [reflexivity| |contradiction].
        destruct S4 as (R & _). discriminate R.
      + exists []. auto. }
  clearbody w1. destruct H1 as (T1 & T2 & T3 & T4 & T5 & T6 & T7 & effs & T8 & T9).
  simpl. rewrite T3, T4.
  assert (Hto : timeouts (timers w1 ++ [mkTimer (next_handle w) (clock w + 300) None])
                = [mkTimer (next_handle w) (clock w + 300) None]).
  { rewrite timeouts_app, T1. reflexivity. }
  assert (Hiv : intervals (timers w1 ++ [mkTimer (next_handle w) (clock w + 300) None])
                ⊆ intervals (timers w)).
  { rewrite intervals_app. unfold intervals at 2.
    rewrite filter_cons_False by (simpl; tauto). simpl. rewrite app_nil_r.
    intros t Ht. apply list_elem_of_filter in Ht as [Hk Ht].
    apply list_elem_of_filter. auto. }
  rewrite Forall_forall in S2, S3.
  split; [|repeat split; auto].
  - split; [|split; [exact T7 | eexists; exact Hto]].
    unfold steady. simpl. rewrite Hto, T5. split; [exact T6|]. split; [|split; [|split; [|split]]].
    + apply Forall_app. split; [|apply Forall_singleton; simpl; lia].
      apply Forall_forall. intros t Ht. specialize (S2 t (T2 t Ht)). lia.
    + apply Forall_forall. intros t Ht. apply S3. by apply Hiv.
    + reflexivity.
    + simpl. lia.
    + apply Forall_forall. intros t Ht. apply Hiv in Ht.
      apply list_elem_of_filter in Ht as [_ Ht]. specialize (S2 t Ht). simpl. lia.
  - rewrite T8, <- app_assoc. simpl. apply debounce_saves_quiet.
    destruct T9 as [->|[h ->]]; reflexivity.
Qed.

(** *** Open sessions *)

(** The load effect touches the store, the load flag and the trace only. *)
Lemma loadEffect_frame (dd : option string) (w : World) :
  let w' := loadEffect dd w in
  (is_Some (editor w) -> is_Some (editor w')) /\
  debounceTimerRef w' = debounceTimerRef w /\ snapshotRef w' = snapshotRef w /\
  intervalId w' = intervalId w /\ listening w' = listening w /\
  clock w' = clock w /\ timers w' = timers w /\ next_handle w' = next_handle w.
Proof.
  unfold loadEffect.
  destruct (editor w) as [e|] eqn:He; [|by rewrite He].
  destruct dd as [s|]; [|by rewrite He].
  destruct (decide (s = "")); [by rewrite He|].
  destruct (initialLoadRef w); [by rewrite He|].
  destruct (JSON_parse s) as [j|]; [destruct (loadSnapshot j e)|]; simpl;
    rewrite ?He; repeat split; eauto.
Qed.

(** A session mounted on an editor is steady. *)
Lemma steady_mount (k : EntityKind) (id : nat) (dd : option string) (e0 : EditorState) :
  steady (mount k id dd (Some e0)).
Proof.
  unfold mount.
  destruct (loadEffect_frame dd (fresh_world k id (Some e0)))
    as (F1 & F2 & F3 & F4 & F5 & F6 & F7 & F8).
  set (w1 := loadEffect dd (fresh_world k id (Some e0))) in *. simpl in *.
  destruct F1 as [e1 He1]; [eauto|].
  unfold listenerEffect. rewrite He1. unfold intervalEffect. simpl. rewrite He1. simpl.
  unfold steady. simpl. rewrite F7, F8. simpl.
  split; [reflexivity|]. split; [|split; [|exact I]]; repeat constructor.
Qed.


Lemma steady_due (w : World) :
  steady w -> Forall (fun t => (clock w < due t)%nat) (timeouts (timers w)).
Proof.
  intros (_ & _ & _ & S4).
  destruct (timeouts (timers w)) as [|t [|]]; [constructor| |contradiction].
  apply Forall_singleton. apply S4.
Qed.

Lemma steady_tick (w : World) :
  steady w -> is_Some (editor w) -> steady (tick w) /\ is_Some (editor (tick w)).
Proof.
  intros Hs [e He].
  destruct (decide (Forall (fun t => (S (clock w) < due t)%nat) (timeouts (timers w))))
    as [Hdue|Hdue].
  - split; [by apply tick_quiet_steady|].
    destruct (tick_quiet w Hs Hdue) as (U1 & _). rewrite U1. simpl. eauto.
  - pose proof (steady_due w Hs) as Hlt.
    pose proof Hs as (_ & _ & _ & S4).
    destruct (timeouts (timers w)) as [|t [|]] eqn:Hto;
      [by destruct Hdue; constructor| |contradiction].
    apply Forall_singleton in Hlt.
    assert (Hd : due t = S (clock w)).
    { destruct (decide (S (clock w) < due t)%nat) as [Hlt'|Hge]; [|lia].
      destruct Hdue. by apply Forall_singleton. }
    assert (Hk : every t = None).
    { assert (Hin : t ∈ timeouts (timers w)) by (rewrite Hto; by apply list_elem_of_singleton).
      by apply list_elem_of_filter in Hin as [Hk _]. }
    destruct t as [h D ev]. simpl in *. subst.
    destruct (tick_fire w e) as (F1 & F2 & _); [|split; [exact F1 | eauto]].
    split; [exact Hs|]. split; [exact He|]. eauto.
Qed.

Lemma steady_elapse (n : nat) (w : World) :
  steady w -> is_Some (editor w) -> steady (elapse n w) /\ is_Some (editor (elapse n w)).
Proof.
  revert w. induction n as [|n IH]; intros w Hs He; simpl; [auto|].
  destruct (steady_tick w Hs He) as [Hs' He']. by apply IH.
Qed.

Lemma steady_blur (w : World) :
  steady w -> is_Some (editor w) ->
  steady (dispatch Blur w) /\ is_Some (editor (dispatch Blur w)).
Proof.
  intros Hs He. pose proof Hs as (S1 & S2 & S3 & S4).
  simpl. rewrite S1. unfold handleBlur. simpl.
  set (w1 := match debounceTimerRef w with
             | Some h => _
             | None => emit (Task ByBlur (clock w)) w
             end).
  assert (H1 : timeouts (timers w1) = [] /\ intervals (timers w1) ⊆ intervals (timers w) /\
               listening w1 = true /\ next_handle w1 = next_handle w /\
               intervalId w1 = intervalId w /\ editor w1 = editor w).
  { unfold w1. destruct (debounceTimerRef w) as [h|] eqn:Hr; simpl.
    - split; [|split; [apply intervals_drop | auto]].
      rewrite timeouts_drop.
      destruct (timeouts (timers w)) as [|th [|]]; [reflexivity| |contradiction].
      destruct S4 as (R & _). injection R as ->.
      rewrite filter_cons_False by (intros Hne; by apply Hne). reflexivity.
    - split; [|split; [done | auto]].
      destruct (timeouts (timers w)) as [|th [|]]; [reflexivity| |contradiction].
      destruct S4 as (R & _). discriminate R. }
  clearbody w1. destruct H1 as (T1 & T2 & T3 & T4 & T5 & T6).
  destruct (saveDrawing_frame w1) as (F1 & F2 & F3 & F4 & F5 & F6 & F7).
  split; [|by rewrite F1, T6].
  apply (steady_intro w); try congruence.
  - rewrite F7. by apply fmap_subseteq.
  - left. by rewrite F7.
Qed.

Lemma steady_render (dd : option string) (w : World) :
  steady w -> is_Some (editor w) ->
  steady (dispatch (Render dd) w) /\ is_Some (editor (dispatch (Render dd) w)).
Proof.
  intros Hs He. simpl.
  destruct (loadEffect_frame dd (emit (Task ByRender (clock w)) w))
    as (F1 & F2 & F3 & F4 & F5 & F6 & F7 & F8).
  simpl in *. split; [|by apply F1].
  apply (steady_intro w); try congruence.
  - rewrite F5. apply Hs.
  - right. rewrite F7, F6. split; [reflexivity|]. split; [exact F2|]. by apply steady_due.
Qed.

(** A session that was not unmounted is steady, on its editor. *)
Lemma steady_reached (k : EntityKind) (id : nat) (dd : option string) (e0 : EditorState)
    (script : list (nat * Event)) (ms : nat) :
  stays_open script ->
  steady (reached k id dd e0 script ms) /\ is_Some (editor (reached k id dd e0 script ms)).
Proof.
  intros Hopen. unfold reached.
  assert (Hmount : is_Some (editor (mount k id dd (Some e0)))).
  { destruct (loadEffect_frame dd (fresh_world k id (Some e0))) as (F1 & _).
    unfold mount.
    set (w1 := loadEffect dd (fresh_world k id (Some e0))) in *.
    destruct F1 as [e1 He1]; [simpl; eauto|].
    unfold listenerEffect. rewrite He1. unfold intervalEffect. simpl. rewrite He1.
    simpl. eauto. }
  pose proof (steady_mount k id dd e0) as Hsteady.
  revert Hsteady Hmount. generalize (mount k id dd (Some e0)). intros w Hs He.
  assert (Hplay : steady (play script w) /\ is_Some (editor (play script w))).
  { revert w Hs He. unfold play.
    induction Hopen as [|[d ev] script Hev _ IH]; intros w Hs He; simpl; [auto|].
    destruct (steady_elapse d w Hs He) as [Hs1 He1].
    destruct ev as [e| |dd'|]; simpl in Hev; [| | |contradiction].
    - destruct He1 as [e1 He1].
      destruct (change_arms _ e1 e Hs1 He1) as ((Hs2 & He2 & _) & _).
      apply IH; [exact Hs2 | eauto].
    - destruct (steady_blur _ Hs1 He1) as [Hs2 He2]. by apply IH.
    - destruct (steady_render dd' _ Hs1 He1) as [Hs2 He2]. by apply IH. }
  destruct Hplay as [Hs' He']. by apply steady_elapse.
Qed.

(** *** A burst of edits *)






(** *** Teardown *)

Lemma elapse_no_timers (n : nat) (w : World) :
  timers w = [] -> trace (elapse n w) = trace w /\ timers (elapse n w) = [].
Proof.
  revert w. induction n as [|n IH]; intros w Hw; simpl; [auto|].
  assert (Ht : tick w = set_clock (S (clock w)) w).
  { unfold tick. simpl. rewrite Hw. reflexivity. }
  rewrite Ht. destruct (IH (set_clock (S (clock w)) w) Hw) as [I1 I2]. auto.
Qed.

Lemma save_effects_writes (w : World) :
  writes (save_effects w)
  = match editor w with
    | Some e =>
        match stringify e with
        | Some s => if decide (snapshotRef w = Some s) then []
                    else [(kind w, entityId w, s)]
        | None => []
        end
    | None => []
    end.
Proof.
  unfold save_effects. destruct (editor w) as [e|]; [|reflexivity].
  destruct (stringify e) as [s|]; [|reflexivity]. simpl.
  destruct (decide (snapshotRef w = Some s)); reflexivity.
Qed.

Lemma unmount_steady (w : World) (e : EditorState) (h : positive) (D : nat) :
  steady w -> editor w = Some e ->
  timeouts (timers w) = [mkTimer h D None] ->
  let w' := unmount w in
  trace w' = trace w ++ save_effects w ++ ClearTimeout h ::
             match intervalId w with Some i => [ClearInterval i] | None => [] end /\
  writes (trace w')
  = writes (trace w) ++
    match stringify e with
    | Some s => if decide (snapshotRef w = Some s) then [] else [(kind w, entityId w, s)]
    | None => []
    end /\
  timers w' = [] /\
  forall n, trace (elapse n w') = trace w'.
Proof.
  intros Hs He Hto w'.
  pose proof Hs as (S1 & S2 & S3 & S4). rewrite Hto in S4. destruct S4 as (R & _ & _).
  simpl in R.
  assert (Htr : trace w' = trace w ++ save_effects w ++ ClearTimeout h ::
             match intervalId w with Some i => [ClearInterval i] | None => [] end).
  { subst w'. unfold unmount, listenerCleanup. rewrite He.
    set (w1 := saveDrawing (set_listening false w)).
    destruct (saveDrawing_frame (set_listening false w)) as (F1 & F2 & F3 & F4 & F5 & F6 & F7).
    fold w1 in F1, F2, F3, F4, F5, F6, F7. simpl in *.
    rewrite F2, R. unfold intervalCleanup. simpl. rewrite F3.
    assert (Hw1 : trace w1 = trace w ++ save_effects w).
    { unfold w1. rewrite saveDrawing_trace. reflexivity. }
    destruct (intervalId w) as [i|]; simpl; rewrite Hw1, <- ?app_assoc; reflexivity. }
  assert (Hnil : timers w' = []).
  { subst w'. unfold unmount, listenerCleanup. rewrite He.
    set (w1 := saveDrawing (set_listening false w)).
    destruct (saveDrawing_frame (set_listening false w)) as (F1 & F2 & F3 & F4 & F5 & F6 & F7).
    fold w1 in F1, F2, F3, F4, F5, F6, F7. simpl in *.
    rewrite F2, R. unfold intervalCleanup.
    change (intervalId (clearTimeout h w1)) with (intervalId w1). rewrite F3.
    rewrite Forall_forall in S3.
    assert (Hall : forall t, t ∈ timers w -> handle t = h \/ intervalId w = Some (handle t)).
    { intros t Ht. destruct (timer_kind_cases t _ Ht) as [Hk|Hk].
      - rewrite Hto in Hk. apply list_elem_of_singleton in Hk as ->. by left.
      - right. by apply S3. }
    destruct (intervalId w) as [i|]; simpl; rewrite F7.
    - apply elem_of_nil_inv. intros t Ht. unfold drop_timer in Ht.
      apply list_elem_of_filter in Ht as [Hi Ht].
      apply list_elem_of_filter in Ht as [Hh Ht].
      destruct (Hall t Ht) as [Heq|Heq]; [contradiction|]. injection Heq as Heq. auto.
    - apply elem_of_nil_inv. intros t Ht. unfold drop_timer in Ht.
      apply list_elem_of_filter in Ht as [Hh Ht].
      destruct (Hall t Ht) as [Heq|Heq]; [contradiction | discriminate]. }
  split; [exact Htr|]. split; [|split; [exact Hnil|]].
  - rewrite Htr, !writes_app, save_effects_writes, He.
    assert (Hz : writes (ClearTimeout h ::
                   match intervalId w with Some i => [ClearInterval i] | None => [] end) = []).
    { destruct (intervalId w); reflexivity. }
    rewrite Hz, app_nil_r. reflexivity.
  - intros n. apply elapse_no_timers, Hnil.
Qed.

(** C2 (amended): tearing down a session with a debounced save pending
    runs the save path once and only then clears the pending timer (and the
    interval); no timer is left, so nothing happens afterwards. The teardown
    dispatches at most one write: the latest state when it serializes and
    differs from the remembered last-persisted value, none otherwise. *)
Theorem C2_teardown_flushes (k : EntityKind) (id : nat) (dd : option string)
    (e0 : EditorState) (script : list (nat * Event)) (ms : nat)
    (e : EditorState) (h : positive) (D : nat) :
  stays_open script ->
  let w := reached k id dd e0 script ms in
  editor w = Some e ->
  timeouts (timers w) = [mkTimer h D None] ->
  let w' := unmount w in
  trace w' = trace w ++ save_effects w ++ ClearTimeout h ::
             match intervalId w with Some i => [ClearInterval i] | None => [] end /\
  writes (trace w')
  = writes (trace w) ++
    match stringify e with
    | Some s => if decide (snapshotRef w = Some s) then [] else [(kind w, entityId w, s)]
    | None => []
    end /\
  timers w' = [] /\
  forall n, trace (elapse n w') = trace w'.
Proof.
  intros Hopen w He Hto.
  destruct (steady_reached k id dd e0 script ms Hopen) as [Hs _].
  by apply (unmount_steady w e h D).
Qed.

End Scheduler.

(** ** The load path and the start of a session *)

Section LoadPath.
Context `{EditorApi}.

(** One run of the load effect on a stored string that does not parse. *)
Lemma loadEffect_corrupt (w : World) (e : EditorState) (s : string) :
  editor w = Some e -> initialLoadRef w = false -> s ≠ "" -> JSON_parse s = None ->
  loadEffect (Some s) w
  = emit (ConsoleError "Failed to load drawing:")
      (emit (Parse s false) (emit (ConsoleLog "Loading drawing data") w)).
Proof.
  intros He Hflag Hs Hparse. unfold loadEffect.
  rewrite He, Hflag, Hparse. by rewrite decide_False.
Qed.

(** C4: in the trace of any run of a session from its mount, whatever was
    stored and loaded at the start, the first serialization that succeeds is
    followed at once by the write of its string for the session's entity:
    up to then nothing is remembered. *)
Theorem C4_first_serialization_writes (k : EntityKind) (id : nat) (dd : option string)
    (ed : option EditorState) (script : list (nat * Event))
    (tr1 tr2 : list Effect) (e : EditorState) (s : string) :
  trace (play script (mount k id dd ed)) = tr1 ++ Serialize e (Some s) :: tr2 ->
  serialized tr1 = [] ->
  exists tr3, tr2 = ConsoleLog "Saving drawing" :: UpdateDrawing k id s :: tr3.
Proof.
  intros Htr Hnone.
  destruct (save_inv_run k id dd ed script) as (_ & _ & Hinv).
  rewrite Htr, (first_success_split tr1 tr2 e s Hnone) in Hinv. exact Hinv.
Qed.

(** C8: a stored snapshot that does not parse is caught in the load
    effect: the mounted session has the store of the fresh editor, nothing
    loaded, the load flag unset, its listeners and interval in place, and the
    failure in the console; the page around it shows the title and the
    content of the document, the item the text and the checkbox of the todo. *)
Theorem C8_corrupt_snapshot_isolated (k : EntityKind) (id : nat) (s : string)
    (e0 : EditorState) (d : Convex.Document) (t : Convex.Todo) (expandedTodo : option nat) :
  JSON_parse s = None ->
  let w := mount k id (Some s) (Some e0) in
  (editor w = Some e0 /\ initialLoadRef w = false /\ hydrations (trace w) = [] /\
   steady w /\ timers w = [mkTimer 1 3000 (Some 3000%nat)] /\
   (s ≠ "" ->
    trace w = [ConsoleLog "Loading drawing data"; Parse s false;
               ConsoleError "Failed to load drawing:"; SetInterval 1 3000])) /\
  (Convex.doc_drawing d = Some s ->
   Pages.DocumentEditor id (Some d) true e0
   = Pages.Page (Convex.title d)
       (Some (mount DocumentEntity id (Some s) (Some e0)))
       (default "" (Convex.content d))) /\
  (Convex.drawing t = Some s ->
   Pages.TodoContent_item id t expandedTodo (Some id) e0
   = Pages.mkTodoItem (Convex.completed t) (Convex.text t)
       (if decide (expandedTodo = Some id)
        then Some (default "" (Convex.description t)) else None)
       (Some (mount TodoEntity id (Some s) (Some e0)))).
Proof.
  intros Hparse w. split; [|split].
  - pose proof (steady_mount k id (Some s) e0) as Hst. fold w in Hst.
    split; [|split; [|split; [|split; [exact Hst|]]]];
      subst w; unfold mount, loadEffect; simpl;
      (destruct (decide (s = "")) as [Hs|Hs]; [|rewrite Hparse]);
      simpl; try reflexivity.
    + split; [reflexivity | intros Hne; contradiction].
    + split; reflexivity.
  - intros Hd. unfold Pages.DocumentEditor. by rewrite Hd.
  - intros Ht. unfold Pages.TodoContent_item. rewrite Ht.
    by rewrite (decide_True (P := Some id = Some id)).
Qed.

(** C9: along any run of a session a snapshot is loaded into the editor
    at most once; the run of the load effect that loads one sets the load
    flag; with the flag set the load effect does nothing; so after a run that
    loaded the stored snapshot a second run on it is a no-op. *)
Theorem C9_hydrated_at_most_once (k : EntityKind) (id : nat) (dd : option string)
    (ed : option EditorState) (script : list (nat * Event)) (w : World) (dd' : option string) :
  (length (hydrations (trace (play script (mount k id dd ed)))) <= 1)%nat /\
  (hydrations (trace (loadEffect dd' w)) ≠ hydrations (trace w) ->
   initialLoadRef (loadEffect dd' w) = true) /\
  (initialLoadRef w = true -> loadEffect dd' w = w) /\
  (hydrations (trace (loadEffect dd' w)) ≠ hydrations (trace w) ->
   loadEffect dd' (loadEffect dd' w) = loadEffect dd' w).
Proof.
  assert (Hset : hydrations (trace (loadEffect dd' w)) ≠ hydrations (trace w) ->
                 initialLoadRef (loadEffect dd' w) = true).
  { unfold loadEffect.
    destruct (editor w) as [e|]; [|congruence].
    destruct dd' as [s|]; [|congruence].
    destruct (decide (s = "")); [congruence|].
    destruct (initialLoadRef w); [congruence|].
    destruct (JSON_parse s) as [j|]; [destruct (loadSnapshot j e)|];
      unfold hydrations; simpl; rewrite ?omap_app; simpl; rewrite ?app_nil_r;
      congruence. }
  assert (Hnoop : forall w0, initialLoadRef w0 = true -> loadEffect dd' w0 = w0).
  { intros w0 Hflag. unfold loadEffect. rewrite Hflag.
    destruct (editor w0); [|reflexivity]. destruct dd' as [s|]; [|reflexivity].
    destruct (decide (s = "")); reflexivity. }
  split; [apply load_inv_run|]. split; [exact Hset|]. split; [apply Hnoop|].
  intros Hload. apply Hnoop, Hset, Hload.
Qed.

(** C10: when the stored string does not parse, a run of the load effect
    leaves the load flag unset, so each of any number of runs on the same
    string attempts the parse again, and none of them loads anything; in
    general a run of the load effect that loads nothing leaves the flag as it
    was. *)
Theorem C10_failed_parse_retries (w : World) (e : EditorState) (s : string) (n : nat) :
  editor w = Some e -> initialLoadRef w = false -> s ≠ "" -> JSON_parse s = None ->
  let w' := Nat.iter n (loadEffect (Some s)) w in
  initialLoadRef w' = false /\
  parse_attempts (trace w') = parse_attempts (trace w) ++ replicate n s /\
  hydrations (trace w') = hydrations (trace w) /\
  editor w' = Some e /\
  forall (dd : option string) (w0 : World),
    hydrations (trace (loadEffect dd w0)) = hydrations (trace w0) ->
    initialLoadRef (loadEffect dd w0) = initialLoadRef w0.
Proof.
  intros He Hflag Hs Hparse w'.
  assert (Hrun : initialLoadRef w' = false /\
                 parse_attempts (trace w') = parse_attempts (trace w) ++ replicate n s /\
                 hydrations (trace w') = hydrations (trace w) /\ editor w' = Some e).
  { subst w'. induction n as [|n IH]; simpl.
    - by rewrite app_nil_r.
    - destruct IH as (I1 & I2 & I3 & I4).
      rewrite (loadEffect_corrupt _ e s I4 I1 Hs Hparse). simpl.
      split; [exact I1|]. split; [|split; [|exact I4]].
      + unfold parse_attempts in *. rewrite !omap_app, I2. simpl.
        rewrite !app_nil_r, <- app_assoc.
        change (s :: replicate n s) with (replicate (S n) s).
        by rewrite replicate_S_end.
      + unfold hydrations in *. rewrite !omap_app, I3. simpl. by rewrite !app_nil_r. }
  destruct Hrun as (R1 & R2 & R3 & R4). repeat split; try assumption.
  intros dd w0. unfold loadEffect.
  destruct (editor w0) as [e0|]; [|reflexivity].
  destruct dd as [s0|]; [|reflexivity].
  destruct (decide (s0 = "")); [reflexivity|].
  destruct (initialLoadRef w0) eqn:Hf; [intros _; exact Hf|].
  destruct (JSON_parse s0) as [j|]; [destruct (loadSnapshot j e0)|];
    simpl; try (intros _; exact Hf).
  unfold hydrations. rewrite !omap_app. simpl. rewrite !app_nil_r.
  intros Heq. exfalso.
  apply (f_equal length) in Heq. rewrite length_app in Heq. simpl in Heq. lia.
Qed.

End LoadPath.

End AutosaveSpec.

(** * The properties on the concrete editor *)

Module Runs.
Import Autosave Demo AutosaveSpec.

(** Close a goal on the concrete editor with a fact about it: both sides
    are evaluated. *)
Ltac by_computing H := revert H; vm_compute; intros H; exact H.

(** C1, as the claim states it, fails: once a state has been saved, two
    more save attempts on the same state dispatch no write at all. *)
Lemma C1_identical_saves_may_write_nothing :
  ~ (forall (api : EditorApi) (w : World) (e : EditorState) (s : string),
       editor w = Some e -> stringify e = Some s ->
       length (writes (trace (saveDrawing (saveDrawing w))))
       = S (length (writes (trace w)))).
Proof.
  intros Hall.
  specialize (Hall demo_api (saveDrawing session0) "{}" "{}" eq_refl eq_refl).
  revert Hall. vm_compute. discriminate.
Qed.

Lemma C1_write_iff_snapshot_differs_witness :
  writes (trace (saveDrawing session0)) = [(TodoEntity, 7, "{}")] /\
  snapshotRef (saveDrawing session0) = Some "{}" /\
  writes (trace (saveDrawing (saveDrawing session0))) = [(TodoEntity, 7, "{}")].
Proof.
  destruct (C1_write_iff_snapshot_differs session0 "{}" "{}" "{}" eq_refl eq_refl eq_refl)
    as (H1 & H2 & H3).
  split; [by_computing H1|]. split; [by_computing H2 | by_computing H3].
Defined.

Lemma C7_serialization_failure_aborts_witness :
  writes (trace (saveDrawing (dispatch (edit "cyclic") session0))) = [] /\
  snapshotRef (saveDrawing (dispatch (edit "cyclic") session0)) = None.
Proof.
  destruct (C7_serialization_failure_aborts (dispatch (edit "cyclic") session0) "cyclic"
              eq_refl eq_refl) as (_ & H2 & H3 & _).
  split; [by_computing H2 | by_computing H3].
Defined.


(** C2, as the claim states it, fails: when the periodic save has already
    persisted the latest state, the teardown, with the debounce timer still
    pending, dispatches no write. *)
Lemma C2_teardown_may_write_nothing :
  ~ (forall (api : EditorApi) (k : EntityKind) (id : nat) (dd : option string)
       (e0 : EditorState) (script : list (nat * Event)) (ms : nat)
       (e : EditorState) (h : positive) (D : nat),
       stays_open script ->
       let w := reached k id dd e0 script ms in
       editor w = Some e ->
       timeouts (timers w) = [mkTimer h D None] ->
       length (writes (trace (unmount w))) = S (length (writes (trace w)))).
Proof.
  intros Hall.
  assert (Hcount :
    length (writes (trace (unmount (reached TodoEntity 7 None "{}" [(2900, edit "{a}")] 200))))
    = S (length (writes (trace (reached TodoEntity 7 None "{}" [(2900, edit "{a}")] 200))))).
  { apply (Hall demo_api TodoEntity 7 None "{}" [(2900, edit "{a}")] 200
             "{a}" 2%positive 3200%nat).
    - repeat constructor.
    - vm_compute. reflexivity.
    - vm_compute. reflexivity. }
  revert Hcount. vm_compute. discriminate.
Qed.

Lemma C2_teardown_flushes_witness :
  writes (trace (unmount (dispatch (edit "{a}") session0))) = [(TodoEntity, 7, "{a}")] /\
  timers (unmount (dispatch (edit "{a}") session0)) = [].
Proof.
  destruct (C2_teardown_flushes (H:=demo_api) TodoEntity 7 None "{}" [(0, edit "{a}")] 0
              "{a}" 2%positive 300%nat) as (_ & H2 & H3 & _).
  - repeat constructor.
  - vm_compute. reflexivity.
  - vm_compute. reflexivity.
  - split; [by_computing H2 | by_computing H3].
Defined.

(** In [hydrated_run] the first save, by the periodic timer at 3000 ms, is
    the sixth entry of the trace, and it writes the loaded snapshot back. *)
Lemma C4_first_serialization_writes_witness :
  exists tr3,
    drop 6 (trace hydrated_run)
    = ConsoleLog "Saving drawing" :: UpdateDrawing TodoEntity 7 "{a}" :: tr3.
Proof.
  apply (C4_first_serialization_writes (H:=demo_api) TodoEntity 7 (Some "{a}") (Some "{}")
           [(3000, render (Some "{a}"))]
           (take 5 (trace hydrated_run)) (drop 6 (trace hydrated_run)) "{a}" "{a}").
  - vm_compute. reflexivity.
  - vm_compute. reflexivity.
Defined.

Lemma C8_corrupt_snapshot_isolated_witness :
  editor (session DocumentEntity 1 (Some "garbage") "{}") = Some "{}" /\
  Pages.DocumentEditor (H:=demo_api) 1
    (Some (Convex.mkDocument "Notes" (Some "hello") 10 5%Z 5%Z None (Some "garbage")))
    true "{}"
  = Pages.Page "Notes" (Some (session DocumentEntity 1 (Some "garbage") "{}")) "hello".
Proof.
  destruct (C8_corrupt_snapshot_isolated (H:=demo_api) DocumentEntity 1 "garbage" "{}"
              (Convex.mkDocument "Notes" (Some "hello") 10 5%Z 5%Z None (Some "garbage"))
              (Convex.mkTodo "buy milk" (Some "") false 10 false 0%Z (Some "garbage"))
              None eq_refl) as ((H1 & _) & H2 & _).
  specialize (H2 eq_refl). split; [by_computing H1 | by_computing H2].
Defined.

Lemma C9_hydrated_at_most_once_witness :
  loadEffect (Some "{b}") (session TodoEntity 7 (Some "{a}") "{}")
  = mount TodoEntity 7 (Some "{a}") (Some "{}").
Proof.
  destruct (C9_hydrated_at_most_once (H:=demo_api) TodoEntity 7 (Some "{a}") (Some "{}")
              [(10, render (Some "{a}"))]
              (session TodoEntity 7 (Some "{a}") "{}") (Some "{b}")) as (_ & _ & H3 & _).
  specialize (H3 eq_refl). by_computing H3.
Defined.

Lemma C10_failed_parse_retries_witness :
  parse_attempts
    (trace (Nat.iter 2 (loadEffect (Some "garbage"))
              (session TodoEntity 7 (Some "garbage") "{}")))
  = ["garbage"; "garbage"; "garbage"].
Proof.
  destruct (C10_failed_parse_retries (session TodoEntity 7 (Some "garbage") "{}")
              "{}" "garbage" 2 eq_refl eq_refl) as (_ & H2 & _).
  - discriminate.
  - vm_compute. reflexivity.
  - by_computing H2.
Defined.

End Runs.

(** * More of the backend *)

Module ConvexMore.
Import Convex ConvexOps.

Lemma owned_todo_ok (uid id : Id) (t : Todo) (db : Db) (log : list DbOp) :
  todos db !! id = Some t -> userId t = uid ->
  todos_ts.owned_todo uid id db log = (Ok t, db, log ++ [DbGet Todos id]).
Proof.
  intros Hget Heq. unfold todos_ts.owned_todo, bind, get_todo. rewrite Hget.
  by rewrite decide_True.
Qed.

Lemma owned_todo_missing (uid id : Id) (db : Db) (log : list DbOp) :
  todos db !! id = None ->
  todos_ts.owned_todo uid id db log = (Throw "Todo not found", db, log ++ [DbGet Todos id]).
Proof. intros Hget. unfold todos_ts.owned_todo, bind, get_todo. by rewrite Hget. Qed.

Lemma owned_document_ok (uid id : Id) (d : Document) (db : Db) (log : list DbOp) :
  documents db !! id = Some d -> uid ∈ users db -> doc_userId d = uid ->
  documents_ts.owned_document uid id db log
  = (Ok d, db, log ++ [DbGet Documents id; DbGet Users uid]).
Proof.
  intros Hget Hu Heq. unfold documents_ts.owned_document, bind, get_document, get_user.
  rewrite Hget. rewrite decide_True by exact Hu. rewrite decide_True by exact Heq.
  unfold ret. by rewrite <- app_assoc.
Qed.

Lemma owned_document_missing (uid id : Id) (db : Db) (log : list DbOp) :
  documents db !! id = None ->
  documents_ts.owned_document uid id db log
  = (Throw "Document not found", db, log ++ [DbGet Documents id]).
Proof. intros Hget. unfold documents_ts.owned_document, bind, get_document. by rewrite Hget. Qed.

Lemma owned_document_refused (uid id : Id) (d : Document) (db : Db) (log : list DbOp) :
  documents db !! id = Some d -> (uid ∉ users db \/ doc_userId d ≠ uid) ->
  documents_ts.owned_document uid id db log
  = (Throw "Unauthorized", db, log ++ [DbGet Documents id; DbGet Users uid]).
Proof.
  intros Hget Hno. unfold documents_ts.owned_document, bind, get_document, get_user.
  rewrite Hget. rewrite <- app_assoc.
  destruct (decide (uid ∈ users db)); [|reflexivity].
  destruct (decide (doc_userId d = uid)); [|reflexivity].
  destruct Hno; contradiction.
Qed.

(** What [todos.list] answers an authenticated caller. *)
Lemma todos_list_rows (ctx : Ctx) (db : Db) (uid : Id) :
  auth ctx = Some uid ->
  exists rows,
    run (todos_ts.list ctx) db = (Ok rows, db, [DbQuery Todos]) /\
    forall id t, (id, t) ∈ rows <->
      todos db !! id = Some t /\ userId t = uid /\ (today ctx <= dueDate t)%Z.
Proof.
  intros Hauth. unfold run, todos_ts.list, query_todos. rewrite Hauth.
  eexists. split; [reflexivity|].
  intros id t. rewrite list_elem_of_filter, elem_of_map_to_list. simpl. tauto.
Qed.

(** A todo mutation stops where its ownership guard stops. *)
Lemma todo_mutation_guarded (op : Op) (ctx : Ctx) (db : Db) (uid id : Id)
    (msg : string) (log : list DbOp) :
  auth ctx = Some uid -> todo_target op = Some id ->
  todos_ts.owned_todo uid id db [] = (Throw msg, db, log) ->
  run (call op ctx) db = (Throw msg, db, log).
Proof.
  intros Hauth Htarget Hguard.
  destruct op; simpl in Htarget; try discriminate; injection Htarget as ->;
    unfold run, call, fmap_h, todos_ts.updateDrawing, todos_ts.toggleComplete,
      todos_ts.updateText, todos_ts.updateDescription, todos_ts.remove,
      todos_ts.moveToNextDay;
    rewrite Hauth; unfold bind; rewrite Hguard; reflexivity.
Qed.

(** An operation on one document stops where its ownership guard stops. *)
Lemma document_operation_guarded (op : Op) (ctx : Ctx) (db : Db) (uid id : Id)
    (msg : string) (log : list DbOp) :
  auth ctx = Some uid -> document_target op = Some id ->
  documents_ts.owned_document uid id db [] = (Throw msg, db, log) ->
  run (call op ctx) db = (Throw msg, db, log).
Proof.
  intros Hauth Htarget Hguard.
  destruct op; simpl in Htarget; try discriminate; injection Htarget as ->;
    unfold run, call, fmap_h, documents_ts.get, documents_ts.update, documents_ts.remove,
      documents_ts.updateDrawing;
    rewrite Hauth; unfold bind; rewrite Hguard; reflexivity.
Qed.

(** X1: [todos.list] answers an authenticated caller with exactly the caller's own
    todos that are due today or later, each of them once; it reads the todos
    table once and leaves the database as it was. *)
Theorem todos_list_owned_and_due (ctx : Ctx) (db : Db) (uid : Id) :
  auth ctx = Some uid ->
  exists rows,
    run (todos_ts.list ctx) db = (Ok rows, db, [DbQuery Todos]) /\
    NoDup rows /\
    forall id t, (id, t) ∈ rows <->
      todos db !! id = Some t /\ userId t = uid /\ (today ctx <= dueDate t)%Z.
Proof.
  intros Hauth. unfold run, todos_ts.list, query_todos. rewrite Hauth.
  eexists. split; [reflexivity|]. split.
  - apply NoDup_filter, NoDup_map_to_list.
  - intros id t. rewrite list_elem_of_filter, elem_of_map_to_list. simpl. tauto.
Qed.

(** X2: [documents.list] answers an authenticated caller who has a row in the
    users table with exactly the caller's own documents, each of them once,
    after one read of that row and one of the documents table; a caller
    without a user row gets "User not found"; the database is left as it
    was either way. *)
Theorem documents_list_owned (ctx : Ctx) (db : Db) (uid : Id) :
  auth ctx = Some uid ->
  (uid ∈ users db ->
   exists rows,
     run (documents_ts.list ctx) db = (Ok rows, db, [DbGet Users uid; DbQuery Documents]) /\
     NoDup rows /\
     forall id d, (id, d) ∈ rows <-> documents db !! id = Some d /\ doc_userId d = uid) /\
  (uid ∉ users db ->
   run (documents_ts.list ctx) db = (Throw "User not found", db, [DbGet Users uid])).
Proof.
  intros Hauth.
  unfold run, documents_ts.list, documents_ts.the_user, bind, get_user, query_documents.
  rewrite Hauth. simpl. split; intros Hu.
  - rewrite decide_True by exact Hu. simpl.
    eexists. split; [reflexivity|]. split.
    + apply NoDup_filter, NoDup_map_to_list.
    + intros id d. rewrite list_elem_of_filter, elem_of_map_to_list. simpl. tauto.
  - rewrite decide_False by exact Hu. reflexivity.
Qed.

(** X3: each of the six mutations on one todo ([updateDrawing],
    [toggleComplete], [updateText], [updateDescription], [remove],
    [moveToNextDay]), called by an authenticated caller on a todo that does
    not exist or belongs to someone else, throws "Todo not found" after the
    one read of that todo: a foreign todo cannot be told from a missing one,
    and the database is left as it was. *)
Theorem todo_mutation_not_found (op : Op) (ctx : Ctx) (db : Db) (uid id : Id) :
  auth ctx = Some uid -> todo_target op = Some id ->
  (todos db !! id = None \/ exists t, todos db !! id = Some t /\ userId t ≠ uid) ->
  run (call op ctx) db = (Throw "Todo not found", db, [DbGet Todos id]).
Proof.
  intros Hauth Htarget Hrow.
  apply (todo_mutation_guarded op ctx db uid id _ _ Hauth Htarget).
  destruct Hrow as [Hnone|(t & Hsome & Hne)].
  - by apply owned_todo_missing.
  - by apply (ConvexSpec.owned_todo_other uid id t).
Qed.

(** X4: each of the four operations on one document ([get], [update],
    [remove], [updateDrawing]) throws "Document not found" after one read
    when the document does not exist, and "Unauthorized" after the reads of
    the document and of the caller's user row when the document belongs to
    someone else or the caller has no user row; the database is left as it
    was. *)
Theorem document_operation_refused (op : Op) (ctx : Ctx) (db : Db) (uid id : Id) :
  auth ctx = Some uid -> document_target op = Some id ->
  (documents db !! id = None ->
   run (call op ctx) db = (Throw "Document not found", db, [DbGet Documents id])) /\
  (forall d, documents db !! id = Some d -> (uid ∉ users db \/ doc_userId d ≠ uid) ->
   run (call op ctx) db
   = (Throw "Unauthorized", db, [DbGet Documents id; DbGet Users uid])).
Proof.
  intros Hauth Htarget. split.
  - intros Hnone.
    apply (document_operation_guarded op ctx db uid id _ _ Hauth Htarget).
    by apply owned_document_missing.
  - intros d Hsome Hno.
    apply (document_operation_guarded op ctx db uid id _ _ Hauth Htarget).
    by apply (owned_document_refused uid id d).
Qed.


(** Open a handler down to the calls on the database. *)
Ltac open_handler :=
  unfold run, call, fmap_h, todos_ts.list, todos_ts.add, todos_ts.updateDrawing,
    todos_ts.toggleComplete, todos_ts.updateText, todos_ts.updateDescription,
    todos_ts.remove, todos_ts.moveToNextDay, documents_ts.list, documents_ts.get,
    documents_ts.create, documents_ts.update, documents_ts.remove,
    documents_ts.updateDrawing, todos_ts.owned_todo, documents_ts.owned_document,
    documents_ts.the_user, bind, ret, throw, get_user, get_todo, get_document,
    query_todos, query_documents, insert_todo, insert_document, patch_todo,
    patch_document, delete_todo, delete_document.

(** X5: whichever of the fourteen functions throws, whatever the error, has
    made no insert, patch or delete before, and the database is the one it
    was called on: every guard comes before the first write. *)
Theorem throw_writes_nothing (op : Op) (ctx : Ctx) (db : Db) (msg : string) :
  (run (call op ctx) db).1.1 = Throw msg ->
  (run (call op ctx) db).1.2 = db /\
  Forall (fun o => is_write o = false) (run (call op ctx) db).2.
Proof.
  destruct op; open_handler; simpl;
    repeat (case_match; simplify_eq/=); try discriminate;
    intros _; split; try reflexivity; repeat constructor.
Qed.


Lemma lookup_insert_fresh {A} (m : gmap Id A) (id : Id) (x y : A) :
  m !! id = Some x -> <[fresh (dom m) := y]> m !! id = Some x.
Proof.
  intros Hget. rewrite lookup_insert_ne; [exact Hget|].
  intros <-. apply (is_fresh (dom m)). apply elem_of_dom. eauto.
Qed.

(** Read a row of the table left by a handler. *)
Ltac read_row :=
  repeat match goal with
  | H : alter _ ?i _ !! ?j = Some _ |- _ =>
      rewrite lookup_alter in H; destruct (decide (i = j)); simplify_eq/=
  | H : delete ?i _ !! ?j = Some _ |- _ =>
      rewrite lookup_delete in H; destruct (decide (i = j)); simplify_eq/=
  | H : <[fresh (dom ?m) := _]> ?m !! ?j = Some _, H' : ?m !! ?j = Some _ |- _ =>
      rewrite (lookup_insert_fresh m j _ _ H') in H; simplify_eq/=
  | H : _ <$> ?o = Some _, H' : ?o = Some _ |- _ => rewrite H' in H; simplify_eq/=
  end.

(** X6: no function changes the users table, the owner of a todo, or the
    owner or the creation time of a document: a row that is still there after
    the call belongs to whom it belonged before. *)
Theorem owner_never_changes (op : Op) (ctx : Ctx) (db : Db) :
  let db' := (run (call op ctx) db).1.2 in
  users db' = users db /\
  (forall id t t', todos db !! id = Some t -> todos db' !! id = Some t' ->
     userId t' = userId t) /\
  (forall id d d', documents db !! id = Some d -> documents db' !! id = Some d' ->
     doc_userId d' = doc_userId d /\ createdAt d' = createdAt d).
Proof.
  destruct op; open_handler; simpl;
    repeat (case_match; simplify_eq/=);
    (split; [reflexivity|]); split; intros ? ? ? ? ?; simpl in *;
    read_row; simplify_eq/=; auto.
Qed.

(** X7: the stored drawing of a todo or a document changes through the two
    [updateDrawing] mutations only: after any other call a row that is still
    there has the drawing it had before. *)
Theorem drawing_only_by_updateDrawing (op : Op) (ctx : Ctx) (db : Db) :
  writes_drawing op = false ->
  let db' := (run (call op ctx) db).1.2 in
  (forall id t t', todos db !! id = Some t -> todos db' !! id = Some t' ->
     drawing t' = drawing t) /\
  (forall id d d', documents db !! id = Some d -> documents db' !! id = Some d' ->
     doc_drawing d' = doc_drawing d).
Proof.
  destruct op; intros Hop; try discriminate Hop; open_handler; simpl;
    repeat (case_match; simplify_eq/=);
    split; intros ? ? ? ? ?; simpl in *;
    read_row; simplify_eq/=; auto.
Qed.


Lemma alter_as_insert {A} (f : A -> A) (m : gmap Id A) (id : Id) (x : A) :
  m !! id = Some x -> alter f id m = <[id := f x]> m.
Proof.
  intros Hget. apply map_eq. intros j. rewrite lookup_alter, lookup_insert.
  destruct (decide (id = j)) as [<-|]; [by rewrite Hget | reflexivity].
Qed.

(** What a successful drawing write on a todo leaves. *)
Lemma todos_updateDrawing_ok (ctx : Ctx) (db : Db) (uid id : Id) (t : Todo) (s : string) :
  auth ctx = Some uid -> todos db !! id = Some t -> userId t = uid ->
  run (todos_ts.updateDrawing ctx id s) db
  = (Ok tt, mkDb (users db) (<[id := set_drawing s t]> (todos db)) (documents db),
     [DbGet Todos id; DbPatch Todos id]).
Proof.
  intros Hauth Hget Hown. unfold run, todos_ts.updateDrawing. rewrite Hauth.
  unfold bind at 1. rewrite (owned_todo_ok uid id t db [] Hget Hown).
  unfold patch_todo. simpl. by rewrite (alter_as_insert _ _ _ t Hget).
Qed.

Lemma documents_updateDrawing_ok (ctx : Ctx) (db : Db) (uid id : Id) (d : Document)
    (s : string) :
  auth ctx = Some uid -> documents db !! id = Some d -> uid ∈ users db ->
  doc_userId d = uid ->
  run (documents_ts.updateDrawing ctx id s) db
  = (Ok tt,
     mkDb (users db) (todos db) (<[id := set_doc_drawing s (now ctx) d]> (documents db)),
     [DbGet Documents id; DbGet Users uid; DbPatch Documents id]).
Proof.
  intros Hauth Hget Hu Hown. unfold run, documents_ts.updateDrawing. rewrite Hauth.
  unfold bind at 1. rewrite (owned_document_ok uid id d db [] Hget Hu Hown).
  unfold patch_document. simpl. by rewrite (alter_as_insert _ _ _ d Hget).
Qed.

(** X8: a drawing written by the owner of a todo is stored in that todo and in
    no other row or table, [todos.list] gives it back when the todo is due
    today or later, and a second write replaces it: the database after two
    writes is the database after the second alone. *)
Theorem todo_drawing_write_read (ctx : Ctx) (db : Db) (uid id : Id) (t : Todo)
    (s s2 : string) :
  auth ctx = Some uid -> todos db !! id = Some t -> userId t = uid ->
  let db' := (run (todos_ts.updateDrawing ctx id s) db).1.2 in
  (run (todos_ts.updateDrawing ctx id s) db).1.1 = Ok tt /\
  todos db' !! id = Some (set_drawing s t) /\
  (forall j, j ≠ id -> todos db' !! j = todos db !! j) /\
  users db' = users db /\ documents db' = documents db /\
  ((today ctx <= dueDate t)%Z ->
   exists rows, (run (todos_ts.list ctx) db').1.1 = Ok rows /\
                (id, set_drawing s t) ∈ rows) /\
  (run (todos_ts.updateDrawing ctx id s2) db').1.2
  = (run (todos_ts.updateDrawing ctx id s2) db).1.2.
Proof.
  intros Hauth Hget Hown db'. subst db'.
  rewrite (todos_updateDrawing_ok ctx db uid id t s Hauth Hget Hown). simpl.
  split; [reflexivity|]. split; [apply lookup_insert_eq|].
  split; [intros j Hj; by apply lookup_insert_ne|].
  split; [reflexivity|]. split; [reflexivity|]. split.
  - intros Hdue.
    destruct (todos_list_rows ctx
                (mkDb (users db) (<[id := set_drawing s t]> (todos db)) (documents db))
                uid Hauth) as (rows & Hrun & Hrows).
    exists rows. rewrite Hrun. split; [reflexivity|].
    apply Hrows. simpl. rewrite lookup_insert_eq. auto.
  - rewrite (todos_updateDrawing_ok ctx db uid id t s2 Hauth Hget Hown).
    rewrite (todos_updateDrawing_ok ctx _ uid id (set_drawing s t) s2 Hauth);
      [|apply lookup_insert_eq|exact Hown].
    simpl. by rewrite insert_insert_eq.
Qed.

(** X9: a drawing written by the owner of a document is stored with
    [updatedAt] set to the time of the write, every other field and row left
    alone; [documents.get] gives it back, and a second write replaces it. *)
Theorem document_drawing_write_read (ctx : Ctx) (db : Db) (uid id : Id) (d : Document)
    (s s2 : string) :
  auth ctx = Some uid -> documents db !! id = Some d -> uid ∈ users db ->
  doc_userId d = uid ->
  let db' := (run (documents_ts.updateDrawing ctx id s) db).1.2 in
  let d' := mkDocument (title d) (content d) uid (createdAt d) (now ctx) (emoji d) (Some s) in
  (run (documents_ts.updateDrawing ctx id s) db).1.1 = Ok tt /\
  (run (documents_ts.get ctx id) db').1.1 = Ok d' /\
  (forall j, j ≠ id -> documents db' !! j = documents db !! j) /\
  users db' = users db /\ todos db' = todos db /\
  (run (documents_ts.updateDrawing ctx id s2) db').1.2
  = (run (documents_ts.updateDrawing ctx id s2) db).1.2.
Proof.
  intros Hauth Hget Hu Hown db' d'. subst db'.
  rewrite (documents_updateDrawing_ok ctx db uid id d s Hauth Hget Hu Hown). simpl.
  set (db1 := mkDb (users db) (todos db)
                (<[id := set_doc_drawing s (now ctx) d]> (documents db))).
  assert (Hd' : set_doc_drawing s (now ctx) d = d').
  { unfold d', set_doc_drawing. by rewrite Hown. }
  assert (Hget1 : documents db1 !! id = Some d') by (simpl; rewrite lookup_insert_eq; by f_equal).
  assert (Hown1 : doc_userId d' = uid) by reflexivity.
  split; [reflexivity|]. split.
  - unfold run, documents_ts.get. rewrite Hauth.
    by rewrite (owned_document_ok uid id d' db1 [] Hget1 Hu Hown1).
  - split; [intros j Hj; by apply lookup_insert_ne|].
    split; [reflexivity|]. split; [reflexivity|].
    rewrite (documents_updateDrawing_ok ctx db uid id d s2 Hauth Hget Hu Hown).
    rewrite (documents_updateDrawing_ok ctx db1 uid id d' s2 Hauth Hget1 Hu Hown1).
    simpl. rewrite insert_insert_eq. subst d'. unfold set_doc_drawing. simpl.
    by rewrite Hown.
Qed.

(** X10: [todos.add] inserts one row under an id that was free: the text as
    given, an empty description, not completed, not hidden, owned by the
    caller, due today, without a drawing; [todos.list] then shows it, and
    everything it showed before. *)
Theorem todos_add_then_list (ctx : Ctx) (db : Db) (uid : Id) (txt : string) :
  auth ctx = Some uid ->
  let id := fresh (dom (todos db)) in
  let row := mkTodo txt (Some "") false uid false (today ctx) None in
  let db' := (run (todos_ts.add ctx txt) db).1.2 in
  todos db !! id = None /\
  run (todos_ts.add ctx txt) db
  = (Ok tt, mkDb (users db) (<[id := row]> (todos db)) (documents db), [DbInsert Todos id]) /\
  exists rows',
    (run (todos_ts.list ctx) db').1.1 = Ok rows' /\
    (id, row) ∈ rows' /\
    forall rows, (run (todos_ts.list ctx) db).1.1 = Ok rows -> rows ⊆ rows'.
Proof.
  intros Hauth id row db'.
  assert (Hfresh : todos db !! id = None).
  { apply not_elem_of_dom. apply is_fresh. }
  assert (Hrun : run (todos_ts.add ctx txt) db
    = (Ok tt, mkDb (users db) (<[id := row]> (todos db)) (documents db), [DbInsert Todos id])).
  { unfold run, todos_ts.add. rewrite Hauth. reflexivity. }
  split; [exact Hfresh|]. split; [exact Hrun|].
  subst db'. rewrite Hrun. simpl.
  destruct (todos_list_rows ctx
              (mkDb (users db) (<[id := row]> (todos db)) (documents db)) uid Hauth)
    as (rows' & Hrun' & Hrows').
  exists rows'. rewrite Hrun'. split; [reflexivity|]. split.
  - apply Hrows'. simpl. rewrite lookup_insert_eq. repeat split. lia.
  - intros rows Hbefore.
    destruct (todos_list_rows ctx db uid Hauth) as (rows0 & Hrun0 & Hrows0).
    rewrite Hrun0 in Hbefore. simpl in Hbefore. injection Hbefore as <-.
    intros [j t] Hin. apply Hrows0 in Hin as (Hj & Ho & Hd).
    apply Hrows'. simpl. rewrite lookup_insert_ne; [auto|].
    intros <-. fold id in Hj. congruence.
Qed.


(** X11: [todos.toggleComplete] by the owner negates [completed], and a second
    call restores the database as it was before the first. *)
Theorem toggleComplete_twice (ctx : Ctx) (db : Db) (uid id : Id) (t : Todo) :
  auth ctx = Some uid -> todos db !! id = Some t -> userId t = uid ->
  let db1 := (run (todos_ts.toggleComplete ctx id) db).1.2 in
  (run (todos_ts.toggleComplete ctx id) db).1.1 = Ok tt /\
  todos db1 !! id = Some (set_completed (negb (completed t)) t) /\
  (run (todos_ts.toggleComplete ctx id) db1).1.1 = Ok tt /\
  (run (todos_ts.toggleComplete ctx id) db1).1.2 = db.
Proof.
  intros Hauth Hget Hown db1.
  assert (Hrun : forall db0 t0, todos db0 !! id = Some t0 -> userId t0 = uid ->
            run (todos_ts.toggleComplete ctx id) db0
            = (Ok tt, mkDb (users db0)
                        (<[id := set_completed (negb (completed t0)) t0]> (todos db0))
                        (documents db0),
               [DbGet Todos id; DbPatch Todos id])).
  { intros db0 t0 Hg Ho. unfold run, todos_ts.toggleComplete. rewrite Hauth.
    unfold bind at 1. rewrite (owned_todo_ok uid id t0 db0 [] Hg Ho).
    unfold patch_todo. simpl. by rewrite (alter_as_insert _ _ _ t0 Hg). }
  subst db1. rewrite (Hrun db t Hget Hown). simpl.
  split; [reflexivity|]. split; [apply lookup_insert_eq|].
  rewrite (Hrun _ (set_completed (negb (completed t)) t));
    [|simpl; apply lookup_insert_eq|exact Hown].
  simpl. split; [reflexivity|].
  rewrite insert_insert_eq.
  assert (Hback : set_completed (negb (negb (completed t))) (set_completed (negb (completed t)) t)
                  = t).
  { destruct t as [tx ds c u h dd dr]. unfold set_completed. simpl.
    by rewrite negb_involutive. }
  rewrite Hback, (insert_id _ _ _ Hget). by destruct db.
Qed.

(** X12: [documents.create] returns an id that was free; [documents.get] on it
    then answers the caller with the untitled, empty document created and
    last updated now, [documents.list] shows it, and no other row or table
    has changed. *)
Theorem documents_create_then_get (ctx : Ctx) (db : Db) (uid : Id) :
  auth ctx = Some uid -> uid ∈ users db ->
  let id := fresh (dom (documents db)) in
  let d0 := mkDocument "Untitled Document" (Some "") uid (now ctx) (now ctx) None None in
  let db' := (run (documents_ts.create ctx) db).1.2 in
  documents db !! id = None /\
  (run (documents_ts.create ctx) db).1.1 = Ok id /\
  (run (documents_ts.get ctx id) db').1.1 = Ok d0 /\
  (exists rows, (run (documents_ts.list ctx) db').1.1 = Ok rows /\ (id, d0) ∈ rows) /\
  (forall j, j ≠ id -> documents db' !! j = documents db !! j) /\
  todos db' = todos db /\ users db' = users db.
Proof.
  intros Hauth Hu id d0 db'.
  assert (Hfresh : documents db !! id = None) by (apply not_elem_of_dom, is_fresh).
  assert (Hrun : run (documents_ts.create ctx) db
    = (Ok id, mkDb (users db) (todos db) (<[id := d0]> (documents db)),
       [DbGet Users uid; DbInsert Documents id])).
  { unfold run, documents_ts.create, documents_ts.the_user, bind, get_user, insert_document.
    rewrite Hauth. simpl. by rewrite decide_True. }
  subst db'. rewrite Hrun. simpl.
  set (db1 := mkDb (users db) (todos db) (<[id := d0]> (documents db))).
  assert (Hget1 : documents db1 !! id = Some d0) by apply lookup_insert_eq.
  split; [exact Hfresh|]. split; [reflexivity|]. split; [|split; [|split]].
  - unfold run, documents_ts.get. rewrite Hauth.
    by rewrite (owned_document_ok uid id d0 db1 [] Hget1 Hu eq_refl).
  - eexists. split.
    + unfold run, documents_ts.list, documents_ts.the_user, bind, get_user, query_documents.
      rewrite Hauth. simpl. rewrite decide_True by exact Hu. reflexivity.
    + apply list_elem_of_filter. split; [reflexivity|].
      by apply elem_of_map_to_list.
  - intros j Hj. by apply lookup_insert_ne.
  - split; reflexivity.
Qed.

(** X13: after [todos.remove] by its owner the todo is gone, and only it:
    [todos.list] no longer shows it, and every later mutation on it, the
    drawing write included, throws "Todo not found" and changes nothing. *)
Theorem todos_remove_then_gone (op : Op) (ctx : Ctx) (db : Db) (uid id : Id) (t : Todo) :
  auth ctx = Some uid -> todos db !! id = Some t -> userId t = uid ->
  todo_target op = Some id ->
  let db' := (run (todos_ts.remove ctx id) db).1.2 in
  (run (todos_ts.remove ctx id) db).1.1 = Ok tt /\
  todos db' !! id = None /\
  (forall j, j ≠ id -> todos db' !! j = todos db !! j) /\
  documents db' = documents db /\ users db' = users db /\
  (forall rows, (run (todos_ts.list ctx) db').1.1 = Ok rows -> id ∉ rows.*1) /\
  run (call op ctx) db' = (Throw "Todo not found", db', [DbGet Todos id]).
Proof.
  intros Hauth Hget Hown Htarget db'.
  assert (Hrun : run (todos_ts.remove ctx id) db
    = (Ok tt, mkDb (users db) (delete id (todos db)) (documents db),
       [DbGet Todos id; DbDelete Todos id])).
  { unfold run, todos_ts.remove. rewrite Hauth.
    unfold bind at 1. by rewrite (owned_todo_ok uid id t db [] Hget Hown). }
  subst db'. rewrite Hrun. simpl.
  split; [reflexivity|]. split; [apply lookup_delete_eq|].
  split; [intros j Hj; by apply lookup_delete_ne|].
  split; [reflexivity|]. split; [reflexivity|]. split.
  - intros rows Hrows.
    destruct (todos_list_rows ctx
                (mkDb (users db) (delete id (todos db)) (documents db)) uid Hauth)
      as (rows0 & Hrun0 & Hrows0).
    rewrite Hrun0 in Hrows. simpl in Hrows. injection Hrows as <-.
    intros Hin. apply list_elem_of_fmap in Hin as ([j t'] & Hj & Hin). simpl in Hj. subst j.
    apply Hrows0 in Hin as (Hget' & _). simpl in Hget'.
    by rewrite lookup_delete_eq in Hget'.
  - apply (todo_mutation_guarded op ctx _ uid id _ _ Hauth Htarget).
    apply owned_todo_missing. apply lookup_delete_eq.
Qed.

(** X14: after [documents.remove] by its owner the document is gone, and only
    it: every later operation on it, the drawing write included, throws
    "Document not found" and changes nothing. *)
Theorem documents_remove_then_gone (op : Op) (ctx : Ctx) (db : Db) (uid id : Id)
    (d : Document) :
  auth ctx = Some uid -> documents db !! id = Some d -> uid ∈ users db ->
  doc_userId d = uid -> document_target op = Some id ->
  let db' := (run (documents_ts.remove ctx id) db).1.2 in
  (run (documents_ts.remove ctx id) db).1.1 = Ok tt /\
  documents db' !! id = None /\
  (forall j, j ≠ id -> documents db' !! j = documents db !! j) /\
  todos db' = todos db /\ users db' = users db /\
  run (call op ctx) db' = (Throw "Document not found", db', [DbGet Documents id]).
Proof.
  intros Hauth Hget Hu Hown Htarget db'.
  assert (Hrun : run (documents_ts.remove ctx id) db
    = (Ok tt, mkDb (users db) (todos db) (delete id (documents db)),
       [DbGet Documents id; DbGet Users uid; DbDelete Documents id])).
  { unfold run, documents_ts.remove. rewrite Hauth.
    unfold bind at 1. by rewrite (owned_document_ok uid id d db [] Hget Hu Hown). }
  subst db'. rewrite Hrun. simpl.
  split; [reflexivity|]. split; [apply lookup_delete_eq|].
  split; [intros j Hj; by apply lookup_delete_ne|].
  split; [reflexivity|]. split; [reflexivity|].
  apply (document_operation_guarded op ctx _ uid id _ _ Hauth Htarget).
  apply owned_document_missing. apply lookup_delete_eq.
Qed.

(** X15: an authenticated caller without a row in the users table gets nothing
    from [documents.ts]: each of its six functions throws "User not found",
    "Document not found" or "Unauthorized" and leaves the database as it
    was. *)
Theorem orphan_caller_locked_out (op : Op) (ctx : Ctx) (db : Db) (uid : Id) :
  auth ctx = Some uid -> uid ∉ users db -> on_documents op = true ->
  exists msg log,
    run (call op ctx) db = (Throw msg, db, log) /\
    msg ∈ ["User not found"; "Document not found"; "Unauthorized"].
Proof.
  intros Hauth Hu Hop.
  destruct op; try discriminate Hop; open_handler; rewrite Hauth; simpl;
    rewrite ?(decide_False (P := uid ∈ users db)) by exact Hu;
    repeat (case_match; simplify_eq/=); try contradiction;
    eexists _, _; (split; [reflexivity|]); set_solver.
Qed.

(** X16: the functions of [todos.ts] never touch the users table: the identity
    given by the authentication is all they check, where [documents.ts] also
    reads the caller's user row. *)
Theorem todos_never_consult_users (op : Op) (ctx : Ctx) (db : Db) :
  on_documents op = false ->
  Forall (fun o => on_users o = false) (run (call op ctx) db).2.
Proof.
  destruct op; intros Hop; try discriminate Hop; open_handler; simpl;
    repeat (case_match; simplify_eq/=); repeat constructor.
Qed.


End ConvexMore.

(** * More of the session *)

Module AutosaveMore.
Import Autosave AutosaveOps AutosaveSpec.

Section Calm.
Context `{EditorApi}.

Lemma calm_step_refl (w : World) : calm_step w w.
Proof. repeat split. exists []. by rewrite app_nil_r. Qed.

Lemma calm_step_trans (w1 w2 w3 : World) :
  calm_step w1 w2 -> calm_step w2 w3 -> calm_step w1 w3.
Proof.
  intros (A1 & A2 & A3 & A4 & ea & Ha & Fa) (B1 & B2 & B3 & B4 & eb & Hb & Fb).
  repeat split; try congruence.
  exists (ea ++ eb). rewrite Hb, Ha, app_assoc. split; [reflexivity|].
  by apply Forall_app.
Qed.

Lemma calm_step_emit (x : Effect) (w : World) : calm x -> calm_step w (emit x w).
Proof. intros Hx. repeat split. exists [x]. split; [reflexivity | by constructor]. Qed.

Lemma calm_step_fields (w w' : World) :
  kind w' = kind w -> entityId w' = entityId w ->
  initialLoadRef w' = initialLoadRef w -> snapshotRef w' = snapshotRef w ->
  trace w' = trace w -> calm_step w w'.
Proof.
  intros H1 H2 H3 H4 H5. repeat split; try assumption.
  exists []. by rewrite app_nil_r.
Qed.

(** A field update followed by one calm effect. *)
Lemma calm_step_then_emit (x : Effect) (w w' : World) :
  calm x -> calm_step w w' -> calm_step w (emit x w').
Proof. intros Hx Hw. eapply calm_step_trans; [exact Hw | by apply calm_step_emit]. Qed.

Lemma calm_step_clearTimeout (h : positive) (w : World) : calm_step w (clearTimeout h w).
Proof. apply calm_step_then_emit; [exact I | by apply calm_step_fields]. Qed.

Lemma calm_step_clearInterval (h : positive) (w : World) : calm_step w (clearInterval h w).
Proof. apply calm_step_then_emit; [exact I | by apply calm_step_fields]. Qed.

Lemma calm_step_setTimeout (ms : nat) (w : World) : calm_step w (setTimeout ms w).2.
Proof. apply calm_step_then_emit; [exact I | by apply calm_step_fields]. Qed.

Lemma calm_step_setInterval (ms : nat) (w : World) : calm_step w (setInterval ms w).2.
Proof. apply calm_step_then_emit; [exact I | by apply calm_step_fields]. Qed.

Lemma calm_step_handleChange (w : World) : calm_step w (handleChange w).
Proof.
  unfold handleChange.
  set (w1 := match debounceTimerRef w with Some h => clearTimeout h w | None => w end).
  assert (H1 : calm_step w w1).
  { unfold w1. destruct (debounceTimerRef w);
      [apply calm_step_clearTimeout | apply calm_step_refl]. }
  pose proof (calm_step_setTimeout 300 w1) as H2.
  destruct (setTimeout 300 w1) as [h w2]. simpl in H2.
  eapply calm_step_trans; [exact H1|].
  eapply calm_step_trans; [exact H2|]. by apply calm_step_fields.
Qed.

End Calm.

(** A property kept by the calm steps, by a save and by a load is kept by
    everything a session does. *)
Section AlongCalm.
Context `{EditorApi}.
Variable P : World -> Prop.
Hypothesis P_calm : forall w w', calm_step w w' -> P w -> P w'.
Hypothesis P_save : forall w, P w -> P (saveDrawing w).
Hypothesis P_load : forall dd w, P w -> P (loadEffect dd w).

Lemma calmly_task (c : Cause) (w : World) : P w -> P (emit (Task c (clock w)) w).
Proof. apply P_calm, calm_step_emit. exact I. Qed.

Lemma calmly_handleBlur (w : World) : P w -> P (handleBlur w).
Proof.
  intros Hw. unfold handleBlur. apply P_save.
  destruct (debounceTimerRef w) as [h|]; [|exact Hw].
  apply (P_calm w); [|exact Hw].
  eapply calm_step_trans; [apply (calm_step_clearTimeout h)|].
  by apply calm_step_fields.
Qed.

Lemma calmly_unmount (w : World) : P w -> P (unmount w).
Proof.
  intros Hw. unfold unmount, intervalCleanup, listenerCleanup.
  set (w1 := match editor w with
             | Some _ => _
             | None => w
             end).
  assert (H1 : P w1).
  { unfold w1. destruct (editor w) as [e|]; [|exact Hw].
    set (w2 := saveDrawing (set_listening false w)).
    assert (H2 : P w2).
    { apply P_save. apply (P_calm w); [by apply calm_step_fields | exact Hw]. }
    destruct (debounceTimerRef w2) as [h|]; [|exact H2].
    apply (P_calm w2); [apply calm_step_clearTimeout | exact H2]. }
  destruct (intervalId w1) as [h|]; [|exact H1].
  apply (P_calm w1); [apply calm_step_clearInterval | exact H1].
Qed.

Lemma calmly_fire (t : Timer) (w : World) : P w -> P (fire t w).
Proof.
  intros Hw. unfold fire.
  destruct (decide (handle t ∈ handle <$> timers w)); [|exact Hw].
  assert (Hstart : forall c ts, P (emit (Task c (clock w)) (set_timers ts w))).
  { intros c ts. apply (P_calm w); [|exact Hw].
    apply calm_step_then_emit; [exact I | by apply calm_step_fields]. }
  destruct (every t) as [p|].
  - apply P_save, Hstart.
  - unfold debounceCallback.
    apply (P_calm (saveDrawing (emit (Task (ByTimeout (handle t)) (clock w))
                                  (set_timers (drop_timer (handle t) (timers w)) w))));
      [by apply calm_step_fields | apply P_save, Hstart].
Qed.

Lemma calmly_fire_all (ts : list Timer) (w : World) :
  P w -> P (foldl (fun w t => fire t w) w ts).
Proof.
  revert w. induction ts as [|t ts IH]; intros w Hw; simpl; [exact Hw|].
  apply IH. by apply calmly_fire.
Qed.

Lemma calmly_tick (w : World) : P w -> P (tick w).
Proof.
  intros Hw. unfold tick. apply calmly_fire_all.
  apply (P_calm w); [by apply calm_step_fields | exact Hw].
Qed.

Lemma calmly_elapse (n : nat) (w : World) : P w -> P (elapse n w).
Proof.
  revert w. induction n as [|n IH]; intros w Hw; simpl; [exact Hw|].
  apply IH. by apply calmly_tick.
Qed.

Lemma calmly_dispatch (ev : Event) (w : World) : P w -> P (dispatch ev w).
Proof.
  intros Hw. destruct ev as [e| |dd|]; simpl.
  - destruct (editor w); [|exact Hw].
    destruct (listening w); [|by apply (P_calm w); [apply calm_step_fields|]].
    apply (P_calm w); [|exact Hw].
    eapply calm_step_trans; [|apply calm_step_handleChange].
    apply calm_step_then_emit; [exact I | by apply calm_step_fields].
  - destruct (listening w); [|exact Hw].
    by apply calmly_handleBlur, calmly_task.
  - by apply P_load, calmly_task.
  - by apply calmly_unmount, calmly_task.
Qed.

Lemma calmly_play (script : list (nat * Event)) (w : World) : P w -> P (play script w).
Proof.
  revert w. unfold play.
  induction script as [|[d ev] script IH]; intros w Hw; simpl; [exact Hw|].
  apply IH. apply calmly_dispatch. by apply calmly_elapse.
Qed.

Lemma calmly_mount (k : EntityKind) (id : nat) (dd : option string)
    (ed : option EditorState) :
  P (fresh_world k id ed) -> P (mount k id dd ed).
Proof.
  intros H0. unfold mount.
  set (w1 := loadEffect dd (fresh_world k id ed)).
  assert (H1 : P w1) by (by apply P_load).
  set (w2 := listenerEffect w1).
  assert (H2 : P w2).
  { unfold w2, listenerEffect. destruct (editor w1); [|exact H1].
    apply (P_calm w1); [by apply calm_step_fields | exact H1]. }
  unfold intervalEffect. destruct (editor w2); [|exact H2].
  pose proof (calm_step_setInterval 3000 w2) as H3.
  destruct (setInterval 3000 w2) as [h w3]. simpl in H3.
  apply (P_calm w2); [|exact H2].
  eapply calm_step_trans; [exact H3|]. by apply calm_step_fields.
Qed.

End AlongCalm.


Section Writes.
Context `{EditorApi}.

Lemma calm_writes (effs : list Effect) : Forall calm effs -> writes effs = [].
Proof.
  induction 1 as [|x effs Hx _ IH]; [reflexivity|].
  change (x :: effs) with ([x] ++ effs). rewrite writes_app, IH.
  by destruct x.
Qed.

Lemma no_repeat_snoc {A} (l : list A) (x : A) :
  no_repeat l -> last l ≠ Some x -> no_repeat (l ++ [x]).
Proof.
  intros Hl Hlast i a b Ha Hb.
  assert (Hi : (S i < length (l ++ [x]))%nat) by (by apply lookup_lt_Some in Hb).
  rewrite length_app in Hi. simpl in Hi.
  rewrite lookup_app_l in Ha by lia.
  destruct (decide (S i < length l)%nat) as [Hlt|Hge].
  - rewrite lookup_app_l in Hb by lia. by apply (Hl i).
  - assert (Hlen : length l = S i) by lia.
    rewrite lookup_app_r in Hb by lia. rewrite Hlen, Nat.sub_diag in Hb.
    simpl in Hb. injection Hb as <-.
    intros ->. apply Hlast. rewrite last_lookup, Hlen. exact Ha.
Qed.

Lemma write_inv_calm (k : EntityKind) (id : nat) (w w' : World) :
  calm_step w w' -> write_inv k id w -> write_inv k id w'.
Proof.
  intros (Hk & Hi & _ & Hr & effs & Htr & Hn) Hw.
  unfold write_inv. rewrite Hk, Hi, Hr, Htr, writes_app, (calm_writes effs Hn), app_nil_r.
  exact Hw.
Qed.

Lemma write_inv_saveDrawing (k : EntityKind) (id : nat) (w : World) :
  write_inv k id w -> write_inv k id (saveDrawing w).
Proof.
  intros Hw. pose proof Hw as (I1 & I2 & I3 & I4 & I5).
  destruct (saveDrawing_props w) as (P1 & P2 & P3).
  unfold write_inv.
  rewrite P1, P2, P3, saveDrawing_trace, writes_app, save_effects_writes.
  destruct (editor w) as [e|]; [|rewrite app_nil_r; exact Hw].
  destruct (stringify e) as [s|]; [|rewrite app_nil_r; exact Hw].
  destruct (decide (snapshotRef w = Some s)) as [Heq|Hne].
  - rewrite app_nil_r, <- Heq. exact Hw.
  - rewrite I1, I2, fmap_app. simpl.
    split; [reflexivity|]. split; [reflexivity|]. split; [|split].
    + apply Forall_app. split; [exact I3 | by constructor].
    + by rewrite last_snoc.
    + apply no_repeat_snoc; [exact I5 | by rewrite <- I4].
Qed.

Lemma loadEffect_writes (dd : option string) (w : World) :
  kind (loadEffect dd w) = kind w /\ entityId (loadEffect dd w) = entityId w /\
  writes (trace (loadEffect dd w)) = writes (trace w).
Proof.
  unfold loadEffect.
  destruct (editor w) as [e|]; [|auto].
  destruct dd as [s|]; [|auto].
  destruct (decide (s = "")); [auto|].
  destruct (initialLoadRef w); [auto|].
  destruct (JSON_parse s) as [j|]; [destruct (loadSnapshot j e)|]; simpl;
    rewrite !writes_app; simpl; rewrite !app_nil_r; auto.
Qed.

Lemma write_inv_loadEffect (k : EntityKind) (id : nat) (dd : option string) (w : World) :
  write_inv k id w -> write_inv k id (loadEffect dd w).
Proof.
  intros Hw. destruct (loadEffect_writes dd w) as (L1 & L2 & L3).
  destruct (loadEffect_frame dd w) as (_ & _ & L4 & _).
  unfold write_inv. rewrite L1, L2, L3, L4. exact Hw.
Qed.

Lemma write_inv_session (k : EntityKind) (id : nat) (dd : option string)
    (ed : option EditorState) (script : list (nat * Event)) (ms : nat) :
  write_inv k id (elapse ms (play script (mount k id dd ed))).
Proof.
  apply (calmly_elapse _ (write_inv_calm k id) (write_inv_saveDrawing k id)).
  apply (calmly_play _ (write_inv_calm k id) (write_inv_saveDrawing k id)
           (write_inv_loadEffect k id)).
  apply (calmly_mount _ (write_inv_calm k id) (write_inv_loadEffect k id)).
  repeat split; [constructor|]. intros i a b Ha. discriminate Ha.
Qed.

(** X18: in every session, mounted on an editor or not, and whatever happens
    to it (edits, blurs, re-renders, unmounts, time passing): every write it
    dispatches is for its own entity, [snapshotRef] holds the payload of the
    last write ([null] as long as there was none), and no write carries the
    payload of the write before it. *)
Theorem writes_follow_snapshotRef (k : EntityKind) (id : nat) (dd : option string)
    (ed : option EditorState) (script : list (nat * Event)) (ms : nat) :
  let w := elapse ms (play script (mount k id dd ed)) in
  Forall (fun x => x.1 = (k, id)) (writes (trace w)) /\
  snapshotRef w = last (writes (trace w)).*2 /\
  no_repeat (writes (trace w)).*2.
Proof.
  intros w. destruct (write_inv_session k id dd ed script ms) as (_ & _ & I3 & I4 & I5).
  auto.
Qed.

End Writes.


Section Flush.
Context `{EditorApi}.

(** What the cleanups leave of an open session: no timer, no listener. *)
Lemma unmount_clears (w : World) :
  steady w -> is_Some (editor w) ->
  timers (unmount w) = [] /\ listening (unmount w) = false.
Proof.
  intros (S1 & S2 & S3 & S4) [e He].
  unfold unmount, listenerCleanup. rewrite He.
  set (w1 := saveDrawing (set_listening false w)).
  destruct (saveDrawing_frame (set_listening false w)) as (F1 & F2 & F3 & F4 & F5 & F6 & F7).
  fold w1 in F1, F2, F3, F4, F5, F6, F7. simpl in *.
  rewrite Forall_forall in S3.
  assert (Hall : forall t, t ∈ timers w ->
            debounceTimerRef w = Some (handle t) \/ intervalId w = Some (handle t)).
  { intros t Ht. destruct (timer_kind_cases t _ Ht) as [Hk|Hk]; [left | right; by apply S3].
    destruct (timeouts (timers w)) as [|t0 [|]]; [by apply elem_of_nil in Hk| |contradiction].
    apply list_elem_of_singleton in Hk as ->. apply S4. }
  unfold intervalCleanup.
  split.
  - apply elem_of_nil_inv. intros t Ht.
    assert (Hin : t ∈ timers w /\
                  debounceTimerRef w ≠ Some (handle t) /\ intervalId w ≠ Some (handle t)).
    { revert Ht. rewrite F2.
      destruct (debounceTimerRef w) as [h|];
        [change (intervalId (clearTimeout h w1)) with (intervalId w1)|];
        rewrite F3; destruct (intervalId w) as [i|]; simpl; rewrite ?F7;
        unfold drop_timer; rewrite ?list_elem_of_filter;
        intros Ht; repeat split; try tauto; try discriminate;
        intros Heq; injection Heq as Heq; intuition congruence. }
    destruct Hin as (Hin & Hr & Hi). destruct (Hall t Hin); contradiction.
  - rewrite F2.
    destruct (debounceTimerRef w) as [h|];
      [change (intervalId (clearTimeout h w1)) with (intervalId w1)|];
      rewrite F3; destruct (intervalId w) as [i|]; simpl; exact F4.
Qed.

(** With no listener and no timer, edits, blurs and time leave no trace. *)
Lemma silent_play (script : list (nat * Event)) (w : World) :
  only_input script -> timers w = [] -> listening w = false ->
  trace (play script w) = trace w /\ timers (play script w) = [] /\
  listening (play script w) = false.
Proof.
  intros Hin. revert w. unfold play.
  induction Hin as [|[d ev] script Hev _ IH]; intros w Ht Hl; simpl; [auto|].
  destruct (elapse_no_timers d w Ht) as [E1 E2].
  assert (E3 : listening (elapse d w) = false).
  { clear -Ht Hl. revert w Ht Hl. induction d as [|d IHd]; intros w Ht Hl; simpl; [exact Hl|].
    assert (Htick : tick w = set_clock (S (clock w)) w).
    { unfold tick. simpl. by rewrite Ht. }
    rewrite Htick. by apply IHd. }
  set (w1 := elapse d w) in *.
  assert (Hd : trace (dispatch ev w1) = trace w1 /\ timers (dispatch ev w1) = timers w1 /\
               listening (dispatch ev w1) = listening w1).
  { destruct ev as [e| | |]; simpl in Hev; try contradiction; simpl.
    - destruct (editor w1); [|auto]. simpl. rewrite E3. auto.
    - rewrite E3. auto. }
  destruct Hd as (D1 & D2 & D3).
  destruct (IH (dispatch ev w1)) as (I1 & I2 & I3); [congruence | congruence |].
  split; [congruence | auto].
Qed.

(** X20: once a session is unmounted no timer is pending and no listener is
    registered, so that edits, blurs and time passing add nothing to its
    trace: no save attempt, no write. *)
Theorem unmounted_session_is_silent (k : EntityKind) (id : nat) (dd : option string)
    (e0 : EditorState) (script : list (nat * Event)) (ms : nat)
    (script2 : list (nat * Event)) (n : nat) :
  stays_open script -> only_input script2 ->
  let w' := dispatch Unmount (reached k id dd e0 script ms) in
  timers w' = [] /\ listening w' = false /\
  trace (elapse n (play script2 w')) = trace w'.
Proof.
  intros Hopen Hin w'.
  destruct (steady_reached k id dd e0 script ms Hopen) as [Hs He].
  set (w := reached k id dd e0 script ms) in *.
  destruct (unmount_clears (emit (Task ByUnmount (clock w)) w) Hs He) as [Ht Hl].
  change (unmount (emit (Task ByUnmount (clock w)) w)) with w' in Ht, Hl.
  split; [exact Ht|]. split; [exact Hl|].
  destruct (silent_play script2 w' Hin Ht Hl) as (P1 & P2 & _).
  destruct (elapse_no_timers n _ P2) as [E1 _]. congruence.
Qed.

(** X21: a blur of the window, in an open session, clears the pending debounce
    timer, if any, and runs the save path at once, in that order; no
    debounced save is pending afterwards, and however long the session is
    left alone no debounced save follows. *)
Theorem blur_flushes_now (k : EntityKind) (id : nat) (dd : option string)
    (e0 : EditorState) (script : list (nat * Event)) (ms : nat) (n : nat) :
  stays_open script ->
  let w := reached k id dd e0 script ms in
  let w' := dispatch Blur w in
  trace w' = trace w ++ Task ByBlur (clock w) ::
             match debounceTimerRef w with Some h => [ClearTimeout h] | None => [] end
             ++ save_effects w /\
  debounceTimerRef w' = None /\ timeouts (timers w') = [] /\
  debounce_saves (trace (elapse n w')) = debounce_saves (trace w).
Proof.
  intros Hopen w w'.
  destruct (steady_reached k id dd e0 script ms Hopen) as [Hs He]. fold w in Hs, He.
  destruct (steady_blur w Hs He) as [Hs' _]. fold w' in Hs'.
  pose proof Hs as (S1 & S2 & S3 & S4).
  assert (Htr : trace w' = trace w ++ Task ByBlur (clock w) ::
             match debounceTimerRef w with Some h => [ClearTimeout h] | None => [] end
             ++ save_effects w).
  { subst w'. simpl. rewrite S1. unfold handleBlur. simpl.
    rewrite saveDrawing_trace.
    destruct (debounceTimerRef w) as [h|]; simpl; rewrite <- ?app_assoc; reflexivity. }
  assert (Href : debounceTimerRef w' = None).
  { subst w'. simpl. rewrite S1. unfold handleBlur. simpl.
    destruct (saveDrawing_frame
                match debounceTimerRef w with
                | Some h => set_debounceTimerRef None
                              (clearTimeout h (emit (Task ByBlur (clock w)) w))
                | None => emit (Task ByBlur (clock w)) w
                end) as (_ & F2 & _).
    rewrite F2. destruct (debounceTimerRef w) eqn:Hr; [reflexivity | exact Hr]. }
  assert (Hto : timeouts (timers w') = []).
  { destruct Hs' as (_ & _ & _ & S4').
    destruct (timeouts (timers w')) as [|t [|]]; [reflexivity| |contradiction].
    destruct S4' as (R & _). rewrite Href in R. discriminate R. }
  split; [exact Htr|]. split; [exact Href|]. split; [exact Hto|].
  destruct (elapse_idle n w' Hs' Hto) as (_ & _ & _ & _ & I5). rewrite I5, Htr.
  unfold debounce_saves. rewrite attempts_in_app, omap_app.
  assert (Hq : omap (fun a : Cause * nat * EditorState =>
                       match a with (c, t, e) => if is_timeout c then Some (t, e) else None end)
                 (attempts_in (Some (ByBlur, clock w))
                    (match debounceTimerRef w with Some h => [ClearTimeout h] | None => [] end
                     ++ save_effects w)) = []).
  { assert (Ha : attempts_in (Some (ByBlur, clock w))
                   (match debounceTimerRef w with Some h => [ClearTimeout h] | None => [] end
                    ++ save_effects w)
                 = attempts_in (Some (ByBlur, clock w)) (save_effects w))
      by (destruct (debounceTimerRef w); reflexivity).
    rewrite Ha, attempts_save_effects. by destruct (editor w). }
  rewrite Hq. apply app_nil_r.
Qed.

End Flush.


Section Inert.
Context `{EditorApi}.

Lemma inert_emit_task (c : Cause) (t : nat) (w : World) : inert w -> inert (emit (Task c t) w).
Proof.
  intros (I1 & I2 & I3 & I4 & I5 & I6 & I7 & I8). repeat split; try assumption.
  simpl. apply Forall_app. split; [exact I8 | by constructor].
Qed.

Lemma inert_tick (w : World) : inert w -> inert (tick w).
Proof.
  intros Hw. pose proof Hw as (I1 & I2 & I3 & I4 & I5 & I6 & I7 & I8).
  assert (Htick : tick w = set_clock (S (clock w)) w).
  { unfold tick. simpl. by rewrite I2. }
  rewrite Htick. exact Hw.
Qed.

Lemma inert_elapse (n : nat) (w : World) : inert w -> inert (elapse n w).
Proof.
  revert w. induction n as [|n IH]; intros w Hw; simpl; [exact Hw|].
  apply IH. by apply inert_tick.
Qed.

Lemma inert_dispatch (ev : Event) (w : World) : inert w -> inert (dispatch ev w).
Proof.
  intros Hw. pose proof Hw as (I1 & I2 & I3 & I4 & I5 & I6 & I7 & I8).
  destruct ev as [e| |dd|]; simpl.
  - by rewrite I1.
  - by rewrite I3.
  - pose proof (inert_emit_task ByRender (clock w) w Hw) as Hw'.
    unfold loadEffect. simpl. by rewrite I1.
  - pose proof (inert_emit_task ByUnmount (clock w) w Hw) as Hw'.
    unfold unmount, listenerCleanup, intervalCleanup. simpl. rewrite I1. simpl.
    by rewrite I5.
Qed.

Lemma inert_play (script : list (nat * Event)) (w : World) : inert w -> inert (play script w).
Proof.
  revert w. unfold play. induction script as [|[d ev] script IH]; intros w Hw; [exact Hw|].
  simpl. apply IH. apply inert_dispatch. by apply inert_elapse.
Qed.

(** X19: a session mounted without an editor does nothing, whatever happens to
    it: it sets no timer and registers no listener, it never parses the
    stored drawing, never serializes and never writes, and its two refs stay
    as they were initialised. *)
Theorem session_without_editor_is_inert (k : EntityKind) (id : nat) (dd : option string)
    (script : list (nat * Event)) (ms : nat) :
  let w := elapse ms (play script (mount k id dd None)) in
  timers w = [] /\ listening w = false /\ snapshotRef w = None /\
  initialLoadRef w = false /\
  serialized (trace w) = [] /\ parse_attempts (trace w) = [] /\ writes (trace w) = [].
Proof.
  intros w.
  assert (Hw : inert w).
  { apply inert_elapse, inert_play. repeat split. constructor. }
  destruct Hw as (I1 & I2 & I3 & I4 & I5 & I6 & I7 & I8).
  repeat split; try assumption;
    induction I8 as [|x tr Hx _ IH]; try reflexivity; by destruct x.
Qed.

End Inert.

Section EndToEnd.
Context `{EditorApi}.
Import Convex ConvexMore.

Lemma store_write_stored (ctx : Ctx) (db : Db) (uid : nat) (k : EntityKind) (id : nat)
    (s : string) :
  auth ctx = Some uid -> owns uid k id db ->
  owns uid k id (store_write ctx (k, id, s) db) /\
  stored_drawing k id (store_write ctx (k, id, s) db) = Some s.
Proof.
  intros Hauth Hown. destruct k; simpl in *.
  - destruct Hown as (t & Hget & Ho).
    rewrite (todos_updateDrawing_ok ctx db uid id t s Hauth Hget Ho). simpl.
    rewrite lookup_insert_eq. simpl. split; [|reflexivity].
    exists (set_drawing s t). auto.
  - destruct Hown as (Hu & d & Hget & Ho).
    rewrite (documents_updateDrawing_ok ctx db uid id d s Hauth Hget Hu Ho). simpl.
    rewrite lookup_insert_eq. simpl. split; [|reflexivity].
    split; [exact Hu|]. exists (set_doc_drawing s (now ctx) d). auto.
Qed.

Lemma store_writes_last (ctx : Ctx) (uid : nat) (k : EntityKind) (id : nat)
    (ws : list (EntityKind * nat * string)) (db : Db) :
  auth ctx = Some uid -> owns uid k id db ->
  Forall (fun x => x.1 = (k, id)) ws ->
  stored_drawing k id (store_writes ctx ws db)
  = match last ws.*2 with Some s => Some s | None => stored_drawing k id db end.
Proof.
  intros Hauth Hown Hall. revert db Hown.
  induction Hall as [|[[k0 id0] s] ws Hx _ IH]; intros db Hown; [reflexivity|].
  simpl in Hx. injection Hx as -> ->.
  destruct (store_write_stored ctx db uid k id s Hauth Hown) as [Hown1 Hst1].
  change (store_writes ctx ((k, id, s) :: ws) db)
    with (store_writes ctx ws (store_write ctx (k, id, s) db)).
  rewrite (IH _ Hown1), Hst1.
  destruct ws as [|y ws]; [reflexivity|].
  change (((k, id, s) :: y :: ws).*2) with (s :: (y :: ws).*2).
  change ((y :: ws).*2) with (y.2 :: ws.*2).
  rewrite last_cons_cons.
  destruct (last (y.2 :: ws.*2)) eqn:Hl; [reflexivity|].
  by apply last_None in Hl.
Qed.

(** X22: client and backend together: when the writes a session dispatches are
    applied in order by [updateDrawing], called by the owner of the entity,
    the drawing stored for the entity is the snapshot the session remembers
    in [snapshotRef], and the stored drawing is untouched as long as the
    session remembers none. *)
Theorem stored_is_remembered (ctx : Ctx) (db : Db) (uid : nat) (k : EntityKind) (id : nat)
    (dd : option string) (ed : option EditorState) (script : list (nat * Event)) (ms : nat) :
  auth ctx = Some uid -> owns uid k id db ->
  let w := elapse ms (play script (mount k id dd ed)) in
  stored_drawing k id (store_writes ctx (writes (trace w)) db)
  = match snapshotRef w with
    | Some s => Some s
    | None => stored_drawing k id db
    end.
Proof.
  intros Hauth Hown w.
  destruct (write_inv_session k id dd ed script ms) as (_ & _ & W1 & W2 & _).
  fold w in W1, W2. rewrite W2.
  by apply (store_writes_last ctx uid).
Qed.

End EndToEnd.

End AutosaveMore.

(** * The periodic saves *)

Module PeriodicSpec.
Import Autosave AutosaveSpec PeriodicOps.

Section Periodic.
Context `{EditorApi}.

Lemma filter_lengths {A} (P : A -> Prop) `{!forall x, Decision (P x)} (l : list A) :
  length (filter P l) + length (filter (fun x => ~ P x) l) = length l.
Proof.
  induction l as [|x l IH]; [reflexivity|].
  rewrite !filter_cons. destruct (decide (P x)) as [Hx|Hx].
  - rewrite decide_False by tauto. simpl. lia.
  - rewrite decide_True by exact Hx. simpl. lia.
Qed.

(** A list whose two parts have at most one element each. *)
Lemma two_parts {A} (P : A -> Prop) `{!forall x, Decision (P x)} (l la lb : list A) :
  filter P l = la -> filter (fun x => ~ P x) l = lb ->
  (length la <= 1)%nat -> (length lb <= 1)%nat ->
  l = la ++ lb \/ l = lb ++ la.
Proof.
  intros Ha Hb Hla Hlb.
  pose proof (filter_lengths P l) as Hlen. rewrite Ha, Hb in Hlen.
  destruct l as [|x [|y [|z l]]]; simpl in Hlen; try lia.
  - simpl in *. subst. by left.
  - rewrite !filter_cons, !filter_nil in Ha, Hb.
    destruct (decide (P x)).
    + rewrite decide_False in Hb by tauto. subst. by left.
    + rewrite decide_True in Hb by tauto. subst. by left.
  - rewrite !filter_cons, !filter_nil in Ha, Hb.
    destruct (decide (P x)), (decide (P y));
      repeat (first [rewrite decide_False in Hb by tauto
                    |rewrite decide_True in Hb by tauto]);
      subst; simpl in *; try lia; auto.
Qed.


Lemma interval_saves_task (tr : list Effect) (c : Cause) (t : nat) (w : World) :
  interval_saves (tr ++ Task c t :: save_effects w)
  = interval_saves tr ++
    match editor w with
    | Some e => if is_interval c then [(t, e)] else []
    | None => []
    end.
Proof.
  unfold interval_saves. rewrite attempts_in_app, omap_app, attempts_save_effects.
  destruct (editor w); simpl; [|reflexivity]. by destruct (is_interval c).
Qed.

Lemma interval_saves_other (tr : list Effect) (c : Cause) (t : nat) (effs : list Effect) :
  is_interval c = false -> Forall taskless effs ->
  interval_saves (tr ++ Task c t :: effs) = interval_saves tr.
Proof.
  intros Hc Hi. unfold interval_saves. rewrite attempts_in_app, omap_app.
  rewrite <- (app_nil_r (omap _ (attempts_in None tr))) at 2. f_equal.
  induction Hi as [|x effs Hx _ IH]; [reflexivity|].
  destruct x; simpl in *; try contradiction; try exact IH.
  rewrite Hc. exact IH.
Qed.

Lemma taskless_save_effects (w : World) : Forall taskless (save_effects w).
Proof.
  unfold save_effects. destruct (editor w) as [e|]; [|constructor].
  destruct (stringify e) as [s|]; [|repeat constructor].
  destruct (decide (snapshotRef w = Some s)); repeat constructor.
Qed.

Lemma loadEffect_taskless (dd : option string) (w : World) :
  exists effs, trace (loadEffect dd w) = trace w ++ effs /\ Forall taskless effs.
Proof.
  unfold loadEffect.
  assert (H0 : exists effs, trace w = trace w ++ effs /\ Forall taskless effs).
  { exists []. by rewrite app_nil_r. }
  destruct (editor w) as [e|]; [|exact H0].
  destruct dd as [s|]; [|exact H0].
  destruct (decide (s = "")); [exact H0|].
  destruct (initialLoadRef w); [exact H0|].
  destruct (JSON_parse s) as [j|]; [destruct (loadSnapshot j e)|]; simpl;
    rewrite <- ?app_assoc; simpl; eexists; (split; [reflexivity|]); repeat constructor.
Qed.

Lemma intervals_drop_eq (h : positive) (ts : list Timer) :
  intervals (drop_timer h ts) = filter (fun t => handle t ≠ h) (intervals ts).
Proof.
  unfold intervals, drop_timer. rewrite !list_filter_filter.
  apply list_filter_iff. intros t. tauto.
Qed.

(** The pending interval fires: one periodic save, due again a period later. *)
Lemma fire_interval_exact (iv : Timer) (p : nat) (e : EditorState) (w : World) :
  intervals (timers w) = [iv] -> every iv = Some p ->
  Forall (fun t' => handle t' ≠ handle iv) (timeouts (timers w)) ->
  editor w = Some e ->
  let w' := fire iv w in
  intervals (timers w') = [mkTimer (handle iv) (due iv + p) (Some p)] /\
  timeouts (timers w') = timeouts (timers w) /\
  debounceTimerRef w' = debounceTimerRef w /\
  clock w' = clock w /\ editor w' = Some e /\
  interval_saves (trace w') = interval_saves (trace w) ++ [(clock w, e)].
Proof.
  intros Hiv Hp Hother He w'. subst w'. unfold fire.
  assert (Hin : iv ∈ timers w).
  { assert (Hi : iv ∈ intervals (timers w)) by (rewrite Hiv; by apply list_elem_of_singleton).
    by apply list_elem_of_filter in Hi as [_ Hi]. }
  rewrite decide_True by (by apply list_elem_of_fmap_2).
  rewrite Hp. set (w1 := emit _ _).
  destruct (saveDrawing_frame w1) as (F1 & F2 & F3 & F4 & F5 & F6 & F7).
  rewrite F1, F2, F5, F7, saveDrawing_trace. subst w1. simpl.
  split; [|split; [|repeat split; try assumption]].
  - rewrite intervals_app, intervals_drop_eq, Hiv.
    rewrite filter_cons_False by (intros Hne; by apply Hne).
    unfold intervals. rewrite filter_cons_True by (simpl; congruence). reflexivity.
  - rewrite timeouts_app, timeouts_drop_other by exact Hother.
    unfold timeouts at 2. rewrite filter_cons_False by (simpl; congruence).
    apply app_nil_r.
  - rewrite <- app_assoc. simpl.
    rewrite (interval_saves_task (trace w) (ByInterval (handle iv)) (clock w)).
    simpl. by rewrite He.
Qed.

Lemma fire_timeout_periodic (t : Timer) (w : World) :
  timeouts (timers w) = [t] ->
  interval_saves (trace (fire t w)) = interval_saves (trace w).
Proof.
  intros Hto. unfold fire.
  assert (Ht : t ∈ timeouts (timers w)) by (rewrite Hto; by apply list_elem_of_singleton).
  apply list_elem_of_filter in Ht as [Hkind Hin].
  rewrite decide_True by (by apply list_elem_of_fmap_2).
  rewrite Hkind. unfold debounceCallback. simpl.
  rewrite saveDrawing_trace. simpl. rewrite <- app_assoc. simpl.
  rewrite (interval_saves_task (trace w) (ByTimeout (handle t)) (clock w)).
  simpl. destruct (editor w); apply app_nil_r.
Qed.

(** One millisecond in a ticking session. *)
Lemma ticking_tick (p : nat) (w : World) (q : nat) :
  ticking p w q ->
  ticking p (tick w) (if decide (S (clock w) = p * (q + 1))%nat then S q else q) /\
  clock (tick w) = S (clock w).
Proof.
  intros (Hs & He & (i & Hiv) & Hclock & Hsaves & Href).
  destruct (steady_tick w Hs He) as [Hs' He'].
  destruct He as [e He].
  set (iv := mkTimer i (p * (q + 1)) (Some p)) in *.
  pose proof Hs as (S1 & S2 & S3 & S4).
  set (w1 := set_clock (S (clock w)) w).
  set (l := filter (fun t => (due t <= S (clock w))%nat) (timers w)).
  assert (Htick : tick w = foldl (fun w t => fire t w) w1 l) by reflexivity.
  (* the two parts of the due timers *)
  assert (Hlt : timeouts l = filter (fun t => (due t <= S (clock w))%nat) (timeouts (timers w))).
  { unfold l, timeouts. rewrite !list_filter_filter. apply list_filter_iff. intros t. tauto. }
  assert (Hli : intervals l = filter (fun t => (due t <= S (clock w))%nat) [iv]).
  { rewrite <- Hiv. unfold l, intervals. rewrite !list_filter_filter.
    apply list_filter_iff. intros t. tauto. }
  assert (Hshape : l = timeouts l ++ intervals l \/ l = intervals l ++ timeouts l).
  { apply (two_parts (fun t => every t = None)); try reflexivity.
    - rewrite Hlt. destruct (timeouts (timers w)) as [|t [|]]; [simpl; lia| |contradiction].
      rewrite filter_cons. destruct (decide _); simpl; lia.
    - change (filter (fun x : Timer => ¬ every x = None) l) with (intervals l).
      rewrite Hli, filter_cons. destruct (decide _); simpl; lia. }
  (* facts about the world before the tick, read at the new clock *)
  assert (Hiv1 : intervals (timers w1) = [iv]) by exact Hiv.
  assert (He1 : editor w1 = Some e) by exact He.
  assert (Htr1 : trace w1 = trace w) by reflexivity.
  assert (Hck1 : clock w1 = S (clock w)) by reflexivity.
  destruct (decide (S (clock w) = p * (q + 1))%nat) as [Hend|Hmid].
  - (* the interval is due *)
    assert (Hli' : intervals l = [iv]).
    { rewrite Hli, filter_cons_True by (simpl; lia). reflexivity. }
    assert (Hseq : (fun j => (p * j)%nat) <$> seq 1 (S q)
                   = ((fun j => (p * j)%nat) <$> seq 1 q) ++ [S (clock w)]).
    { rewrite seq_S, fmap_app. simpl. f_equal. f_equal. lia. }
    destruct (timeouts (timers w)) as [|t [|]] eqn:Hto; [| |contradiction].
    + (* no timeout pending *)
      assert (Hl : l = [iv]).
      { destruct Hshape as [Hl|Hl]; rewrite Hl, Hlt, Hli'; reflexivity. }
      destruct (fire_interval_exact iv p e w1 Hiv1 eq_refl) as (A1 & A2 & A3 & A4 & A5 & A6);
        [simpl; rewrite Hto; constructor | exact He1 |].
      rewrite Htick, Hl. simpl. split; [|exact A4].
      split; [by rewrite Htick, Hl in Hs'|]. split; [eauto|]. split; [|split; [|split]].
      * exists i. rewrite A1. simpl. f_equal. f_equal. lia.
      * rewrite A4. simpl. lia.
      * rewrite A6, Htr1, fmap_app, Hsaves, Hseq. reflexivity.
      * intros h Hh. rewrite A3 in Hh. rewrite A2. simpl. rewrite Hto.
        destruct (Href h Hh) as [D HD]. discriminate HD.
    + destruct S4 as (R & Hdue & Hne).
      assert (Hother : Forall (fun t' => handle t' ≠ handle iv) [t]).
      { apply Forall_singleton. rewrite Forall_forall in Hne. intros Heq.
        apply (Hne iv); [rewrite Hiv; by apply list_elem_of_singleton | by symmetry]. }
      assert (Hne1 : Forall (fun x => handle x ≠ handle t) [iv]).
      { apply Forall_singleton. apply Forall_inv in Hother. simpl in *. congruence. }
      destruct (decide (due t <= S (clock w))%nat) as [Hdt|Hdt].
      * (* the timeout is due too *)
        assert (Hlt' : timeouts l = [t]) by (rewrite Hlt, filter_cons_True by exact Hdt; reflexivity).
        destruct Hshape as [Hl|Hl]; rewrite Hl, Hlt', Hli' in Htick; simpl in Htick.
        -- (* timeout first *)
           destruct (fire_timeout t e w1) as (B1 & B2 & B3 & B4 & B5 & B6 & B7 & B8 & B9);
             [exact Hto | simpl; by rewrite Hiv | exact He1 |].
           pose proof (fire_timeout_periodic t w1 Hto) as B10.
           destruct (fire_interval_exact iv p e (fire t w1))
             as (A1 & A2 & A3 & A4 & A5 & A6);
             [by rewrite B8 | reflexivity | rewrite B7; constructor | exact B1 |].
           rewrite Htick. split; [|by rewrite A4, B5].
           split; [by rewrite Htick in Hs'|]. split; [eauto|]. split; [|split; [|split]].
           ++ exists i. rewrite A1. simpl. f_equal. f_equal. lia.
           ++ rewrite A4, B5. simpl. lia.
           ++ rewrite A6, B5, fmap_app, B10, Htr1, Hsaves, Hseq. reflexivity.
           ++ intros h Hh. rewrite A3, B2 in Hh. discriminate Hh.
        -- (* interval first *)
           destruct (fire_interval_exact iv p e w1 Hiv1 eq_refl)
             as (A1 & A2 & A3 & A4 & A5 & A6);
             [simpl; by rewrite Hto | exact He1 |].
           assert (Hto2 : timeouts (timers (fire iv w1)) = [t]) by (by rewrite A2).
           destruct (fire_timeout t e (fire iv w1))
             as (B1 & B2 & B3 & B4 & B5 & B6 & B7 & B8 & B9);
             [exact Hto2 | rewrite A1; apply Forall_singleton;
                           apply Forall_inv in Hne1; exact Hne1 | exact A5 |].
           pose proof (fire_timeout_periodic t _ Hto2) as B10.
           rewrite Htick. split; [|by rewrite B5, A4].
           split; [by rewrite Htick in Hs'|]. split; [eauto|]. split; [|split; [|split]].
           ++ exists i. rewrite B8, A1. simpl. f_equal. f_equal. lia.
           ++ rewrite B5, A4. simpl. lia.
           ++ rewrite B10, A6, Htr1, fmap_app, Hsaves, Hseq. reflexivity.
           ++ intros h Hh. rewrite B2 in Hh. discriminate Hh.
      * (* the timeout is not due *)
        assert (Hl : l = [iv]).
        { assert (Hlt' : timeouts l = []) by (rewrite Hlt, filter_cons_False by exact Hdt; reflexivity).
          destruct Hshape as [Hl|Hl]; rewrite Hl, Hlt', Hli'; reflexivity. }
        destruct (fire_interval_exact iv p e w1 Hiv1 eq_refl)
          as (A1 & A2 & A3 & A4 & A5 & A6);
          [simpl; by rewrite Hto | exact He1 |].
        rewrite Htick, Hl. simpl. split; [|exact A4].
        split; [by rewrite Htick, Hl in Hs'|]. split; [eauto|]. split; [|split; [|split]].
        -- exists i. rewrite A1. simpl. f_equal. f_equal. lia.
        -- rewrite A4. simpl. lia.
        -- rewrite A6, Htr1, fmap_app, Hsaves, Hseq. reflexivity.
        -- intros h Hh. rewrite A3 in Hh. rewrite A2. simpl. rewrite Hto. by apply Href.
  - (* the interval is not due *)
    assert (Hli' : intervals l = []).
    { rewrite Hli, filter_cons_False by (simpl; lia). reflexivity. }
    destruct (timeouts (timers w)) as [|t [|]] eqn:Hto; [| |contradiction].
    + assert (Hl : l = []).
      { destruct Hshape as [Hl|Hl]; rewrite Hl, Hlt, Hli'; reflexivity. }
      rewrite Htick, Hl. simpl. split; [|reflexivity].
      split; [by rewrite Htick, Hl in Hs'|]. split; [eauto|]. split; [eauto|].
      split; [simpl; lia|]. split; [exact Hsaves|].
      intros h Hh. simpl. rewrite Hto. by apply Href.
    + destruct S4 as (R & Hdue & Hne).
      destruct (decide (due t <= S (clock w))%nat) as [Hdt|Hdt].
      * assert (Hl : l = [t]).
        { assert (Hlt' : timeouts l = [t])
            by (rewrite Hlt, filter_cons_True by exact Hdt; reflexivity).
          destruct Hshape as [Hl|Hl]; rewrite Hl, Hlt', Hli'; reflexivity. }
        destruct (fire_timeout t e w1) as (B1 & B2 & B3 & B4 & B5 & B6 & B7 & B8 & B9);
          [exact Hto | exact Hne | exact He1 |].
        pose proof (fire_timeout_periodic t w1 Hto) as B10.
        rewrite Htick, Hl. simpl. split; [|exact B5].
        split; [by rewrite Htick, Hl in Hs'|]. split; [eauto|]. split; [|split; [|split]].
        -- exists i. by rewrite B8.
        -- rewrite B5. simpl. lia.
        -- rewrite B10, Htr1. exact Hsaves.
        -- intros h Hh. rewrite B2 in Hh. discriminate Hh.
      * assert (Hl : l = []).
        { assert (Hlt' : timeouts l = [])
            by (rewrite Hlt, filter_cons_False by exact Hdt; reflexivity).
          destruct Hshape as [Hl|Hl]; rewrite Hl, Hlt', Hli'; reflexivity. }
        rewrite Htick, Hl. simpl. split; [|reflexivity].
        split; [by rewrite Htick, Hl in Hs'|]. split; [eauto|]. split; [eauto|].
        split; [simpl; lia|]. split; [exact Hsaves|].
        intros h Hh. simpl. rewrite Hto. by apply Href.
Qed.


Lemma ticking_elapse (p : nat) (n : nat) (w : World) (q : nat) :
  ticking p w q ->
  exists q', ticking p (elapse n w) q' /\ clock (elapse n w) = (clock w + n)%nat.
Proof.
  revert w q. induction n as [|n IH]; intros w q Ht; simpl.
  - exists q. split; [exact Ht | lia].
  - destruct (ticking_tick p w q Ht) as [Ht' Hc].
    destruct (IH _ _ Ht') as (q' & Hq' & Hc'). exists q'. split; [exact Hq' | lia].
Qed.

Lemma ticking_change (p : nat) (w : World) (q : nat) (e : EditorState) :
  ticking p w q ->
  ticking p (dispatch (Change e) w) q /\ clock (dispatch (Change e) w) = clock w.
Proof.
  intros (Hs & [e0 He] & (i & Hiv) & Hclock & Hsaves & Href).
  destruct (change_arms w e0 e Hs He) as ((Hs' & He' & _) & Hc & Hto & Hr & _).
  split; [|exact Hc].
  pose proof Hs as (S1 & S2 & S3 & S4).
  assert (Hrest : intervals (timers (dispatch (Change e) w)) = intervals (timers w) /\
                  interval_saves (trace (dispatch (Change e) w)) = interval_saves (trace w)).
  { simpl. rewrite He. simpl. rewrite S1. unfold handleChange. simpl.
    destruct (debounceTimerRef w) as [h|] eqn:Hr0; simpl.
    - destruct (Href h eq_refl) as [D HD]. rewrite HD in S4.
      destruct S4 as (_ & _ & Hne). simpl in Hne. split.
      + rewrite intervals_app, intervals_drop_other by exact Hne.
        unfold intervals at 2. rewrite filter_cons_False by (simpl; tauto).
        apply app_nil_r.
      + rewrite <- !app_assoc. simpl. apply interval_saves_other; [reflexivity|].
        repeat constructor.
    - split.
      + rewrite intervals_app. unfold intervals at 2.
        rewrite filter_cons_False by (simpl; tauto). apply app_nil_r.
      + rewrite <- !app_assoc. simpl. apply interval_saves_other; [reflexivity|].
        repeat constructor. }
  destruct Hrest as [Hi Ht].
  split; [exact Hs'|]. split; [eauto|]. split; [exists i; by rewrite Hi|].
  split; [by rewrite Hc|]. split; [by rewrite Ht|].
  intros h Hh. rewrite Hr in Hh. injection Hh as <-. rewrite Hto. eauto.
Qed.

Lemma ticking_blur (p : nat) (w : World) (q : nat) :
  ticking p w q ->
  ticking p (dispatch Blur w) q /\ clock (dispatch Blur w) = clock w.
Proof.
  intros (Hs & He & (i & Hiv) & Hclock & Hsaves & Href).
  destruct (steady_blur w Hs He) as [Hs' He'].
  pose proof Hs as (S1 & S2 & S3 & S4).
  assert (Hrest : intervals (timers (dispatch Blur w)) = intervals (timers w) /\
                  interval_saves (trace (dispatch Blur w)) = interval_saves (trace w) /\
                  clock (dispatch Blur w) = clock w /\
                  debounceTimerRef (dispatch Blur w) = None).
  { simpl. rewrite S1. unfold handleBlur. simpl.
    destruct (debounceTimerRef w) as [h|] eqn:Hr0.
    - set (w1 := set_debounceTimerRef None _).
      destruct (saveDrawing_frame w1) as (F1 & F2 & F3 & F4 & F5 & F6 & F7).
      rewrite F7, F5, F2, saveDrawing_trace.
      assert (Htr : trace w1 = trace w ++ [Task ByBlur (clock w); ClearTimeout h]).
      { subst w1. simpl. by rewrite <- app_assoc. }
      assert (Hts : timers w1 = drop_timer h (timers w)) by reflexivity.
      assert (Hck : clock w1 = clock w) by reflexivity.
      assert (Hrf : debounceTimerRef w1 = None) by reflexivity.
      clearbody w1. rewrite Htr, Hts, Hck, Hrf.
      destruct (Href h eq_refl) as [D HD]. rewrite HD in S4.
      destruct S4 as (_ & _ & Hne). simpl in Hne.
      split; [by apply intervals_drop_other|]. split; [|auto].
      rewrite <- app_assoc. simpl. apply interval_saves_other; [reflexivity|].
      constructor; [exact I | apply taskless_save_effects].
    - set (w1 := emit _ w).
      destruct (saveDrawing_frame w1) as (F1 & F2 & F3 & F4 & F5 & F6 & F7).
      rewrite F7, F5, F2, saveDrawing_trace.
      assert (Htr : trace w1 = trace w ++ [Task ByBlur (clock w)]) by reflexivity.
      assert (Hts : timers w1 = timers w) by reflexivity.
      assert (Hck : clock w1 = clock w) by reflexivity.
      assert (Hrf : debounceTimerRef w1 = None) by exact Hr0.
      clearbody w1. rewrite Htr, Hts, Hck, Hrf.
      split; [reflexivity|]. split; [|auto].
      rewrite <- app_assoc. simpl. apply interval_saves_other; [reflexivity|].
      apply taskless_save_effects. }
  destruct Hrest as (Hi & Ht & Hc & Hr).
  split; [|exact Hc].
  split; [exact Hs'|]. split; [exact He'|]. split; [exists i; by rewrite Hi|].
  split; [by rewrite Hc|]. split; [by rewrite Ht|].
  intros h Hh. rewrite Hr in Hh. discriminate Hh.
Qed.

Lemma ticking_render (p : nat) (w : World) (q : nat) (dd : option string) :
  ticking p w q ->
  ticking p (dispatch (Render dd) w) q /\ clock (dispatch (Render dd) w) = clock w.
Proof.
  intros (Hs & He & (i & Hiv) & Hclock & Hsaves & Href).
  destruct (steady_render dd w Hs He) as [Hs' He'].
  simpl in *.
  destruct (loadEffect_frame dd (emit (Task ByRender (clock w)) w))
    as (F1 & F2 & F3 & F4 & F5 & F6 & F7 & F8).
  destruct (loadEffect_taskless dd (emit (Task ByRender (clock w)) w))
    as (effs & Htr & Heffs).
  simpl in *. split; [|exact F6].
  split; [exact Hs'|]. split; [exact He'|]. rewrite F7, F6, F2, Htr.
  split; [eauto|]. split; [exact Hclock|]. split; [|exact Href].
  rewrite <- app_assoc. simpl. by rewrite interval_saves_other.
Qed.

Lemma ticking_play (p : nat) (script : list (nat * Event)) (w : World) (q : nat) :
  stays_open script -> ticking p w q ->
  exists q', ticking p (play script w) q' /\
             clock (play script w) = (clock w + duration script)%nat.
Proof.
  intros Hopen. revert w q.
  induction Hopen as [|[d ev] script Hev _ IH]; intros w q Ht.
  - exists q. split; [exact Ht | simpl; lia].
  - change (play ((d, ev) :: script) w) with (play script (dispatch ev (elapse d w))).
    destruct (ticking_elapse p d w q Ht) as (q1 & Ht1 & Hc1).
    assert (Hd : ticking p (dispatch ev (elapse d w)) q1 /\
                 clock (dispatch ev (elapse d w)) = clock (elapse d w)).
    { destruct ev as [e| |dd|]; [by apply ticking_change | by apply ticking_blur
                                 | by apply ticking_render | contradiction]. }
    destruct Hd as [Ht2 Hc2].
    destruct (IH _ _ Ht2) as (q' & Hq' & Hc'). exists q'. split; [exact Hq'|].
    rewrite Hc', Hc2, Hc1. unfold duration. simpl. lia.
Qed.

(** The mounted session: its one timer is the interval, first due after
    3000 ms. *)
Lemma mount_timers (k : EntityKind) (id : nat) (dd : option string) (e0 : EditorState) :
  let w := mount k id dd (Some e0) in
  is_Some (editor w) /\ timers w = [mkTimer 1 3000 (Some 3000%nat)] /\
  clock w = 0%nat /\ debounceTimerRef w = None /\ interval_saves (trace w) = [].
Proof.
  unfold mount.
  destruct (loadEffect_frame dd (fresh_world k id (Some e0)))
    as (F1 & F2 & F3 & F4 & F5 & F6 & F7 & F8).
  destruct (loadEffect_taskless dd (fresh_world k id (Some e0))) as (effs & Htr & Heffs).
  set (w1 := loadEffect dd (fresh_world k id (Some e0))) in *. simpl in *.
  destruct F1 as [e1 He1]; [eauto|].
  unfold listenerEffect. rewrite He1. unfold intervalEffect. simpl. rewrite He1. simpl.
  rewrite F7, F8, F6, F2, Htr. split; [eauto|]. repeat split.
  unfold interval_saves.
  replace (attempts_in None (effs ++ [SetInterval 1 3000])) with (@nil (Cause * nat * EditorState));
    [reflexivity|].
  clear -Heffs. induction Heffs as [|x effs Hx _ IH]; [reflexivity|].
  destruct x; simpl in *; try contradiction; exact IH.
Qed.

Lemma ticking_mount (k : EntityKind) (id : nat) (dd : option string) (e0 : EditorState) :
  ticking 3000 (mount k id dd (Some e0)) 0.
Proof.
  pose proof (steady_mount k id dd e0) as Hs.
  destruct (mount_timers k id dd e0) as (He & Hts & Hc & Hr & Hsv).
  split; [exact Hs|]. split; [exact He|]. rewrite Hts, Hc, Hr, Hsv.
  split; [exists 1%positive; reflexivity|]. split; [lia|]. split; [reflexivity|].
  intros h Hh. discriminate Hh.
Qed.

(** X23: in a session that is not unmounted the periodic saves are made at
    3000 ms, 6000 ms, 9000 ms, ... after the mount, one in every period that
    has ended, whatever else happens: edits, blurs and re-renders neither
    delay nor cancel them, and the one interval timer is always pending, due
    at the end of the current period. *)
Theorem periodic_save_every_3000ms (k : EntityKind) (id : nat) (dd : option string)
    (e0 : EditorState) (script : list (nat * Event)) (ms : nat) :
  stays_open script ->
  let w := reached k id dd e0 script ms in
  clock w = (duration script + ms)%nat /\
  (interval_saves (trace w)).*1
  = (fun j => (3000 * j)%nat) <$> seq 1 (clock w / 3000) /\
  exists i, intervals (timers w)
            = [mkTimer i (3000 * (clock w / 3000 + 1)) (Some 3000%nat)].
Proof.
  intros Hopen w. subst w. unfold reached.
  destruct (ticking_play 3000 script _ 0 Hopen (ticking_mount k id dd e0))
    as (q1 & Ht1 & Hc1).
  destruct (ticking_elapse 3000 ms _ q1 Ht1) as (q & Ht & Hc).
  destruct (mount_timers k id dd e0) as (_ & _ & Hc0 & _).
  rewrite Hc0 in Hc1.
  destruct Ht as (_ & _ & Hiv & Hclock & Hsaves & _).
  set (w := elapse ms _) in *.
  assert (Hq : q = (clock w / 3000)%nat).
  { apply (Nat.div_unique _ _ _ (clock w - 3000 * q)); lia. }
  rewrite <- Hq. split; [lia|]. split; [exact Hsaves | exact Hiv].
Qed.

End Periodic.
End PeriodicSpec.

(** * The panels and the window *)

Module PanelsSpec.

Import Autosave Pages.

Section Todo.
Context `{EditorApi}.
Import TodoPanels.



End Todo.

Section Document.
Import DocumentPanels.

Lemma doc_after_snoc (clicks : list Click) (c : Click) :
  after (clicks ++ [c]) = click (after clicks) c.
Proof. unfold after. by rewrite foldl_app. Qed.

(** X25: on the document page with two panels at least one of them is always
    shown: each button flips its own panel, and touches the other panel only
    to bring it back when it would otherwise hide the last one. *)
Theorem document_panels_never_both_hidden (clicks : list Click) :
  let s := after clicks in
  (showDrawing s = true \/ showMarkdown s = true) /\
  showDrawing (toggleDrawing s) = negb (showDrawing s) /\
  showMarkdown (toggleMarkdown s) = negb (showMarkdown s) /\
  (showMarkdown (toggleDrawing s) = showMarkdown s \/ showDrawing (toggleDrawing s) = false) /\
  (showDrawing (toggleMarkdown s) = showDrawing s \/ showMarkdown (toggleMarkdown s) = false).
Proof.
  intros s. split.
  - subst s. induction clicks as [|c clicks IH] using rev_ind; [by right|].
    rewrite doc_after_snoc.
    destruct (after clicks) as [[|] [|]], c; simpl; auto.
  - destruct s as [[|] [|]]; simpl; auto.
Qed.

End Document.

Section Window.
Import SafeTldraw.
Context {Listener Registry : Type}.
Variable native : string -> Listener -> Registry -> Registry.

Lemma act_registry (f : AddEventListener) (h : option Listener) (r : Registry)
    (actions : list (Action Listener)) :
  registry (foldl (act native) (mkWindow h (Patched f) r) actions)
  = register native f r (allowed actions).
Proof.
  revert h r. induction actions as [|a actions IH]; intros h r; [reflexivity|].
  destruct a as [type l|h']; simpl.
  - destruct (decide (type = "beforeunload")); simpl; apply IH.
  - apply IH.
Qed.

(** X26: while [SafeTldraw] is mounted no [beforeunload] listener reaches the
    browser through [window.addEventListener]: the registry is what the
    function found at mount makes of the other registrations, in order. *)
Theorem beforeunload_listeners_dropped (w : Window Listener Registry)
    (actions : list (Action Listener)) :
  registry (mounted native w actions)
  = register native (addEventListener w) (registry w) (allowed actions) /\
  Forall (fun p => p.1 <> "beforeunload") (allowed actions).
Proof.
  split; [apply act_registry|].
  induction actions as [|a actions IH]; [constructor|].
  destruct a as [type l|h]; simpl; [|exact IH].
  destruct (decide (type = "beforeunload")); [exact IH|]. by constructor.
Qed.

(** X27: unmounting [SafeTldraw] puts back the [onbeforeunload] handler and
    the [addEventListener] found at mount, whatever the children assigned to
    [window.onbeforeunload] in between; the listeners they registered stay,
    and when they registered none the window is as it was before the mount. *)
Theorem unmount_restores_window (w : Window Listener Registry)
    (actions : list (Action Listener)) :
  let w' := lifetime native w actions in
  onbeforeunload w' = onbeforeunload w /\
  addEventListener w' = addEventListener w /\
  registry w' = registry (mounted native w actions) /\
  (allowed actions = [] -> w' = w).
Proof.
  intros w'. subst w'. unfold lifetime, cleanup. simpl.
  repeat split. intros Hnone.
  pose proof (act_registry (addEventListener w) None (registry w) actions) as Hr.
  unfold mounted. simpl. rewrite Hr, Hnone. by destruct w.
Qed.

End Window.

End PanelsSpec.

(** * More runs *)

Module MoreRuns.
Import Convex ConvexOps ConvexMore Samples.

Lemma todos_list_owned_and_due_witness :
  exists rows,
    run (todos_ts.list owner) Demo.db0 = (Ok rows, Demo.db0, [DbQuery Todos]) /\
    (1, todo1) ∈ rows.
Proof.
  destruct (todos_list_owned_and_due owner Demo.db0 10 eq_refl) as (rows & Hrun & _ & Hrows).
  exists rows. split; [exact Hrun|].
  apply Hrows. split; [reflexivity|]. split; [reflexivity|]. vm_compute. discriminate.
Defined.

Lemma documents_list_owned_witness :
  exists rows,
    run (documents_ts.list owner) Demo.db0
    = (Ok rows, Demo.db0, [DbGet Users 10; DbQuery Documents]) /\
    (1, document1) ∈ rows.
Proof.
  destruct (documents_list_owned owner Demo.db0 10 eq_refl) as [Hin _].
  destruct Hin as (rows & Hrun & _ & Hrows); [compute_done|].
  exists rows. split; [exact Hrun|]. apply Hrows. split; reflexivity.
Defined.

Lemma todo_mutation_not_found_witness :
  run (call (TodosToggleComplete 1) other) Demo.db0
  = (Throw "Todo not found", Demo.db0, [DbGet Todos 1]).
Proof.
  apply (todo_mutation_not_found (TodosToggleComplete 1) other Demo.db0 20 1 eq_refl eq_refl).
  right. exists todo1. split; [reflexivity | simpl; lia].
Defined.

Lemma document_operation_refused_witness :
  run (call (DocumentsGet 1) other) Demo.db0
  = (Throw "Unauthorized", Demo.db0, [DbGet Documents 1; DbGet Users 20]).
Proof.
  destruct (document_operation_refused (DocumentsGet 1) other Demo.db0 20 1 eq_refl eq_refl)
    as [_ Hd].
  apply (Hd document1); [reflexivity|]. right. simpl. lia.
Defined.

Lemma throw_writes_nothing_witness :
  (run (call (TodosRemove 1) other) Demo.db0).1.2 = Demo.db0 /\
  Forall (fun o => is_write o = false) (run (call (TodosRemove 1) other) Demo.db0).2.
Proof.
  apply (throw_writes_nothing (TodosRemove 1) other Demo.db0 "Todo not found").
  vm_compute. reflexivity.
Defined.

(** The owner renames todo 1: it is still theirs, and still has no
    drawing. *)
Lemma owner_never_changes_witness :
  userId <$> todos (run (call (TodosUpdateText 1 "buy bread") owner) Demo.db0).1.2 !! 1
  = Some 10.
Proof.
  destruct (owner_never_changes (TodosUpdateText 1 "buy bread") owner Demo.db0) as (_ & Ht & _).
  assert (Hrow : todos (run (call (TodosUpdateText 1 "buy bread") owner) Demo.db0).1.2 !! 1
                 = Some (set_text "buy bread" todo1)) by (vm_compute; reflexivity).
  rewrite Hrow. exact (f_equal Some (Ht 1 todo1 _ eq_refl Hrow)).
Defined.

Lemma drawing_only_by_updateDrawing_witness :
  drawing <$> todos (run (call (TodosUpdateText 1 "buy bread") owner) Demo.db0).1.2 !! 1
  = Some None.
Proof.
  destruct (drawing_only_by_updateDrawing (TodosUpdateText 1 "buy bread") owner Demo.db0
              eq_refl) as (Ht & _).
  assert (Hrow : todos (run (call (TodosUpdateText 1 "buy bread") owner) Demo.db0).1.2 !! 1
                 = Some (set_text "buy bread" todo1)) by (vm_compute; reflexivity).
  rewrite Hrow. exact (f_equal Some (Ht 1 todo1 _ eq_refl Hrow)).
Defined.

Lemma todo_drawing_write_read_witness :
  let db' := (run (todos_ts.updateDrawing owner 1 "{a}") Demo.db0).1.2 in
  todos db' !! 1 = Some (set_drawing "{a}" todo1) /\
  exists rows, (run (todos_ts.list owner) db').1.1 = Ok rows /\
               (1, set_drawing "{a}" todo1) ∈ rows.
Proof.
  destruct (todo_drawing_write_read owner Demo.db0 10 1 todo1 "{a}" "{b}"
              eq_refl eq_refl eq_refl) as (_ & H2 & _ & _ & _ & H6 & _).
  split; [exact H2|]. apply H6. vm_compute. discriminate.
Defined.

Lemma document_drawing_write_read_witness :
  (run (documents_ts.get owner 1)
     (run (documents_ts.updateDrawing owner 1 "{a}") Demo.db0).1.2).1.1
  = Ok (mkDocument "Notes" (Some "hello") 10 5%Z 1000%Z None (Some "{a}")).
Proof.
  destruct (document_drawing_write_read owner Demo.db0 10 1 document1 "{a}" "{b}"
              eq_refl eq_refl) as (_ & H2 & _).
  - compute_done.
  - reflexivity.
  - exact H2.
Defined.

Lemma todos_add_then_list_witness :
  let id := fresh (dom (todos Demo.db0)) in
  let row := mkTodo "walk" (Some "") false 10 false 0%Z None in
  todos Demo.db0 !! id = None /\
  exists rows',
    (run (todos_ts.list owner) (run (todos_ts.add owner "walk") Demo.db0).1.2).1.1 = Ok rows' /\
    (id, row) ∈ rows'.
Proof.
  destruct (todos_add_then_list owner Demo.db0 10 "walk" eq_refl)
    as (H1 & _ & rows' & H3 & H4 & _).
  split; [exact H1|]. exists rows'. split; [exact H3 | exact H4].
Defined.

Lemma toggleComplete_twice_witness :
  (run (todos_ts.toggleComplete owner 1)
     (run (todos_ts.toggleComplete owner 1) Demo.db0).1.2).1.2 = Demo.db0.
Proof.
  destruct (toggleComplete_twice owner Demo.db0 10 1 todo1 eq_refl eq_refl eq_refl)
    as (_ & _ & _ & H4).
  exact H4.
Defined.

Lemma documents_create_then_get_witness :
  let id := fresh (dom (documents Demo.db0)) in
  (run (documents_ts.create owner) Demo.db0).1.1 = Ok id /\
  (run (documents_ts.get owner id) (run (documents_ts.create owner) Demo.db0).1.2).1.1
  = Ok (mkDocument "Untitled Document" (Some "") 10 1000%Z 1000%Z None None).
Proof.
  destruct (documents_create_then_get owner Demo.db0 10 eq_refl) as (_ & H2 & H3 & _).
  - compute_done.
  - split; [exact H2 | exact H3].
Defined.

Lemma todos_remove_then_gone_witness :
  let db' := (run (todos_ts.remove owner 1) Demo.db0).1.2 in
  todos db' !! 1 = None /\
  run (call (TodosUpdateDrawing 1 "{a}") owner) db'
  = (Throw "Todo not found", db', [DbGet Todos 1]).
Proof.
  destruct (todos_remove_then_gone (TodosUpdateDrawing 1 "{a}") owner Demo.db0 10 1 todo1
              eq_refl eq_refl eq_refl eq_refl) as (_ & H2 & _ & _ & _ & _ & H7).
  split; [exact H2 | exact H7].
Defined.

Lemma documents_remove_then_gone_witness :
  let db' := (run (documents_ts.remove owner 1) Demo.db0).1.2 in
  documents db' !! 1 = None /\
  run (call (DocumentsUpdateDrawing 1 "{a}") owner) db'
  = (Throw "Document not found", db', [DbGet Documents 1]).
Proof.
  destruct (documents_remove_then_gone (DocumentsUpdateDrawing 1 "{a}") owner Demo.db0 10 1
              document1 eq_refl eq_refl) as (_ & H2 & _ & _ & _ & H6).
  - compute_done.
  - reflexivity.
  - reflexivity.
  - split; [exact H2 | exact H6].
Defined.

Lemma orphan_caller_locked_out_witness :
  exists msg log,
    run (call DocumentsCreate orphan) Demo.db0 = (Throw msg, Demo.db0, log) /\
    msg ∈ ["User not found"; "Document not found"; "Unauthorized"].
Proof.
  apply (orphan_caller_locked_out DocumentsCreate orphan Demo.db0 30 eq_refl).
  - compute_done.
  - reflexivity.
Defined.

Lemma todos_never_consult_users_witness :
  Forall (fun o => on_users o = false) (run (call (TodosRemove 1) owner) Demo.db0).2.
Proof.
  apply (todos_never_consult_users (TodosRemove 1) owner Demo.db0). reflexivity.
Defined.


End MoreRuns.

Module MoreSessions.
Import Autosave Demo AutosaveOps AutosaveSpec AutosaveMore PeriodicOps PeriodicSpec Samples.

Ltac by_computing H := revert H; vm_compute; intros H; exact H.

(** After the unmount at 150 ms an edit and a blur, and five seconds, add
    nothing to the trace. *)
Lemma unmounted_session_is_silent_witness :
  let w' := dispatch Unmount (reached TodoEntity 7 None "{}" [(100, edit "{a}")] 50) in
  timers w' = [] /\ listening w' = false /\
  trace (elapse 5000 (play [(10, edit "{b}"); (5, Blur)] w')) = trace w'.
Proof.
  apply (unmounted_session_is_silent (H:=demo_api) TodoEntity 7 None "{}"
           [(100, edit "{a}")] 50 [(10, edit "{b}"); (5, Blur)] 5000).
  - repeat constructor.
  - repeat constructor.
Defined.

(** An edit at 100 ms, a blur at 150 ms: the blur saves, and no debounced
    save follows in the next second. *)
Lemma blur_flushes_now_witness :
  let w := reached TodoEntity 7 None "{}" [(100, edit "{a}")] 50 in
  writes (trace (dispatch Blur w)) = [(TodoEntity, 7, "{a}")] /\
  debounce_saves (trace (elapse 1000 (dispatch Blur w))) = [].
Proof.
  destruct (blur_flushes_now (H:=demo_api) TodoEntity 7 None "{}" [(100, edit "{a}")] 50 1000)
    as (H1 & _ & _ & H4).
  - repeat constructor.
  - split.
    + apply (f_equal writes) in H1. by_computing H1.
    + etrans; [exact H4|]. vm_compute. reflexivity.
Defined.

(** The session on todo 1: its one write, applied for the owner, stores
    what the session remembers. *)
Lemma stored_is_remembered_witness :
  snapshotRef session1 = Some "{a}" /\
  stored_drawing TodoEntity 1 (store_writes owner (writes (trace session1)) db0) = Some "{a}".
Proof.
  pose proof (stored_is_remembered (H:=demo_api) owner db0 10 TodoEntity 1 None (Some "{}")
                [(10, edit "{a}")] 300 eq_refl) as Hs.
  split; [vm_compute; reflexivity|].
  assert (Hown : owns 10 TodoEntity 1 db0).
  { exists todo1. split; reflexivity. }
  specialize (Hs Hown). by_computing Hs.
Defined.

(** An edit at 2900 ms and a blur at 3100 ms: at 6000 ms the periodic
    saves were made at 3000 ms and at 6000 ms. *)
Lemma periodic_save_every_3000ms_witness :
  let w := reached TodoEntity 7 None "{}" [(2900, edit "{a}"); (200, Blur)] 2900 in
  (interval_saves (trace w)).*1 = [3000; 3000 + 3000]%nat.
Proof.
  destruct (periodic_save_every_3000ms (H:=demo_api) TodoEntity 7 None "{}"
              [(2900, edit "{a}"); (200, Blur)] 2900) as (H1 & H2 & _).
  - repeat constructor.
  - etrans; [exact H2|]. rewrite H1. reflexivity.
Defined.

End MoreSessions.

Module MorePanels.
Import PanelsSpec Samples.


(** The children try to install a [beforeunload] listener and handler:
    after the unmount the window is as it was. *)
Lemma unmount_restores_window_witness :
  SafeTldraw.lifetime push window0
    [SafeTldraw.AddListener "beforeunload" "ask";
     SafeTldraw.AssignOnBeforeUnload (Some "ask")]
  = window0.
Proof.
  destruct (unmount_restores_window push window0
              [SafeTldraw.AddListener "beforeunload" "ask";
               SafeTldraw.AssignOnBeforeUnload (Some "ask")]) as (_ & _ & _ & H4).
  apply H4. reflexivity.
Defined.

End MorePanels.
